(** * Prepare_Bible: a JSON Bible flattened to a sorted verse table

    A shallow embedding of [Prepare_Bible.py]: the two flatteners
    ([flatten_from_list], [flatten_from_nested]) and the pipeline of [main]
    (shape detection, integer coercion, sort, id column, write), followed by
    the properties of the specification proved about them.

    Values are the ones [json.load] builds.  Python text is a Rocq [string],
    one character per code point (so the code points below 256); a JSON number
    without fraction or exponent is a Python [int], any other one (and NaN and
    the infinities, which [json.load] accepts) a binary64 [float].  A [dict]
    is an association list in insertion order, which is the order [.items()]
    iterates in. *)

From Stdlib Require Import List String Ascii ZArith Bool Lia.
From Stdlib Require Import Permutation Sorted DecimalString SpecFloat.
Import ListNotations.

Local Open Scope string_scope.
Local Open Scope Z_scope.
Local Open Scope list_scope.

Set Implicit Arguments.
Set Warnings "-register-all".

(** ** Values *)

Inductive json : Type :=
| JNull
| JBool (b : bool)
| JInt (z : Z)
| JFloat (f : spec_float)
| JStr (s : string)
| JList (items : list json)
| JDict (items : list (string * json)).

Definition pydict : Type := list (string * json).

(** A cell of a DataFrame: [None] is the missing marker (NaN, or <NA> in a
    nullable column), [Some v] a Python value. *)
Definition cell : Type := option json.

(** [type(data).__name__] for the values of the model. *)
Definition type_name (v : json) : string :=
  match v with
  | JNull => "NoneType"
  | JBool _ => "bool"
  | JInt _ => "int"
  | JFloat _ => "float"
  | JStr _ => "str"
  | JList _ => "list"
  | JDict _ => "dict"
  end.

(** [d.get(k)]: the value stored under [k]. *)
Fixpoint get (k : string) (d : pydict) : cell :=
  match d with
  | [] => None
  | (k', v) :: d' => if String.eqb k k' then Some v else get k d'
  end.

(** [k in l] for a list of labels. *)
Definition mem (k : string) (l : list string) : bool :=
  existsb (String.eqb k) l.

(** ** Exceptions and results *)

(** What pandas itself can raise on the way. *)
Inductive pandas_error : Type :=
| MissingLabel (col : string)
    (* KeyError: no column carries the label *)
| DuplicateLabel (col : string)
    (* [df[col]] is a frame, or sort_values finds the label twice *)
| UnsafeCast (col : string).
    (* astype("Int64") on a value that is a number but not a whole int64 *)

(** Inputs the model does not follow pandas on. *)
Inductive scope_limit : Type :=
| NotListOfDicts   (* a list with an element that is not a dict *)
| BookNotText      (* a book cell that is neither text nor missing *)
| NumeralNotRead.  (* numeric text that the runtime does not read *)

Inductive exn : Type :=
| InputNotFound                                      (* FileNotFoundError *)
| UnsupportedShape (ty : string)                     (* TypeError in main *)
| MissingRequiredFields (missing seen : list string) (* ValueError, list path *)
| EmptyFlattenResult                                 (* ValueError, nested path *)
| CoercionFailure (label : string)                   (* ValueError of int() *)
| PandasError (e : pandas_error)
| OutsideModel (why : scope_limit).

Inductive result (A : Type) : Type :=
| Ok (a : A)
| Raise (e : exn).

Arguments Ok {A} a.
Arguments Raise {A} e.

Definition bind {A B : Type} (r : result A) (k : A -> result B) : result B :=
  match r with
  | Ok a => k a
  | Raise e => Raise e
  end.

Notation "x <- r ;; k" := (bind r (fun x => k))
  (at level 61, r at next level, right associativity).

(** ** What the code takes from Python and pandas

    [int(s)] on text, [str(v)] on a value, and the way
    [pd.to_numeric(_, errors="coerce")] reads one cell are library code.  The
    program is embedded over any implementation of the three; a reference one
    ([cpython], below) is used to evaluate examples.

    [to_numeric_Int64] is the reading of a single cell only.  What line 114
    stores depends on the whole column ([to_Int64], below): the column stays
    in int64 when every cell reads as an integer, and is held in binary64
    otherwise, before [astype("Int64")] casts it. *)

Inductive coerced : Type :=
| CInt (z : Z)            (* an int64 *)
| CFloat (f : spec_float) (* a binary64 that is not NaN *)
| CNA                     (* not a number: NaN *)
| COutside.               (* text the runtime does not read *)

Class Runtime : Type := {
  py_int : string -> option Z;
  py_str : json -> string;
  to_numeric_Int64 : cell -> coerced
}.

(** ** Binary64 *)

(** [float(z)]: the binary64 nearest to [z], ties to even. *)
Definition round_f64 (z : Z) : spec_float :=
  binary_normalize 53 1024 z 0 false.

(** The whole number a binary64 is, if it is one. *)
Definition float_to_Z (f : spec_float) : option Z :=
  match f with
  | S754_zero _ => Some 0
  | S754_finite s m e =>
      if 0 <=? e then Some (cond_Zopp s (Zpos m * 2 ^ e))
      else if Zpos m mod 2 ^ (- e) =? 0
           then Some (cond_Zopp s (Zpos m / 2 ^ (- e)))
           else None
  | _ => None
  end.

Definition in_int64 (z : Z) : bool :=
  (- 2 ^ 63 <=? z) && (z <? 2 ^ 63).

Definition is_nan (f : spec_float) : bool :=
  match f with
  | S754_nan => true
  | _ => false
  end.

(** ** DataFrames *)

(** Column labels in order (a label may repeat after a rename) and the rows,
    each row holding one cell per column. *)
Record frame : Type := {
  columns : list string;
  rows : list (list cell)
}.

(** Labels of [l] that are not in [seen], each once, in order of first
    appearance. *)
Fixpoint new_labels (seen l : list string) : list string :=
  match l with
  | [] => []
  | k :: l' =>
      if mem k seen then new_labels seen l'
      else k :: new_labels (k :: seen) l'
  end.

(** The keys of all records, each once, in order of first appearance. *)
Definition all_keys (data : list pydict) : list string :=
  new_labels [] (flat_map (map fst) data).

(** The dtype pandas infers for a column of Python values.  A column is held
    in float64 when it has a number, every cell of it is a number (an int
    from -2^63 up to 2^64-1, or a float), [None] or missing, and one of them
    is a float, [None] or missing; unless it has both a negative int and an
    int from 2^63 up, which no integer dtype holds together.  Any other
    column keeps its values as they are (int64 or uint64 for integers alone,
    bool for booleans alone, object otherwise).  For an integer beyond that
    range beside [None], pandas' choice depends on the order of the cells;
    the model keeps such a column as it is, and the conversion of line 114
    reads it through binary64 in either case. *)
Definition float64_cell (c : cell) : bool :=
  match c with
  | None | Some JNull | Some (JFloat _) => true
  | Some (JInt z) => (- 2 ^ 63 <=? z) && (z <? 2 ^ 64)
  | Some _ => false
  end.

Definition is_number (c : cell) : bool :=
  match c with
  | Some (JInt _) | Some (JFloat _) => true
  | _ => false
  end.

Definition not_int (c : cell) : bool :=
  match c with
  | Some (JInt _) => false
  | _ => true
  end.

Definition negative_int (c : cell) : bool :=
  match c with
  | Some (JInt z) => z <? 0
  | _ => false
  end.

Definition beyond_int64 (c : cell) : bool :=
  match c with
  | Some (JInt z) => 2 ^ 63 <=? z
  | _ => false
  end.

Definition float64_column (col : list cell) : bool :=
  forallb float64_cell col && existsb is_number col && existsb not_int col
  && negb (existsb negative_int col && existsb beyond_int64 col).

(** A value as the column stores it: in a float64 column an integer is
    rounded to binary64 and [None] and NaN are the missing marker. *)
Definition store (col : list cell) (c : cell) : cell :=
  if float64_column col then
    match c with
    | Some (JInt z) => Some (JFloat (round_f64 z))
    | Some JNull => None
    | Some (JFloat S754_nan) => None
    | _ => c
    end
  else c.

(** [pd.DataFrame(data)] for a list of dicts: one column per key seen, one
    row per dict, a missing cell where a dict lacks the key. *)
Definition DataFrame (data : list pydict) : frame :=
  let cols := all_keys data in
  {| columns := cols;
     rows :=
       map (fun d => map (fun c => store (map (get c) data) (get c d)) cols)
         data |}.

(** [df.rename(columns=mapping)]. *)
Definition rename_label (mapping : list (string * string)) (c : string) : string :=
  match find (fun p => String.eqb c (fst p)) mapping with
  | Some p => snd p
  | None => c
  end.

Definition rename (mapping : list (string * string)) (df : frame) : frame :=
  {| columns := map (rename_label mapping) (columns df); rows := rows df |}.

(** Positions of the columns labelled [c]. *)
Fixpoint positions_from (i : nat) (c : string) (cols : list string) : list nat :=
  match cols with
  | [] => []
  | c' :: cols' =>
      if String.eqb c c' then i :: positions_from (S i) c cols'
      else positions_from (S i) c cols'
  end.

Definition positions (c : string) (cols : list string) : list nat :=
  positions_from 0 c cols.

(** [df[labels]]: every column carrying one of the labels, label by label. *)
Definition select (labels : list string) (df : frame) : frame :=
  let ps := flat_map (fun c => positions c (columns df)) labels in
  {| columns := map (fun p => nth p (columns df) "") ps;
     rows := map (fun r => map (fun p => nth p r None) ps) (rows df) |}.

(** ** The list flattener *)

Definition rename_map : list (string * string) :=
  [ ("Book", "book"); ("book_name", "book"); ("bookName", "book");
    ("Chapter", "chapter"); ("chapterNumber", "chapter");
    ("Verse", "verse"); ("verseNumber", "verse");
    ("Text", "text"); ("verseText", "text"); ("content", "text") ].

(** The set [required]; its elements are listed in this order wherever the
    model needs one (Python prints the set [missing] in hash order). *)
Definition required : list string := ["book"; "chapter"; "verse"; "text"].

(** The argument is declared [list[dict]]; the model stops at a list that
    holds anything else. *)
Fixpoint list_of_dicts (data : list json) : result (list pydict) :=
  match data with
  | [] => Ok []
  | JDict d :: rest => ds <- list_of_dicts rest ;; Ok (d :: ds)
  | _ :: _ => Raise (OutsideModel NotListOfDicts)
  end.

Definition flatten_from_list (data : list json) : result frame :=
  ds <- list_of_dicts data ;;
  let df := DataFrame ds in
  let df := rename (filter (fun p => mem (fst p) (columns df)) rename_map) df in
  let missing := filter (fun c => negb (mem c (columns df))) required in
  match missing with
  | _ :: _ => Raise (MissingRequiredFields missing (columns df))
  | [] => Ok (select ["book"; "chapter"; "verse"; "text"] df)
  end.

(** ** The nested flattener, the normaliser and [main] *)

Record world : Type := {
  input_json : option json;   (* INPUT_JSON parsed, [None] if the file is absent *)
  output_csv : option frame   (* the table in OUTPUT_CSV, [None] if not written *)
}.

(** The key [sort_values(["book", "chapter", "verse"])] orders a row by. *)
Record sort_key : Type := {
  k_book : option string;
  k_chapter : option Z;
  k_verse : option Z
}.

(** Ascending, missing values last (na_position="last"). *)
Definition compare_na_last {A : Type} (cmp : A -> A -> comparison)
    (x y : option A) : comparison :=
  match x, y with
  | Some a, Some b => cmp a b
  | Some _, None => Lt
  | None, Some _ => Gt
  | None, None => Eq
  end.

Definition then_compare (c : comparison) (rest : comparison) : comparison :=
  match c with
  | Eq => rest
  | _ => c
  end.

Definition key_compare (a b : sort_key) : comparison :=
  then_compare (compare_na_last String.compare (k_book a) (k_book b))
    (then_compare (compare_na_last Z.compare (k_chapter a) (k_chapter b))
       (compare_na_last Z.compare (k_verse a) (k_verse b))).

Definition key_leb (a b : sort_key) : bool :=
  match key_compare a b with
  | Gt => false
  | _ => true
  end.

Section StableSort.
Variable A : Type.

(** A stable sort of keyed rows: a row goes before the first row whose key
    is not smaller. *)
Fixpoint insert_sorted (x : sort_key * A) (l : list (sort_key * A))
    : list (sort_key * A) :=
  match l with
  | [] => [x]
  | y :: l' =>
      if key_leb (fst x) (fst y) then x :: y :: l'
      else y :: insert_sorted x l'
  end.

Fixpoint stable_sort (l : list (sort_key * A)) : list (sort_key * A) :=
  match l with
  | [] => []
  | x :: l' => insert_sorted x (stable_sort l')
  end.
End StableSort.

Fixpoint map_result {A B : Type} (f : A -> result B) (l : list A)
    : result (list B) :=
  match l with
  | [] => Ok []
  | a :: l' => b <- f a ;; bs <- map_result f l' ;; Ok (b :: bs)
  end.

Fixpoint set_nth {A : Type} (p : nat) (x : A) (l : list A) : list A :=
  match l, p with
  | [], _ => []
  | _ :: l', O => x :: l'
  | a :: l', S p' => a :: set_nth p' x l'
  end.

(** The one position of the column labelled [col]; [df[col]] is a frame when
    the label repeats. *)
Definition the_column (col : string) (df : frame) : result nat :=
  match positions col (columns df) with
  | [p] => Ok p
  | [] => Raise (PandasError (MissingLabel col))
  | _ :: _ :: _ => Raise (PandasError (DuplicateLabel col))
  end.

Definition book_key (c : cell) : result (option string) :=
  match c with
  | None => Ok None
  | Some JNull => Ok None
  | Some (JStr s) => Ok (Some s)
  | Some _ => Raise (OutsideModel BookNotText)
  end.

(** ** The conversion of a column

    [to_numeric] gives an int64 column when every cell reads as an integer,
    and a float64 column otherwise, in which an integer is rounded to
    binary64 and a cell that is not a number is NaN.  [astype("Int64")] keeps
    an int64 column as it is; it turns the NaN of a float64 column into <NA>
    and refuses the column unless every other value is a whole number within
    int64. *)
Definition is_int (c : coerced) : bool :=
  match c with
  | CInt _ => true
  | _ => false
  end.

Definition is_outside (c : coerced) : bool :=
  match c with
  | COutside => true
  | _ => false
  end.

Definition int_value (c : coerced) : option Z :=
  match c with
  | CInt z => Some z
  | _ => None
  end.

Definition to_float64 (c : coerced) : spec_float :=
  match c with
  | CInt z => round_f64 z
  | CFloat f => f
  | CNA | COutside => S754_nan
  end.

Definition Int64_of_float (col : string) (f : spec_float)
    : result (option Z) :=
  match f with
  | S754_nan => Ok None
  | _ =>
      match float_to_Z f with
      | Some z =>
          if in_int64 z then Ok (Some z)
          else Raise (PandasError (UnsafeCast col))
      | None => Raise (PandasError (UnsafeCast col))
      end
  end.

Definition to_Int64 (col : string) (readings : list coerced)
    : result (list (option Z)) :=
  if existsb is_outside readings then Raise (OutsideModel NumeralNotRead)
  else if forallb is_int readings then Ok (map int_value readings)
  else map_result (fun c => Int64_of_float col (to_float64 c)) readings.

(** An Int64 value as a cell: <NA> is the missing marker. *)
Definition Int64_cell (v : option Z) : cell :=
  match v with
  | Some z => Some (JInt z)
  | None => None
  end.

(** [df[col] = values] for the column at position [p]. *)
Definition assign (p : nat) (vals : list (option Z)) (rs : list (list cell))
    : list (list cell) :=
  map (fun rv => set_nth p (Int64_cell (snd rv)) (fst rv)) (combine rs vals).

(** The value of an Int64 cell. *)
Definition int_key (c : cell) : option Z :=
  match c with
  | Some (JInt z) => Some z
  | _ => None
  end.

Definition verse_record (book : string) (c v : Z) (t : string) : pydict :=
  [("book", JStr book); ("chapter", JInt c); ("verse", JInt v); ("text", JStr t)].

Definition is_empty {A : Type} (l : list A) : bool :=
  match l with
  | [] => true
  | _ :: _ => false
  end.

(** The rows with their position, counted from 0, as a new first cell. *)
Definition with_ids (body : list (list cell)) : list (list cell) :=
  map (fun ir => Some (JInt (Z.of_nat (fst ir))) :: snd ir)
    (combine (seq 0 (List.length body)) body).

Section Program.
Context {rt : Runtime}.

Definition int_label (s : string) : result Z :=
  match py_int s with
  | Some z => Ok z
  | None => Raise (CoercionFailure s)
  end.

(** The three loops of [flatten_from_nested], innermost first; [records]
    is the list the loops append to. *)
Fixpoint for_verses (book chapter : string) (verses : pydict)
    (records : list pydict) : result (list pydict) :=
  match verses with
  | [] => Ok records
  | (verse, text) :: rest =>
      c <- int_label chapter ;;
      v <- int_label verse ;;
      for_verses book chapter rest
        (records ++ [verse_record book c v (py_str text)])
  end.

Fixpoint for_chapters (book : string) (chapters : pydict)
    (records : list pydict) : result (list pydict) :=
  match chapters with
  | [] => Ok records
  | (chapter, JDict verses) :: rest =>
      records <- for_verses book chapter verses records ;;
      for_chapters book rest records
  | (_, _) :: rest => for_chapters book rest records
  end.

Fixpoint for_books (data : pydict) (records : list pydict)
    : result (list pydict) :=
  match data with
  | [] => Ok records
  | (book, JDict chapters) :: rest =>
      records <- for_chapters book chapters records ;;
      for_books rest records
  | (_, _) :: rest => for_books rest records
  end.

Definition flatten_from_nested (data : pydict) : result frame :=
  records <- for_books data [] ;;
  if is_empty records then Raise EmptyFlattenResult
  else Ok (DataFrame records).

(** Lines 103-110 of [main]: the shape of the root picks the flattener. *)
Definition detect_and_flatten (data : json) : result frame :=
  match data with
  | JList l => flatten_from_list l
  | JDict d => flatten_from_nested d
  | _ => Raise (UnsupportedShape (type_name data))
  end.

(** [df[col] = pd.to_numeric(df[col], errors="coerce").astype("Int64")]:
    every cell of the column is read, the column is cast as a whole, and the
    result replaces the column. *)
Definition coerce_column (col : string) (df : frame) : result frame :=
  p <- the_column col df ;;
  vals <- to_Int64 col
            (map (fun r => to_numeric_Int64 (nth p r None)) (rows df)) ;;
  Ok {| columns := columns df; rows := assign p vals (rows df) |}.

(** [df.sort_values(["book", "chapter", "verse"]).reset_index(drop=True)];
    chapter and verse hold Int64 values by then. *)
Definition keyed (pb pc pv : nat) (r : list cell)
    : result (sort_key * list cell) :=
  b <- book_key (nth pb r None) ;;
  Ok ({| k_book := b;
         k_chapter := int_key (nth pc r None);
         k_verse := int_key (nth pv r None) |}, r).

Definition sort_values (df : frame) : result frame :=
  pb <- the_column "book" df ;;
  pc <- the_column "chapter" df ;;
  pv <- the_column "verse" df ;;
  krs <- map_result (keyed pb pc pv) (rows df) ;;
  Ok {| columns := columns df; rows := map snd (stable_sort krs) |}.

(** [df.insert(0, "id", range(len(df)))] *)
Definition insert_id (df : frame) : result frame :=
  if mem "id" (columns df) then Raise (PandasError (DuplicateLabel "id"))
  else
    Ok {| columns := "id" :: columns df; rows := with_ids (rows df) |}.

(** Lines 113-119 of [main]. *)
Definition normalize (df : frame) : result frame :=
  df <- coerce_column "chapter" df ;;
  df <- coerce_column "verse" df ;;
  df <- sort_values df ;;
  insert_id df.

(** [main]: the table is written only when nothing was raised before
    [to_csv]. *)
Definition main (w : world) : result unit * world :=
  match input_json w with
  | None => (Raise InputNotFound, w)
  | Some data =>
      match df <- detect_and_flatten data ;; normalize df with
      | Ok df =>
          (Ok tt, {| input_json := input_json w; output_csv := Some df |})
      | Raise e => (Raise e, w)
      end
  end.
End Program.

(** ** A reference runtime

    CPython's [int] and [str] and pandas' reading of a cell, on the values of
    the model.  pandas reads numeric text with a parser of its own, which
    multiplies or divides the digits by a power of ten in binary64; that is
    one correctly rounded operation when the text has at most 15 digits and
    the power is at most 10^22, and the reference reading stops
    ([COutside]) at any longer numeral. *)

Definition code (c : ascii) : N := N_of_ascii c.

Definition is_digit (c : ascii) : bool :=
  ((48 <=? code c) && (code c <=? 57))%N.

Definition digit_value (c : ascii) : Z := Z.of_N (code c) - 48.

(** C's isspace: tab, line feed, vertical tab, form feed, return, space. *)
Definition c_space (c : ascii) : bool :=
  (((9 <=? code c) && (code c <=? 13)) || (code c =? 32))%N.

(** What [int] skips around the digits: C's blanks, and the blanks beyond
    ASCII (next line and no-break space, below 256). *)
Definition int_space (c : ascii) : bool :=
  (c_space c || (code c =? 133) || (code c =? 160))%N.

Fixpoint skip (p : ascii -> bool) (s : list ascii) : list ascii :=
  match s with
  | c :: s' => if p c then skip p s' else s
  | [] => []
  end.

(** An optional sign: whether it is a minus, and what follows it. *)
Definition sign (s : list ascii) : bool * list ascii :=
  match s with
  | "+"%char :: r => (false, r)
  | "-"%char :: r => (true, r)
  | _ => (false, s)
  end.

Definition signed (neg : bool) (z : Z) : Z := if neg then - z else z.

(** Digits with single underscores between them: the value, the number of
    digits and the rest, or [None] at a doubled or trailing underscore. *)
Fixpoint scan_int (s : list ascii) (after_underscore : bool) (acc : Z)
    (digits : nat) : option (Z * nat * list ascii) :=
  match s with
  | c :: r =>
      if Ascii.eqb c "_" then
        if after_underscore then None else scan_int r true acc digits
      else if is_digit c then
        scan_int r false (10 * acc + digit_value c) (S digits)
      else if after_underscore then None
      else Some (acc, digits, s)
  | [] => if after_underscore then None else Some (acc, digits, [])
  end.

(** [sys.get_int_max_str_digits()] *)
Definition max_str_digits : nat := 4300.

(** [int(s)] for text, base 10. *)
Definition cpython_int (s : string) : option Z :=
  let (neg, l) := sign (skip int_space (list_ascii_of_string s)) in
  match l with
  | "_"%char :: _ => None
  | _ =>
      match scan_int l false 0 0 with
      | None => None
      | Some (z, n, rest) =>
          if ((n =? 0) || (max_str_digits <? n))%nat then None
          else
            match skip int_space rest with
            | [] => Some (signed neg z)
            | _ :: _ => None
            end
      end
  end.

Definition hex_digit (n : N) : ascii :=
  if (n <? 10)%N then ascii_of_N (48 + n) else ascii_of_N (87 + n).

(** The code points below 256 that [repr] writes as they are. *)
Definition printable (c : ascii) : bool :=
  ((32 <=? code c) && (code c <? 127) || (161 <=? code c) && negb (code c =? 173))%N.

Definition escape (quote : ascii) (c : ascii) : string :=
  if Ascii.eqb c quote || Ascii.eqb c "\" then String "\" (String c "")
  else if (code c =? 9)%N then "\t"
  else if (code c =? 10)%N then "\n"
  else if (code c =? 13)%N then "\r"
  else if printable c then String c ""
  else String "\" (String "x" (String (hex_digit (code c / 16))
                                (String (hex_digit (code c mod 16)) ""))).

Definition double_quote : ascii := ascii_of_N 34.

(** [repr(s)] for text: double quotes only when the text has a single quote
    and no double quote. *)
Definition str_repr (s : string) : string :=
  let l := list_ascii_of_string s in
  let quote :=
    if existsb (Ascii.eqb "'") l && negb (existsb (Ascii.eqb double_quote) l)
    then double_quote else "'"%char in
  String quote (String.concat "" (map (escape quote) l) ++ String quote "")%string.

Definition int_repr (z : Z) : string :=
  DecimalString.NilZero.string_of_int (Z.to_int z).

(** The binary64 nearest to [c * 10^x]. *)
Definition decimal_to_f64 (c : positive) (x : Z) : spec_float :=
  if 0 <=? x then binary_normalize 53 1024 (Zpos c * 10 ^ x) 0 false
  else
    let '(q, e, l) := SFdiv_core_binary 53 1024 (Zpos c) 0 (10 ^ (- x)) 0 in
    binary_round_aux 53 1024 false q e l.

(** Number of decimal digits of a positive number. *)
Fixpoint digits10 (fuel : nat) (z : Z) : Z :=
  match fuel with
  | O => 0
  | S fuel' => if z <? 10 then 1 else 1 + digits10 fuel' (z / 10)
  end.

(** The [k] with [10^(k-1) <= m * 2^e < 10^k]. *)
Definition decimal_point (m : positive) (e : Z) : Z :=
  if 0 <=? e then digits10 400 (Zpos m * 2 ^ e)
  else
    let d := 2 ^ (- e) in
    let q := Zpos m / d in
    if 0 <? q then digits10 400 q
    else
      (fix find (fuel : nat) (k : Z) (num : Z) : Z :=
         match fuel with
         | O => k
         | S fuel' =>
             if d <=? num * 10 then k else find fuel' (k - 1) (num * 10)
         end) 400%nat 0 (Zpos m).

(** The two numbers of [n] digits next to [m * 2^e], the nearer first. *)
Definition candidates (m : positive) (e : Z) (k : Z) (n : Z) : list Z :=
  let x := n - k in
  let num :=
    Zpos m * (if 0 <=? e then 2 ^ e else 1) * (if 0 <=? x then 10 ^ x else 1) in
  let den :=
    (if 0 <=? e then 1 else 2 ^ (- e)) * (if 0 <=? x then 1 else 10 ^ (- x)) in
  let lo := num / den in
  let r := num mod den in
  if 2 * r <? den then [lo; lo + 1]
  else if den <? 2 * r then [lo + 1; lo]
  else if Z.even lo then [lo; lo + 1] else [lo + 1; lo].

Definition same_float (f : spec_float) (m : positive) (e : Z) : bool :=
  match f with
  | S754_finite _ m' e' => Pos.eqb m m' && (e =? e')
  | _ => false
  end.

(** The shortest digits that read back as [m * 2^e], and the position of the
    decimal point: the value is [0.digits * 10^point]. *)
Definition shortest (m : positive) (e : Z) : Z * Z :=
  let k := decimal_point m e in
  (fix go (fuel : nat) (n : Z) : Z * Z :=
     match fuel with
     | O => (Zpos m, 0)
     | S fuel' =>
         match
           find (fun c => match c with
                          | Zpos p => same_float (decimal_to_f64 p (k - n)) m e
                          | _ => false
                          end) (candidates m e k n)
         with
         | Some c => if c =? 10 ^ n then (1, k + 1) else (c, k)
         | None => go fuel' (n + 1)
         end
     end) 17%nat 1.

Fixpoint strip_zeros (fuel : nat) (c : Z) : Z :=
  match fuel with
  | O => c
  | S fuel' =>
      if (c mod 10 =? 0) && negb (c =? 0) then strip_zeros fuel' (c / 10)
      else c
  end.

Definition zeros (n : Z) : string :=
  string_of_list_ascii (repeat "0"%char (Z.to_nat n)).

(** Digits laid out as [repr] does: with an exponent when the decimal point
    is more than 16 places to the right or more than 3 to the left. *)
Definition float_digits (digits : string) (point : Z) : string :=
  let n := Z.of_nat (String.length digits) in
  if (point <=? -4) || (16 <? point) then
    let ex := point - 1 in
    let mant :=
      match digits with
      | String d EmptyString => String d ""
      | String d rest => String d ("." ++ rest)
      | EmptyString => ""
      end in
    let exs := int_repr (Z.abs ex) in
    let sgn := if ex <? 0 then "-" else "+" in
    let pad := if Z.abs ex <? 10 then "0" else "" in
    (mant ++ "e" ++ sgn ++ pad ++ exs)%string
  else if point <=? 0 then ("0." ++ zeros (- point) ++ digits)%string
  else if n <=? point then (digits ++ zeros (point - n) ++ ".0")%string
  else (substring 0 (Z.to_nat point) digits ++ "."
          ++ substring (Z.to_nat point) (Z.to_nat (n - point)) digits)%string.

(** [repr(f)] for a float. *)
Definition float_repr (f : spec_float) : string :=
  match f with
  | S754_nan => "nan"
  | S754_infinity s => if s then "-inf" else "inf"
  | S754_zero s => if s then "-0.0" else "0.0"
  | S754_finite s m e =>
      let (c, point) := shortest m e in
      let sgn := if s then "-" else "" in
      (sgn ++ float_digits (int_repr (strip_zeros 20 c)) point)%string
  end.

Fixpoint repr (v : json) : string :=
  match v with
  | JNull => "None"
  | JBool true => "True"
  | JBool false => "False"
  | JInt z => int_repr z
  | JFloat f => float_repr f
  | JStr s => str_repr s
  | JList l => ("[" ++ String.concat ", " (map repr l) ++ "]")%string
  | JDict d =>
      ("{" ++ String.concat ", "
                ((fix items (d : list (string * json)) : list string :=
                    match d with
                    | [] => []
                    | (k, x) :: d' =>
                        (str_repr k ++ ": " ++ repr x)%string :: items d'
                    end) d) ++ "}")%string
  end.

(** [str(v)]: text as it is, anything else as [repr] writes it. *)
Definition cpython_str (v : json) : string :=
  match v with
  | JStr s => s
  | _ => repr v
  end.

Fixpoint scan_digits (s : list ascii) (acc : Z) (n : nat)
    : Z * nat * list ascii :=
  match s with
  | c :: r =>
      if is_digit c then scan_digits r (10 * acc + digit_value c) (S n)
      else (acc, n, s)
  | [] => (acc, n, [])
  end.

Definition lower (c : ascii) : ascii :=
  if ((65 <=? code c) && (code c <=? 90))%N then ascii_of_N (code c + 32) else c.

(** The words pandas reads as an infinity, with the sign. *)
Definition inf_word (s : string) : option bool :=
  let w := string_of_list_ascii (map lower (list_ascii_of_string s)) in
  if existsb (String.eqb w) ["inf"; "+inf"; "infinity"; "+infinity"]
  then Some false
  else if existsb (String.eqb w) ["-inf"; "-infinity"] then Some true
  else None.

(** [m * 10^e] in binary64 as pandas computes it: the digits, exact in
    binary64, times or divided by the power of ten, exact too. *)
Definition scale10 (neg : bool) (m e : Z) : spec_float :=
  let x := binary_normalize 53 1024 (signed neg m) 0 neg in
  if 0 <=? e then SFmul 53 1024 x (round_f64 (10 ^ e))
  else SFdiv 53 1024 x (round_f64 (10 ^ (- e))).

(** Text read as a number: blanks, a sign, digits with an optional point,
    an optional exponent, blanks.  Digits alone are an integer, a numeral
    with a point or an exponent is a float; anything else is not a number,
    except the infinity words. *)
Definition text_to_numeric (s : string) : coerced :=
  let not_a_number :=
    match inf_word s with
    | Some neg => CFloat (S754_infinity neg)
    | None => CNA
    end in
  let (neg, l1) := sign (skip c_space (list_ascii_of_string s)) in
  let '(ip, n1, l2) := scan_digits l1 0 0 in
  let '(point, (fp, n2, l3)) :=
    match l2 with
    | "."%char :: r => (true, scan_digits r 0 0)
    | _ => (false, (0, 0%nat, l2))
    end in
  if (n1 + n2 =? 0)%nat then not_a_number
  else
    match
      match l3 with
      | c :: r =>
          if Ascii.eqb (lower c) "e" then
            let (eneg, r1) := sign r in
            let '(ev, n3, r2) := scan_digits r1 0 0 in
            if (n3 =? 0)%nat then None else Some (true, signed eneg ev, r2)
          else Some (false, 0, l3)
      | [] => Some (false, 0, [])
      end
    with
    | None => COutside
    | Some (expo, e, l4) =>
        match skip c_space l4 with
        | _ :: _ => not_a_number
        | [] =>
            let m := ip * 10 ^ Z.of_nat n2 + fp in
            let e := e - Z.of_nat n2 in
            if (15 <? n1 + n2)%nat then COutside
            else if negb point && negb expo then CInt (signed neg m)
            else if Z.abs e <=? 22 then CFloat (scale10 neg m e)
            else COutside
        end
    end.

(** How [to_numeric] reads a cell: a Python int beyond int64 is read as a
    float, a list or a dict is not a number. *)
Definition cpython_to_numeric_Int64 (c : cell) : coerced :=
  match c with
  | None => CNA
  | Some JNull => CNA
  | Some (JBool b) => CInt (if b then 1 else 0)
  | Some (JInt z) => if in_int64 z then CInt z else CFloat (round_f64 z)
  | Some (JFloat f) => if is_nan f then CNA else CFloat f
  | Some (JStr s) => text_to_numeric s
  | Some (JList _) => CNA
  | Some (JDict _) => CNA
  end.

#[global] Instance cpython : Runtime := {|
  py_int := cpython_int;
  py_str := cpython_str;
  to_numeric_Int64 := cpython_to_numeric_Int64
|}.


(** ** Notions of the specification *)

(** A (book, chapter label, verse label, text) quadruple of a nested input. *)
Record leaf : Type := {
  l_book : string;
  l_chapter : string;
  l_verse : string;
  l_text : json
}.

Definition is_dict (v : json) : bool :=
  match v with
  | JDict _ => true
  | _ => false
  end.

(** The quadruples reached through a dict-valued chapter entry of a book. *)
Definition chapter_leaves (book : string) (chapters : pydict) : list leaf :=
  flat_map
    (fun cv =>
       match snd cv with
       | JDict verses =>
           map (fun vt => {| l_book := book; l_chapter := fst cv;
                             l_verse := fst vt; l_text := snd vt |}) verses
       | _ => []
       end) chapters.

(** The quadruples reached through a dict-valued book entry and a dict-valued
    chapter entry, in the order of the input. *)
Definition leaves (data : pydict) : list leaf :=
  flat_map
    (fun bc =>
       match snd bc with
       | JDict chapters => chapter_leaves (fst bc) chapters
       | _ => []
       end) data.

(** The input without its book entries and chapter entries whose value is
    not a dict. *)
Definition prune_book (v : json) : json :=
  match v with
  | JDict chapters => JDict (filter (fun cv => is_dict (snd cv)) chapters)
  | _ => v
  end.

Definition prune (data : pydict) : pydict :=
  map (fun bc => (fst bc, prune_book (snd bc)))
    (filter (fun bc => is_dict (snd bc)) data).

(** The row of a verse table: book, chapter, verse, text. *)
Definition verse_row (book : string) (c v : Z) (t : string) : list cell :=
  [Some (JStr book); Some (JInt c); Some (JInt v); Some (JStr t)].

(** The cells of a record under the four required labels. *)
Definition record_row (d : pydict) : list cell :=
  map (fun c => get c d) required.

(** A record as the nested flattener appends them. *)
Definition is_verse_record (d : pydict) : Prop :=
  exists book c v t, d = verse_record book c v t.

Section LeafRecords.
Context {rt : Runtime}.

(** The record one quadruple gives: both labels through [int], the text
    through [str]. *)
Definition leaf_record (l : leaf) : result pydict :=
  c <- int_label (l_chapter l) ;;
  v <- int_label (l_verse l) ;;
  Ok (verse_record (l_book l) c v (py_str (l_text l))).

Definition leaf_row (l : leaf) : option (list cell) :=
  match py_int (l_chapter l), py_int (l_verse l) with
  | Some c, Some v => Some (verse_row (l_book l) c v (py_str (l_text l)))
  | _, _ => None
  end.

Definition labels_parse (l : leaf) : Prop :=
  py_int (l_chapter l) <> None /\ py_int (l_verse l) <> None.

End LeafRecords.

(** The nested example of the specification. *)
Definition genesis_example : pydict :=
  [("Genesis", JDict [("1", JDict [("1", JStr "a"); ("2", JStr "b")])])].

(** Alias resolution of one field name, by the whole table. *)
Definition canonical (k : string) : string := rename_label rename_map k.

(** A record with its field names replaced through [sigma]. *)
Definition rename_keys (sigma : string -> string) (d : pydict) : pydict :=
  map (fun kv => (sigma (fst kv), snd kv)) d.

(** [sigma] sends no two names of [l] to the same name. *)
Definition injective_on (sigma : string -> string) (l : list string) : Prop :=
  forall k k', In k l -> In k' l -> sigma k = sigma k' -> k = k'.

(** A list-shaped root: the records as the elements of a JSON list. *)
Definition list_shaped (ds : list pydict) : list json := map JDict ds.

(** The field names a list-shaped input is seen with after alias
    resolution, and the required ones not among them. *)
Definition resolved_fields (ds : list pydict) : list string :=
  map canonical (all_keys ds).

Definition missing_fields (ds : list pydict) : list string :=
  filter (fun c => negb (mem c (resolved_fields ds))) required.

(** One record under the canonical names, and the same under aliases. *)
Definition john_3_16 : pydict :=
  [("book", JStr "John"); ("chapter", JInt 3); ("verse", JInt 16);
   ("text", JStr "For God so loved")].

Definition to_alias (k : string) : string :=
  if String.eqb k "book" then "bookName"
  else if String.eqb k "chapter" then "Chapter"
  else if String.eqb k "verse" then "verseNumber"
  else if String.eqb k "text" then "content"
  else k.

(** *** The order of the table *)

(** A three-way comparison that is a strict total order. *)
Class OrderedCompare {A : Type} (cmp : A -> A -> comparison) : Prop := {
  cmp_refl : forall x, cmp x x = Eq;
  cmp_eq : forall x y, cmp x y = Eq -> x = y;
  cmp_antisym : forall x y, cmp y x = CompOpp (cmp x y);
  cmp_trans : forall x y z, cmp x y = Lt -> cmp y z = Lt -> cmp x z = Lt
}.

Definition lexcmp {A B : Type} (ca : A -> A -> comparison)
    (cb : B -> B -> comparison) (p q : A * B) : comparison :=
  then_compare (ca (fst p) (fst q)) (cb (snd p) (snd q)).

Definition key_tuple (k : sort_key) : option string * (option Z * option Z) :=
  (k_book k, (k_chapter k, k_verse k)).

(** Smaller, a missing value being larger than every real one. *)
Definition na_last_lt {A : Type} (lt : A -> A -> Prop) (x y : option A) : Prop :=
  match x, y with
  | Some a, Some b => lt a b
  | Some _, None => True
  | None, _ => False
  end.

(** Text order: code point by code point. *)
Definition text_lt (s t : string) : Prop := String.compare s t = Lt.

(** The order of the specification: book ascending as text, then chapter
    ascending, then verse ascending as numbers, missing values last. *)
Definition verse_order (a b : sort_key) : Prop :=
  na_last_lt text_lt (k_book a) (k_book b) \/
  (k_book a = k_book b /\
   (na_last_lt Z.lt (k_chapter a) (k_chapter b) \/
    (k_chapter a = k_chapter b /\
     (na_last_lt Z.lt (k_verse a) (k_verse b) \/ k_verse a = k_verse b)))).

(** Keyed rows in the order of the sort. *)
Definition key_le {A : Type} (x y : sort_key * A) : Prop :=
  key_leb (fst x) (fst y) = true.

(** The text of a book cell. *)
Definition text_key (c : cell) : option string :=
  match c with
  | Some (JStr s) => Some s
  | _ => None
  end.

(** The key of a row whose book, chapter and verse cells are at the given
    positions. *)
Definition row_key (pb pc pv : nat) (r : list cell) : sort_key :=
  {| k_book := text_key (nth pb r None);
     k_chapter := int_key (nth pc r None);
     k_verse := int_key (nth pv r None) |}.

(** Every row has one cell per column. *)
Definition rectangular (df : frame) : Prop :=
  Forall (fun r => List.length r = List.length (columns df)) (rows df).

(** A verse table: the four columns, one row per record. *)
Definition verse_table (rs : list (list cell)) : frame :=
  {| columns := ["book"; "chapter"; "verse"; "text"]; rows := rs |}.

(** *** The converted columns *)

(** A row with the cell at [p] replaced. *)
Definition with_cell (p : nat) (x : cell) (r : list cell) : list cell :=
  firstn p r ++ x :: skipn (S p) r.

(** What the Int64 cast makes of a binary64: the missing marker of NaN, the
    number itself if it is whole and within int64, and nothing ([None]: the
    cast is refused) otherwise. *)
Definition whole_int64 (f : spec_float) : option (option Z) :=
  if is_nan f then Some None
  else
    match float_to_Z f with
    | Some z => if in_int64 z then Some (Some z) else None
    | None => None
    end.

(** The Int64 value of a cell that reads as [c], in a column whose cells all
    read as integers ([exact]) or in any other column, where an integer goes
    through binary64. *)
Definition Int64_value (exact : bool) (c : coerced) : option (option Z) :=
  match c with
  | CNA => Some None
  | CInt z => if exact then Some (Some z) else whole_int64 (round_f64 z)
  | CFloat f => whole_int64 f
  | COutside => None
  end.

Fixpoint all_some {A : Type} (l : list (option A)) : option (list A) :=
  match l with
  | [] => Some []
  | Some a :: l' =>
      match all_some l' with
      | Some as' => Some (a :: as')
      | None => None
      end
  | None :: _ => None
  end.

(** The Int64 column of a column that reads as [readings], if the cast takes
    it. *)
Definition column_Int64 (readings : list coerced) : option (list (option Z)) :=
  all_some (map (Int64_value (forallb is_int readings)) readings).

(** A whole number that binary64 holds as it is. *)
Definition exact_in_binary64 (z : Z) : Prop :=
  float_to_Z (round_f64 z) = Some z.

(** A reading that every column converts: not a number, or an integer of
    magnitude at most 2^53. *)
Definition plain_reading (c : coerced) : Prop :=
  c = CNA \/ exists z, c = CInt z /\ - 2 ^ 53 <= z <= 2 ^ 53.

Section ConvertedRows.
Context {rt : Runtime}.

(** How the cells of the column at [p] read. *)
Definition readings (p : nat) (rs : list (list cell)) : list coerced :=
  map (fun r => to_numeric_Int64 (nth p r None)) rs.

(** Whether every cell of the column at [p] reads as an integer. *)
Definition exact_column (p : nat) (rs : list (list cell)) : bool :=
  forallb is_int (readings p rs).

(** The rows after both conversions of [main], with the chapter column at
    [pc] and the verse column at [pv], if both casts take their column. *)
Definition converted_rows (pc pv : nat) (rs : list (list cell))
    : option (list (list cell)) :=
  match column_Int64 (readings pc rs), column_Int64 (readings pv rs) with
  | Some cs, Some vs =>
      Some (map (fun x =>
                   with_cell pv (Int64_cell (snd (snd x)))
                     (with_cell pc (Int64_cell (fst (snd x))) (fst x)))
              (combine rs (combine cs vs)))
  | _, _ => None
  end.

End ConvertedRows.

(** A book cell the sort is modelled on: text, or nothing. *)
Definition book_is_text (c : cell) : Prop :=
  match c with
  | None => True
  | Some JNull => True
  | Some (JStr _) => True
  | Some _ => False
  end.

Definition is_unsupported_shape (e : exn) : Prop :=
  match e with
  | UnsupportedShape _ => True
  | _ => False
  end.

(** The world after [to_csv]. *)
Definition written (w : world) (out : frame) : world :=
  {| input_json := input_json w; output_csv := Some out |}.

(** What [main] does with the result of a flattener. *)
Definition finish {rt : Runtime} (w : world) (flat : result frame)
    : result unit * world :=
  match df <- flat ;; normalize df with
  | Ok out => (Ok tt, written w out)
  | Raise e => (Raise e, w)
  end.

(** Among the rows of one book, a row without the field comes after every
    row with it. *)
Definition null_last_in_book (field : sort_key -> option Z)
    (keys : list sort_key) : Prop :=
  forall i j a b,
    nth_error keys i = Some a -> nth_error keys j = Some b ->
    k_book a = k_book b -> field a = None -> field b <> None ->
    (j < i)%nat.

(** Among the rows of one chapter of one book, a row without a verse comes
    after every row with one. *)
Definition null_verse_last_in_chapter (keys : list sort_key) : Prop :=
  forall i j a b,
    nth_error keys i = Some a -> nth_error keys j = Some b ->
    k_book a = k_book b -> k_chapter a = k_chapter b ->
    k_verse a = None -> k_verse b <> None ->
    (j < i)%nat.


(** The ids 0 .. n-1 as cells. *)
Definition id_cells (n : nat) : list cell :=
  map (fun i => Some (JInt (Z.of_nat i))) (seq 0 n).

(** A verse record of a list-shaped input. *)
Definition verse_dict (book : string) (chapter verse : json) (text : string)
    : pydict :=
  [("book", JStr book); ("chapter", chapter); ("verse", verse);
   ("text", JStr text)].

(** The sort example of the specification and its table. *)
Definition sort_example : list pydict :=
  [verse_dict "B" (JInt 2) (JInt 1) "x"; verse_dict "A" (JInt 1) (JInt 5) "y";
   verse_dict "A" (JInt 1) (JInt 1) "z"].

Definition sort_example_table : frame :=
  {| columns := ["id"; "book"; "chapter"; "verse"; "text"];
     rows := [Some (JInt 0) :: verse_row "A" 1 1 "z";
              Some (JInt 1) :: verse_row "A" 1 5 "y";
              Some (JInt 2) :: verse_row "B" 2 1 "x"] |}.

(** A record whose verse is not a number, after one of the same book. *)
Definition null_verse_example : list pydict :=
  [verse_dict "A" (JInt 2) (JInt 5) "x";
   verse_dict "A" (JInt 1) (JStr "not-a-number") "y"].

(** A record whose chapter is not a number, before one of the same book. *)
Definition null_chapter_example : list pydict :=
  [verse_dict "A" (JStr "not-a-number") (JInt 1) "x";
   verse_dict "A" (JInt 7) (JInt 2) "y"].


Definition start (data : json) : world :=
  {| input_json := Some data; output_csv := None |}.

Definition null_verse_table : frame :=
  {| columns := ["id"; "book"; "chapter"; "verse"; "text"];
     rows := [[Some (JInt 0); Some (JStr "A"); Some (JInt 1); None;
               Some (JStr "y")];
              [Some (JInt 1); Some (JStr "A"); Some (JInt 2); Some (JInt 5);
               Some (JStr "x")]] |}.

Definition null_chapter_table : frame :=
  {| columns := ["id"; "book"; "chapter"; "verse"; "text"];
     rows := [[Some (JInt 0); Some (JStr "A"); Some (JInt 7); Some (JInt 2);
               Some (JStr "y")];
              [Some (JInt 1); Some (JStr "A"); None; Some (JInt 1);
               Some (JStr "x")]] |}.



(** A nested input with a chapter label that is not a number. *)
Definition bad_label_example : pydict :=
  [("Genesis", JDict [("one", JDict [("1", JStr "a")])])].

(** A nested input with no verse level. *)
Definition no_verses_example : pydict :=
  [("version", JStr "KJV"); ("Genesis", JDict [("1", JStr "In the beginning")])].

(** A record without a verse field. *)
Definition no_verse_field : pydict :=
  [("Book", JStr "John"); ("Chapter", JInt 3); ("Text", JStr "For God so loved")].

(** Two chapters written as text: as text 10 comes before 9, as numbers
    after it. *)
Definition numeric_order_example : list pydict :=
  [verse_dict "A" (JStr "10") (JInt 1) "x"; verse_dict "A" (JStr "9") (JInt 1) "y"].

Definition numeric_order_table : frame :=
  {| columns := ["id"; "book"; "chapter"; "verse"; "text"];
     rows := [Some (JInt 0) :: verse_row "A" 9 1 "y";
              Some (JInt 1) :: verse_row "A" 10 1 "x"] |}.

(** The float 1.5. *)
Definition one_and_a_half : spec_float :=
  S754_finite false 6755399441055744 (-52).

(** A nested input whose texts are not all text. *)
Definition typed_text_example : pydict :=
  [("Genesis",
    JDict [("1", JDict [("1", JInt 7); ("2", JFloat one_and_a_half);
                        ("3", JNull); ("4", JStr "d")])])].

Definition typed_text_table : frame :=
  verse_table [verse_row "Genesis" 1 1 "7"; verse_row "Genesis" 1 2 "1.5";
               verse_row "Genesis" 1 3 "None"; verse_row "Genesis" 1 4 "d"].

(** The largest int64 as a chapter, alone and beside a chapter that is not a
    number. *)
Definition largest_chapter_example : list pydict :=
  [verse_dict "A" (JInt (2 ^ 63 - 1)) (JInt 1) "a"].

Definition refused_chapter_example : list pydict :=
  [verse_dict "A" (JInt (2 ^ 63 - 1)) (JInt 1) "a";
   verse_dict "A" (JStr "not-a-number") (JInt 1) "b"].





(** *** Further notions *)

(** The field names of the input that resolve to the canonical name [c], in
    column order. *)
Definition fields_for (c : string) (ds : list pydict) : list string :=
  filter (fun k => String.eqb c (canonical k)) (all_keys ds).

(** A field whose name resolves to one of the four required names. *)
Definition recognised (kv : string * json) : bool :=
  mem (canonical (fst kv)) required.

(** The cell of record [d] in the column of field [k]. *)
Definition stored (k : string) (ds : list pydict) (d : pydict) : cell :=
  store (map (get k) ds) (get k d).

(** The table of a list-shaped input: for each required name, in order, the
    columns of the fields that resolve to it. *)
Definition canonical_table (ds : list pydict) : frame :=
  {| columns := flat_map (fun c => map canonical (fields_for c ds)) required;
     rows := map (fun d =>
                    flat_map (fun c => map (fun k => stored k ds d)
                                         (fields_for c ds))
                      required) ds |}.

Definition key_eqb (a b : sort_key) : bool :=
  match key_compare a b with
  | Eq => true
  | _ => false
  end.

(** Rows with the key [sort_values] orders them by. *)
Definition keyed_rows (pb pc pv : nat) (rs : list (list cell))
    : list (sort_key * list cell) :=
  map (fun r => (row_key pb pc pv r, r)) rs.

(** The first label of a quadruple that [int] refuses, chapter before
    verse. *)
Definition bad_label {rt : Runtime} (l : leaf) (label : string) : Prop :=
  (py_int (l_chapter l) = None /\ label = l_chapter l) \/
  (py_int (l_chapter l) <> None /\ py_int (l_verse l) = None /\
   label = l_verse l).

(** A record whose chapter comes under two aliases. *)
Definition two_chapters_example : list pydict :=
  [[("book", JStr "A"); ("Chapter", JInt 1); ("chapterNumber", JInt 2);
    ("verse", JInt 1); ("text", JStr "x")]].

(** A record with a field that is no alias. *)
Definition annotated_example : list pydict :=
  [[("book", JStr "A"); ("note", JStr "n"); ("chapter", JInt 1);
    ("verse", JInt 1); ("text", JStr "x")]].

(** A record whose chapter is a fraction written as text. *)
Definition fractional_chapter_example : list pydict :=
  [verse_dict "A" (JStr "1.5") (JInt 1) "x"].

(** Two records with the same book, chapter and verse, after a later one. *)
Definition repeated_verse_example : list (list cell) :=
  [verse_row "B" 1 1 "last"; verse_row "A" 1 1 "first";
   verse_row "A" 1 1 "second"].

Definition repeated_verse_table : frame :=
  {| columns := ["id"; "book"; "chapter"; "verse"; "text"];
     rows := [Some (JInt 0) :: verse_row "A" 1 1 "first";
              Some (JInt 1) :: verse_row "A" 1 1 "second";
              Some (JInt 2) :: verse_row "B" 1 1 "last"] |}.

(** The rows of the sort example, already in order. *)
Definition sorted_rows_example : list (list cell) :=
  [verse_row "A" 1 1 "z"; verse_row "A" 1 5 "y"; verse_row "B" 2 1 "x"].

Definition genesis_table : frame :=
  {| columns := ["id"; "book"; "chapter"; "verse"; "text"];
     rows := [Some (JInt 0) :: verse_row "Genesis" 1 1 "a";
              Some (JInt 1) :: verse_row "Genesis" 1 2 "b"] |}.

(** A second book, and a root entry that is no book. *)
Definition exodus_example : pydict :=
  [("Exodus", JDict [("1", JDict [("1", JStr "c")])])].

Definition two_books_table : frame :=
  {| columns := ["book"; "chapter"; "verse"; "text"];
     rows := [verse_row "Genesis" 1 1 "a"; verse_row "Genesis" 1 2 "b";
              verse_row "Exodus" 1 1 "c"] |}.

(** The integer operations of the float library, as those of [Z]. *)
Ltac zfold :=
  change IntDef.Z.sub with Z.sub in *;
  change IntDef.Z.add with Z.add in *;
  change IntDef.Z.max with Z.max in *;
  change IntDef.Z.leb with Z.leb in *.


(** * Properties *)

(** ** Results *)

Lemma bind_ok_inv (A B : Type) (r : result A) (k : A -> result B) (b : B) :
  (x <- r ;; k x) = Ok b -> exists a, r = Ok a /\ k a = Ok b.
Proof.
  destruct r as [a|e]; simpl; intros E; [exists a; auto | discriminate].
Qed.

Lemma map_result_app (A B : Type) (f : A -> result B) (l1 l2 : list A) :
  map_result f (l1 ++ l2) =
  (a <- map_result f l1 ;; b <- map_result f l2 ;; Ok (a ++ b)).
Proof.
  induction l1 as [|x l1 IH]; simpl.
  - destruct (map_result f l2); reflexivity.
  - destruct (f x) as [y|e]; simpl; [|reflexivity].
    rewrite IH. destruct (map_result f l1) as [ys|e]; simpl; [|reflexivity].
    destruct (map_result f l2); reflexivity.
Qed.

Lemma map_result_ok_inv (A B : Type) (f : A -> result B) (l : list A)
    (bs : list B) :
  map_result f l = Ok bs -> Forall2 (fun a b => f a = Ok b) l bs.
Proof.
  revert bs. induction l as [|x l IH]; simpl; intros bs E.
  - injection E as <-. constructor.
  - destruct (f x) as [y|e] eqn:Ey; simpl in E; [|discriminate].
    destruct (map_result f l) as [ys|e]; simpl in E; [|discriminate].
    injection E as <-. constructor; auto.
Qed.

Lemma map_result_total (A B : Type) (f : A -> result B) (g : A -> B)
    (l : list A) :
  (forall a, In a l -> f a = Ok (g a)) -> map_result f l = Ok (map g l).
Proof.
  induction l as [|x l IH]; simpl; intros H; [reflexivity|].
  rewrite (H x (or_introl eq_refl)). simpl.
  rewrite IH by (intros a Ha; apply H; right; exact Ha). reflexivity.
Qed.

Lemma map_result_raise (A B : Type) (f : A -> result B) (l : list A) (a : A) :
  In a l -> (exists e, f a = Raise e) ->
  exists a' e, In a' l /\ f a' = Raise e /\ map_result f l = Raise e.
Proof.
  induction l as [|x l IH]; simpl; intros Hin Hbad; [contradiction|].
  destruct (f x) as [y|e] eqn:Ex.
  - destruct Hin as [->|Hin].
    + destruct Hbad as [e He]. congruence.
    + destruct (IH Hin Hbad) as (a' & e & Ha' & Hf & Hm).
      exists a', e. simpl. rewrite Hm. auto.
  - exists x, e. simpl. auto.
Qed.

(** ** The nested walk *)

Section NestedWalk.
Context {rt : Runtime}.

Lemma for_verses_leaves (book chapter : string) (verses : pydict)
    (records : list pydict) :
  for_verses book chapter verses records =
  (rs <- map_result leaf_record
           (map (fun vt => {| l_book := book; l_chapter := chapter;
                              l_verse := fst vt; l_text := snd vt |}) verses) ;;
   Ok (records ++ rs)).
Proof.
  revert records. induction verses as [|[verse text] rest IH]; intros records.
  - simpl. rewrite app_nil_r. reflexivity.
  - simpl. unfold leaf_record at 1. simpl.
    destruct (int_label chapter) as [c|e]; simpl; [|reflexivity].
    destruct (int_label verse) as [v|e]; simpl; [|reflexivity].
    rewrite IH.
    destruct (map_result leaf_record _) as [rs|e]; simpl; [|reflexivity].
    rewrite <- app_assoc. reflexivity.
Qed.

Lemma for_chapters_leaves (book : string) (chapters : pydict)
    (records : list pydict) :
  for_chapters book chapters records =
  (rs <- map_result leaf_record (chapter_leaves book chapters) ;;
   Ok (records ++ rs)).
Proof.
  revert records.
  induction chapters as [|[chapter v] rest IH]; intros records.
  - simpl. rewrite app_nil_r. reflexivity.
  - unfold chapter_leaves in *. simpl.
    destruct v; simpl; try apply IH.
    rewrite map_result_app, for_verses_leaves.
    destruct (map_result leaf_record (map _ items)) as [rs|e]; simpl;
      [|reflexivity].
    rewrite IH.
    destruct (map_result leaf_record _) as [rs'|e]; simpl; [|reflexivity].
    rewrite app_assoc. reflexivity.
Qed.

Lemma for_books_leaves (data : pydict) (records : list pydict) :
  for_books data records =
  (rs <- map_result leaf_record (leaves data) ;; Ok (records ++ rs)).
Proof.
  revert records. induction data as [|[book v] rest IH]; intros records.
  - simpl. rewrite app_nil_r. reflexivity.
  - unfold leaves in *. simpl.
    destruct v; simpl; try apply IH.
    rewrite map_result_app, for_chapters_leaves.
    destruct (map_result leaf_record (chapter_leaves book items)) as [rs|e];
      simpl; [|reflexivity].
    rewrite IH.
    destruct (map_result leaf_record _) as [rs'|e]; simpl; [|reflexivity].
    rewrite app_assoc. reflexivity.
Qed.

(** The flattener is the leaves turned into records one by one, in order. *)
Lemma flatten_from_nested_leaves (data : pydict) :
  flatten_from_nested data =
  (records <- map_result leaf_record (leaves data) ;;
   if is_empty records then Raise EmptyFlattenResult
   else Ok (DataFrame records)).
Proof.
  unfold flatten_from_nested. rewrite for_books_leaves.
  destruct (map_result leaf_record (leaves data)); reflexivity.
Qed.

End NestedWalk.

Lemma map_result_raise_inv (A B : Type) (f : A -> result B) (l : list A)
    (e : exn) :
  map_result f l = Raise e -> exists a, In a l /\ f a = Raise e.
Proof.
  induction l as [|x l IH]; simpl; intros E; [discriminate|].
  destruct (f x) as [y|e'] eqn:Ex; simpl in E.
  - destruct (map_result f l) as [ys|e'] eqn:El; simpl in E; [discriminate|].
    injection E as ->. destruct (IH eq_refl) as (a & Ha & Hf).
    exists a. auto.
  - injection E as ->. exists x. auto.
Qed.

Lemma chapter_leaves_prune (book : string) (chapters : pydict) :
  chapter_leaves book (filter (fun cv => is_dict (snd cv)) chapters) =
  chapter_leaves book chapters.
Proof.
  unfold chapter_leaves.
  induction chapters as [|[c v] rest IH]; simpl; [reflexivity|].
  destruct v; simpl; try exact IH. rewrite IH. reflexivity.
Qed.

Lemma leaves_prune (data : pydict) : leaves (prune data) = leaves data.
Proof.
  unfold leaves, prune.
  induction data as [|[b v] rest IH]; simpl; [reflexivity|].
  destruct v; simpl; try exact IH.
  rewrite chapter_leaves_prune, IH. reflexivity.
Qed.

Lemma new_labels_seen (seen l : list string) :
  (forall k, In k l -> mem k seen = true) -> new_labels seen l = [].
Proof.
  induction l as [|k l IH]; simpl; intros H; [reflexivity|].
  rewrite (H k (or_introl eq_refl)). apply IH. intros k' Hk'. apply H. auto.
Qed.

(** ** What a column stores *)

Lemma store_text (col : list cell) (s : string) :
  store col (Some (JStr s)) = Some (JStr s).
Proof. unfold store. destruct (float64_column col); reflexivity. Qed.

Lemma float64_column_ints (col : list cell) :
  existsb not_int col = false -> float64_column col = false.
Proof.
  intros H. unfold float64_column. rewrite H, andb_false_r. reflexivity.
Qed.

Lemma store_int_column (col : list cell) (c : cell) :
  existsb not_int col = false -> store col c = c.
Proof.
  intros H. unfold store. rewrite (float64_column_ints _ H). reflexivity.
Qed.

Lemma existsb_false (A : Type) (f : A -> bool) (l : list A) :
  (forall a, In a l -> f a = false) -> existsb f l = false.
Proof.
  induction l as [|x l IH]; simpl; intros H; [reflexivity|].
  rewrite (H x (or_introl eq_refl)). apply IH. intros a Ha. apply H. auto.
Qed.

Lemma verse_record_columns (rs : list pydict) (c : string) :
  Forall is_verse_record rs -> c = "chapter" \/ c = "verse" ->
  existsb not_int (map (get c) rs) = false.
Proof.
  intros H Hc. apply existsb_false. intros a Ha. apply in_map_iff in Ha.
  destruct Ha as (d & <- & Hd). rewrite Forall_forall in H.
  destruct (H d Hd) as (b & ch & v & t & ->).
  destruct Hc as [-> | ->]; reflexivity.
Qed.

Lemma DataFrame_records (r : pydict) (rs : list pydict) :
  Forall is_verse_record (r :: rs) ->
  DataFrame (r :: rs) =
  {| columns := required; rows := map record_row (r :: rs) |}.
Proof.
  intros H.
  assert (Hkeys : Forall (fun d => map fst d = required) (r :: rs)).
  { eapply Forall_impl; [|exact H].
    intros d (b & c & v & t & ->). reflexivity. }
  inversion Hkeys as [|? ? Hr Hrs]; subst.
  assert (Hk : all_keys (r :: rs) = required).
  { unfold all_keys. simpl. rewrite Hr. simpl.
    rewrite new_labels_seen; [reflexivity|].
    intros k Hk. apply in_flat_map in Hk. destruct Hk as (d & Hd & Hk).
    rewrite Forall_forall in Hrs. rewrite (Hrs d Hd) in Hk.
    simpl in Hk.
    destruct Hk as [<-|[<-|[<-|[<-|[]]]]]; reflexivity. }
  unfold DataFrame. rewrite Hk. f_equal.
  apply map_ext_in. intros d Hd. unfold record_row.
  apply map_ext_in. intros c Hc.
  pose proof H as H'. rewrite Forall_forall in H'.
  destruct (H' d Hd) as (b & ch & v & t & ->).
  simpl in Hc. destruct Hc as [<-|[<-|[<-|[<-|[]]]]].
  - apply store_text.
  - apply store_int_column, verse_record_columns; auto.
  - apply store_int_column, verse_record_columns; auto.
  - apply store_text.
Qed.

Section NestedClaims.
Context {rt : Runtime}.

Lemma leaf_record_ok (l : leaf) (d : pydict) :
  leaf_record l = Ok d ->
  exists c v,
    py_int (l_chapter l) = Some c /\ py_int (l_verse l) = Some v /\
    d = verse_record (l_book l) c v (py_str (l_text l)).
Proof.
  unfold leaf_record, int_label.
  destruct (py_int (l_chapter l)) as [c|]; simpl; [|discriminate].
  destruct (py_int (l_verse l)) as [v|]; simpl; [|discriminate].
  intros E. injection E as <-. exists c, v. auto.
Qed.

Lemma leaf_record_raise (l : leaf) (e : exn) :
  leaf_record l = Raise e ->
  exists label,
    e = CoercionFailure label /\ py_int label = None /\
    (label = l_chapter l \/ label = l_verse l).
Proof.
  unfold leaf_record, int_label.
  destruct (py_int (l_chapter l)) as [c|] eqn:Ec; simpl.
  - destruct (py_int (l_verse l)) as [v|] eqn:Ev; simpl; [discriminate|].
    intros E. injection E as <-. exists (l_verse l). auto.
  - intros E. injection E as <-. exists (l_chapter l). auto.
Qed.

Lemma leaf_record_parse (l : leaf) :
  labels_parse l -> exists d, leaf_record l = Ok d.
Proof.
  unfold labels_parse, leaf_record, int_label. intros [Hc Hv].
  destruct (py_int (l_chapter l)) as [c|]; [|contradiction].
  destruct (py_int (l_verse l)) as [v|]; [|contradiction].
  simpl. eauto.
Qed.

(** A successful result lists the leaves: one row each, in order. *)
Lemma flatten_from_nested_ok (data : pydict) (df : frame) :
  flatten_from_nested data = Ok df ->
  columns df = ["book"; "chapter"; "verse"; "text"] /\
  Forall2
    (fun l r =>
       exists c v,
         py_int (l_chapter l) = Some c /\ py_int (l_verse l) = Some v /\
         r = verse_row (l_book l) c v (py_str (l_text l)))
    (leaves data) (rows df).
Proof.
  rewrite flatten_from_nested_leaves. intros E.
  apply bind_ok_inv in E. destruct E as (rs & Hrs & E).
  apply map_result_ok_inv in Hrs.
  assert (Hkeys : Forall is_verse_record rs).
  { clear E. induction Hrs as [|l d ls ds Hl Hls IH]; constructor; auto.
    apply leaf_record_ok in Hl. destruct Hl as (c & v & _ & _ & ->).
    unfold is_verse_record. eauto. }
  assert (Hrows :
    Forall2
      (fun l r =>
         exists c v,
           py_int (l_chapter l) = Some c /\ py_int (l_verse l) = Some v /\
           r = verse_row (l_book l) c v (py_str (l_text l)))
      (leaves data) (map record_row rs)).
  { clear E Hkeys. induction Hrs as [|l d ls ds Hl Hls IH]; simpl; constructor.
    - apply leaf_record_ok in Hl. destruct Hl as (c & v & Hc & Hv & ->).
      exists c, v. auto.
    - exact IH. }
  destruct rs as [|r rs]; simpl in E; [discriminate|].
  injection E as <-.
  rewrite DataFrame_records by exact Hkeys.
  split; [reflexivity | exact Hrows].
Qed.

Lemma flatten_from_nested_total (data : pydict) :
  leaves data <> [] -> Forall labels_parse (leaves data) ->
  exists df, flatten_from_nested data = Ok df.
Proof.
  intros Hne Hall. rewrite flatten_from_nested_leaves.
  assert (H : exists rs, map_result leaf_record (leaves data) = Ok rs /\
                         List.length rs = List.length (leaves data)).
  { clear Hne. induction Hall as [|l ls Hl Hls (rs & IH & Hlen)]; simpl.
    - exists []. auto.
    - destruct (leaf_record_parse Hl) as (d & Hd). rewrite Hd, IH. simpl.
      exists (d :: rs). simpl. auto. }
  destruct H as (rs & -> & Hlen). simpl.
  destruct rs as [|r rs]; simpl; [|eauto].
  destruct (leaves data); [contradiction|discriminate].
Qed.

Lemma flatten_from_nested_empty (data : pydict) :
  leaves data = [] <-> flatten_from_nested data = Raise EmptyFlattenResult.
Proof.
  rewrite flatten_from_nested_leaves. split.
  - intros ->. reflexivity.
  - destruct (map_result leaf_record (leaves data)) as [rs|e] eqn:E; simpl.
    + destruct rs; simpl; [|discriminate]. intros _.
      apply map_result_ok_inv in E. inversion E. reflexivity.
    + intros He. injection He as ->.
      apply map_result_raise_inv in E. destruct E as (l & _ & Hl).
      apply leaf_record_raise in Hl. destruct Hl as (label & Hl & _).
      discriminate.
Qed.

Lemma flatten_from_nested_bad_label (data : pydict) (l : leaf) :
  In l (leaves data) ->
  py_int (l_chapter l) = None \/ py_int (l_verse l) = None ->
  exists label l',
    flatten_from_nested data = Raise (CoercionFailure label) /\
    py_int label = None /\ In l' (leaves data) /\
    (label = l_chapter l' \/ label = l_verse l').
Proof.
  intros Hin Hbad. rewrite flatten_from_nested_leaves.
  assert (Hr : exists e, leaf_record l = Raise e).
  { unfold leaf_record, int_label. destruct Hbad as [-> | Hv]; simpl; eauto.
    destruct (py_int (l_chapter l)); simpl; [rewrite Hv|]; simpl; eauto. }
  destruct (map_result_raise leaf_record _ _ Hin Hr) as (l' & e & Hl' & He & ->).
  apply leaf_record_raise in He. destruct He as (label & -> & Hn & Hor).
  exists label, l'. simpl. auto.
Qed.

(** C1. For every nested input the flattener turns the quadruples reached
    through a dict-valued book entry and a dict-valued chapter entry into
    records, exactly one row per quadruple and in their order; entries whose
    value is not a dict are skipped without error (the result on the pruned
    input is the same); the Genesis example gives exactly the two rows
    (Genesis, 1, 1, a) and (Genesis, 1, 2, b). *)
Theorem nested_flatten_completeness :
  (forall data,
     flatten_from_nested data =
     (records <- map_result leaf_record (leaves data) ;;
      if is_empty records then Raise EmptyFlattenResult
      else Ok (DataFrame records))) /\
  (forall data df,
     flatten_from_nested data = Ok df ->
     columns df = ["book"; "chapter"; "verse"; "text"] /\
     Forall2 (fun l r => leaf_row l = Some r) (leaves data) (rows df)) /\
  (forall data,
     leaves data <> [] -> Forall labels_parse (leaves data) ->
     exists df, flatten_from_nested data = Ok df) /\
  (forall data,
     leaves (prune data) = leaves data /\
     flatten_from_nested (prune data) = flatten_from_nested data) /\
  flatten_from_nested (rt := cpython) genesis_example =
  Ok {| columns := ["book"; "chapter"; "verse"; "text"];
        rows := [verse_row "Genesis" 1 1 "a"; verse_row "Genesis" 1 2 "b"] |}.
Proof.
  split; [exact flatten_from_nested_leaves|].
  split.
  { intros data df E. apply flatten_from_nested_ok in E.
    destruct E as [Hc Hr]. split; [exact Hc|].
    induction Hr as [|l r ls rs (c & v & Hc' & Hv & ->) Hrs IH]; constructor;
      auto.
    unfold leaf_row. rewrite Hc', Hv. reflexivity. }
  split; [exact flatten_from_nested_total|].
  split; [|reflexivity].
  intros data. split; [apply leaves_prune|].
  rewrite !flatten_from_nested_leaves, leaves_prune. reflexivity.
Qed.

(** C6. In the nested flattener both labels of every quadruple go through
    [int] and the text through [str]: when every label parses (and there is
    a quadruple) the call returns a table, and a table it returns holds, for
    each quadruple in order, the book, the parsed integers and the text of
    [str], whatever the type of the value; a label that [int] refuses makes
    the whole call raise CoercionFailure on an unparseable label (in [main]
    too, which then writes nothing).  The reference [int] reads base 10
    only; the reference [str] writes 7 for the number 7, 1.5 for the float
    and None for null. *)
Theorem nested_label_coercion :
  (forall data df,
     flatten_from_nested data = Ok df ->
     Forall2
       (fun l r =>
          exists c v,
            py_int (l_chapter l) = Some c /\ py_int (l_verse l) = Some v /\
            r = [Some (JStr (l_book l)); Some (JInt c); Some (JInt v);
                 Some (JStr (py_str (l_text l)))])
       (leaves data) (rows df)) /\
  (forall data,
     leaves data <> [] ->
     (forall l, In l (leaves data) ->
        py_int (l_chapter l) <> None /\ py_int (l_verse l) <> None) ->
     exists rs,
       flatten_from_nested data =
       Ok {| columns := ["book"; "chapter"; "verse"; "text"]; rows := rs |} /\
       Forall2
         (fun l r =>
            exists c v,
              py_int (l_chapter l) = Some c /\ py_int (l_verse l) = Some v /\
              r = [Some (JStr (l_book l)); Some (JInt c); Some (JInt v);
                   Some (JStr (py_str (l_text l)))])
         (leaves data) rs) /\
  (forall data l,
     In l (leaves data) ->
     py_int (l_chapter l) = None \/ py_int (l_verse l) = None ->
     exists label,
       flatten_from_nested data = Raise (CoercionFailure label) /\
       py_int label = None /\
       forall w, input_json w = Some (JDict data) ->
                 main w = (Raise (CoercionFailure label), w)) /\
  (cpython_int "12" = Some 12 /\ cpython_int "007" = Some 7 /\
   cpython_int "-3" = Some (-3) /\ cpython_int "0x1F" = None /\
   cpython_int "1.5" = None /\ cpython_int "twelve" = None /\
   cpython_int "" = None) /\
  (cpython_str (JStr "In the beginning") = "In the beginning" /\
   cpython_str (JInt 7) = "7" /\ cpython_str JNull = "None" /\
   cpython_str (JBool true) = "True" /\
   cpython_str (JFloat one_and_a_half) = "1.5" /\
   cpython_str (JList [JInt 1; JStr "a"]) = "[1, 'a']") /\
  flatten_from_nested (rt := cpython) typed_text_example =
  Ok typed_text_table.
Proof.
  split.
  { intros data df E. apply flatten_from_nested_ok in E. exact (proj2 E). }
  split.
  { intros data Hne Hall.
    destruct (flatten_from_nested_total data Hne) as ([cols rs] & E).
    { apply Forall_forall. exact Hall. }
    pose proof (flatten_from_nested_ok _ E) as [Hc Hr]. simpl in Hc, Hr.
    subst cols. exists rs. split; [exact E | exact Hr]. }
  split.
  { intros data l Hin Hbad.
    destruct (flatten_from_nested_bad_label data l Hin Hbad)
      as (label & l' & E & Hn & _).
    exists label. split; [exact E|]. split; [exact Hn|].
    intros w Hw. unfold main. rewrite Hw. simpl. rewrite E. reflexivity. }
  split; [repeat split; reflexivity|].
  split; [repeat split; vm_compute; reflexivity|].
  vm_compute. reflexivity.
Qed.

(** C7. A nested input whose walk reaches no quadruple is refused with
    EmptyFlattenResult, and only such an input is: the empty dict, and a
    dict in which no book entry leads to a dict-valued chapter entry, and
    [main] then writes nothing. *)
Theorem empty_nested_rejected :
  (forall data,
     leaves data = [] <-> flatten_from_nested data = Raise EmptyFlattenResult) /\
  flatten_from_nested [] = Raise EmptyFlattenResult /\
  (forall data,
     (forall b v, In (b, v) data ->
        match v with
        | JDict chapters => forall c x, In (c, x) chapters -> is_dict x = false
        | _ => True
        end) ->
     flatten_from_nested data = Raise EmptyFlattenResult) /\
  (forall data w,
     input_json w = Some (JDict data) -> leaves data = [] ->
     main w = (Raise EmptyFlattenResult, w)).
Proof.
  split; [exact flatten_from_nested_empty|].
  split; [reflexivity|].
  split.
  { intros data H. apply flatten_from_nested_empty.
    unfold leaves. induction data as [|[b v] rest IH]; simpl; [reflexivity|].
    rewrite IH by (intros b' v' Hin; apply (H b' v'); right; exact Hin).
    rewrite app_nil_r.
    specialize (H b v (or_introl eq_refl)). destruct v; try reflexivity.
    simpl. unfold chapter_leaves.
    induction items as [|[c x] items IHi]; simpl; [reflexivity|].
    rewrite IHi by (intros c' x' Hin; apply (H c' x'); right; exact Hin).
    rewrite app_nil_r.
    specialize (H c x (or_introl eq_refl)). destruct x; try reflexivity.
    discriminate. }
  intros data w Hw Hl. apply flatten_from_nested_empty in Hl.
  unfold main. rewrite Hw. simpl. rewrite Hl. reflexivity.
Qed.

End NestedClaims.

(** ** The list flattener *)

Lemma mem_In (k : string) (l : list string) : mem k l = true <-> In k l.
Proof.
  unfold mem. rewrite existsb_exists. split.
  - intros (x & Hx & E). apply String.eqb_eq in E. subst. exact Hx.
  - intros H. exists k. split; [exact H | apply String.eqb_refl].
Qed.

Lemma mem_false (k : string) (l : list string) : mem k l = false <-> ~ In k l.
Proof.
  rewrite <- mem_In. destruct (mem k l); split; congruence.
Qed.

Lemma In_new_labels (k : string) (seen l : list string) :
  In k (new_labels seen l) <-> In k l /\ ~ In k seen.
Proof.
  revert seen. induction l as [|x l IH]; intros seen; simpl.
  - tauto.
  - destruct (mem x seen) eqn:E.
    + apply mem_In in E. rewrite IH. split.
      * intros [H1 H2]. auto.
      * intros [[->|H1] H2]; [contradiction | auto].
    + apply mem_false in E. simpl. rewrite IH. simpl. split.
      * intros [->|[H1 H2]]; auto.
      * intros [[->|H1] H2]; auto.
        destruct (string_dec x k) as [->|Hne]; auto.
        right. split; auto. intros [?|?]; auto.
Qed.

Lemma In_all_keys (k : string) (ds : list pydict) :
  In k (all_keys ds) <-> exists d, In d ds /\ In k (map fst d).
Proof.
  unfold all_keys. rewrite In_new_labels, in_flat_map. simpl. tauto.
Qed.

Lemma list_of_dicts_list_shaped (ds : list pydict) :
  list_of_dicts (list_shaped ds) = Ok ds.
Proof.
  induction ds as [|d ds IH]; simpl; [reflexivity|]. rewrite IH. reflexivity.
Qed.

Lemma find_filter (A : Type) (f g : A -> bool) (l : list A) :
  (forall x, In x l -> f x = true -> g x = true) ->
  find f (filter g l) = find f l.
Proof.
  induction l as [|x l IH]; simpl; intros H; [reflexivity|].
  destruct (g x) eqn:Eg; simpl.
  - destruct (f x); [reflexivity|]. apply IH. intros y Hy. apply H. auto.
  - destruct (f x) eqn:Ef.
    + rewrite (H x (or_introl eq_refl) Ef) in Eg. discriminate.
    + apply IH. intros y Hy. apply H. auto.
Qed.

(** Renaming by the entries of the table whose alias is a column is renaming
    by the whole table. *)
Lemma rename_label_present (cols : list string) (c : string) :
  In c cols ->
  rename_label (filter (fun p => mem (fst p) cols) rename_map) c = canonical c.
Proof.
  intros Hc. unfold canonical, rename_label. rewrite find_filter; [reflexivity|].
  intros p _ E. apply String.eqb_eq in E. subst. apply mem_In. exact Hc.
Qed.

Lemma flatten_from_list_list_shaped (ds : list pydict) :
  flatten_from_list (list_shaped ds) =
  match missing_fields ds with
  | _ :: _ =>
      Raise (MissingRequiredFields (missing_fields ds) (resolved_fields ds))
  | [] =>
      Ok (select ["book"; "chapter"; "verse"; "text"]
            {| columns := resolved_fields ds; rows := rows (DataFrame ds) |})
  end.
Proof.
  unfold flatten_from_list. rewrite list_of_dicts_list_shaped.
  assert (E : map (rename_label
                     (filter (fun p => mem (fst p) (all_keys ds)) rename_map))
                (all_keys ds) = resolved_fields ds).
  { apply map_ext_in. intros c Hc. apply rename_label_present. exact Hc. }
  unfold bind, rename. cbn [columns rows DataFrame]. rewrite E. reflexivity.
Qed.

Lemma list_of_dicts_ok (l : list json) (ds : list pydict) :
  list_of_dicts l = Ok ds -> l = list_shaped ds.
Proof.
  revert ds. induction l as [|x l IH]; simpl; intros ds E.
  - injection E as <-. reflexivity.
  - destruct x; try discriminate.
    destruct (list_of_dicts l) as [ds'|e]; simpl in E; [|discriminate].
    injection E as <-. simpl. rewrite <- (IH ds' eq_refl). reflexivity.
Qed.

Lemma missing_fields_spec (ds : list pydict) (c : string) :
  In c (missing_fields ds) <-> In c required /\ ~ In c (resolved_fields ds).
Proof.
  unfold missing_fields. rewrite filter_In, negb_true_iff, mem_false. tauto.
Qed.

(** *** Renaming the fields of the input *)

Section KeyRenaming.
Variable sigma : string -> string.

Lemma mem_map_injective (k : string) (l : list string) :
  injective_on sigma (k :: l) -> mem (sigma k) (map sigma l) = mem k l.
Proof.
  intros Hinj. destruct (mem k l) eqn:E.
  - apply mem_In. apply in_map. apply mem_In. exact E.
  - apply mem_false. apply mem_false in E. intros H.
    apply in_map_iff in H. destruct H as (k' & Hk' & Hin).
    apply E. rewrite <- (Hinj k' k); simpl; auto.
Qed.

Lemma new_labels_map (seen l : list string) :
  injective_on sigma (seen ++ l) ->
  new_labels (map sigma seen) (map sigma l) = map sigma (new_labels seen l).
Proof.
  revert seen. induction l as [|k l IH]; intros seen Hinj; simpl;
    [reflexivity|].
  rewrite mem_map_injective.
  - destruct (mem k seen).
    + apply IH. intros a b Ha Hb. apply Hinj; rewrite in_app_iff in *;
        simpl; tauto.
    + simpl. f_equal. apply (IH (k :: seen)).
      intros a b Ha Hb. apply Hinj; simpl in *; rewrite in_app_iff in *;
        simpl; tauto.
  - intros a b Ha Hb. apply Hinj; simpl in *; rewrite in_app_iff;
      simpl; tauto.
Qed.

Lemma get_rename_keys (c : string) (d : pydict) :
  injective_on sigma (c :: map fst d) -> get (sigma c) (rename_keys sigma d) = get c d.
Proof.
  induction d as [|[k v] d IH]; simpl; intros Hinj; [reflexivity|].
  destruct (String.eqb c k) eqn:E.
  - apply String.eqb_eq in E. subst. rewrite String.eqb_refl. reflexivity.
  - destruct (String.eqb (sigma c) (sigma k)) eqn:E'.
    + apply String.eqb_eq in E'. apply Hinj in E'; simpl; auto.
      subst. rewrite String.eqb_refl in E. discriminate.
    + apply IH. intros a b Ha Hb. apply Hinj; simpl in *; tauto.
Qed.

Lemma keys_rename_keys (ds : list pydict) :
  flat_map (map fst) (map (rename_keys sigma) ds) =
  map sigma (flat_map (map fst) ds).
Proof.
  induction ds as [|d ds IH]; simpl; [reflexivity|].
  rewrite map_app, IH. f_equal. unfold rename_keys. rewrite !map_map.
  reflexivity.
Qed.

Lemma DataFrame_rename_keys (ds : list pydict) :
  injective_on sigma (all_keys ds) ->
  DataFrame (map (rename_keys sigma) ds) =
  {| columns := map sigma (all_keys ds); rows := rows (DataFrame ds) |}.
Proof.
  intros Hinj.
  assert (Hk : all_keys (map (rename_keys sigma) ds) = map sigma (all_keys ds)).
  { unfold all_keys. rewrite keys_rename_keys.
    apply (new_labels_map []). simpl. intros a b Ha Hb.
    apply Hinj; apply In_new_labels; auto. }
  unfold DataFrame. rewrite Hk. simpl. f_equal.
  rewrite map_map. apply map_ext_in. intros d Hd.
  rewrite map_map. apply map_ext_in. intros c Hc.
  assert (Hget : forall d', In d' ds ->
                   get (sigma c) (rename_keys sigma d') = get c d').
  { intros d' Hd'. apply get_rename_keys. intros a b Ha Hb. apply Hinj.
    - destruct Ha as [<-|Ha]; [exact Hc|]. apply In_all_keys. eauto.
    - destruct Hb as [<-|Hb]; [exact Hc|]. apply In_all_keys. eauto. }
  rewrite (Hget d Hd). f_equal.
  rewrite map_map. apply map_ext_in. exact Hget.
Qed.

End KeyRenaming.

(** ** The order of the sort *)

#[global] Instance Z_compare_ordered : OrderedCompare Z.compare.
Proof.
  split.
  - apply Z.compare_refl.
  - apply Z.compare_eq.
  - intros x y. apply Z.compare_antisym.
  - intros x y z. rewrite !Z.compare_lt_iff. lia.
Qed.

#[global] Instance ascii_compare_ordered : OrderedCompare Ascii.compare.
Proof.
  split.
  - intros x. unfold Ascii.compare. apply N.compare_refl.
  - apply Ascii.compare_eq_iff.
  - intros x y. apply Ascii.compare_antisym.
  - intros x y z. unfold Ascii.compare. rewrite !N.compare_lt_iff. lia.
Qed.

#[global] Instance string_compare_ordered : OrderedCompare String.compare.
Proof.
  split.
  - intros x. induction x as [|a x IH]; simpl; [reflexivity|].
    rewrite (cmp_refl (cmp := Ascii.compare)). exact IH.
  - apply String.compare_eq_iff.
  - intros x y. apply String.compare_antisym.
  - intros x. induction x as [|a x IH]; intros [|b y] [|c z]; simpl;
      try congruence.
    destruct (Ascii.compare a b) eqn:Eab; try discriminate;
      destruct (Ascii.compare b c) eqn:Ebc; try discriminate; intros H1 H2.
    + apply (cmp_eq (cmp := Ascii.compare)) in Eab, Ebc. subst.
      rewrite (cmp_refl (cmp := Ascii.compare)). eapply IH; eassumption.
    + apply (cmp_eq (cmp := Ascii.compare)) in Eab. subst. rewrite Ebc.
      reflexivity.
    + apply (cmp_eq (cmp := Ascii.compare)) in Ebc. subst. rewrite Eab.
      reflexivity.
    + rewrite (cmp_trans (cmp := Ascii.compare) _ _ _ Eab Ebc). reflexivity.
Qed.

#[global] Instance na_last_ordered (A : Type) (cmp : A -> A -> comparison) :
  OrderedCompare cmp -> OrderedCompare (compare_na_last cmp).
Proof.
  intros H. split.
  - intros [x|]; simpl; [apply cmp_refl | reflexivity].
  - intros [x|] [y|]; simpl; try discriminate; [|reflexivity].
    intros E. apply cmp_eq in E. congruence.
  - intros [x|] [y|]; simpl; try reflexivity. apply cmp_antisym.
  - intros [x|] [y|] [z|]; simpl; try discriminate; try reflexivity.
    apply cmp_trans.
Qed.

#[global] Instance lexcmp_ordered (A B : Type) (ca : A -> A -> comparison)
    (cb : B -> B -> comparison) :
  OrderedCompare ca -> OrderedCompare cb -> OrderedCompare (lexcmp ca cb).
Proof.
  intros Ha Hb. split.
  - intros [a b]. unfold lexcmp. simpl. rewrite !cmp_refl. reflexivity.
  - intros [a b] [a' b']. unfold lexcmp. simpl.
    destruct (ca a a') eqn:Ea; simpl; try discriminate.
    intros Eb. apply cmp_eq in Ea, Eb. congruence.
  - intros [a b] [a' b']. unfold lexcmp. simpl.
    rewrite (cmp_antisym (cmp := ca) a a'), (cmp_antisym (cmp := cb) b b').
    destruct (ca a a'); reflexivity.
  - intros [a b] [a' b'] [a'' b'']. unfold lexcmp. simpl.
    destruct (ca a a') eqn:E1; simpl; try discriminate;
      destruct (ca a' a'') eqn:E2; simpl; try discriminate; intros H1 H2.
    + apply cmp_eq in E1, E2. subst. rewrite cmp_refl. simpl.
      eapply cmp_trans; eassumption.
    + apply cmp_eq in E1. subst. rewrite E2. reflexivity.
    + apply cmp_eq in E2. subst. rewrite E1. reflexivity.
    + rewrite (cmp_trans _ _ _ E1 E2). reflexivity.
Qed.

Lemma key_compare_lex (a b : sort_key) :
  key_compare a b =
  lexcmp (compare_na_last String.compare)
    (lexcmp (compare_na_last Z.compare) (compare_na_last Z.compare))
    (key_tuple a) (key_tuple b).
Proof. reflexivity. Qed.

#[global] Instance key_compare_ordered : OrderedCompare key_compare.
Proof.
  pose proof (lexcmp_ordered (na_last_ordered string_compare_ordered)
                (lexcmp_ordered (na_last_ordered Z_compare_ordered)
                   (na_last_ordered Z_compare_ordered))) as H.
  split.
  - intros x. rewrite key_compare_lex. apply cmp_refl.
  - intros [b c v] [b' c' v']. rewrite key_compare_lex. intros E.
    apply cmp_eq in E. unfold key_tuple in E. simpl in E. congruence.
  - intros x y. rewrite !key_compare_lex. apply cmp_antisym.
  - intros x y z. rewrite !key_compare_lex. apply cmp_trans.
Qed.

Lemma key_leb_total (a b : sort_key) :
  key_leb a b = false -> key_leb b a = true.
Proof.
  unfold key_leb. rewrite (cmp_antisym (cmp := key_compare) a b).
  destruct (key_compare a b); simpl; congruence.
Qed.

Lemma key_leb_trans (a b c : sort_key) :
  key_leb a b = true -> key_leb b c = true -> key_leb a c = true.
Proof.
  unfold key_leb.
  destruct (key_compare a b) eqn:E1; try discriminate;
    destruct (key_compare b c) eqn:E2; try discriminate; intros _ _.
  - apply cmp_eq in E1, E2. subst. rewrite cmp_refl. reflexivity.
  - apply cmp_eq in E1. subst. rewrite E2. reflexivity.
  - apply cmp_eq in E2. subst. rewrite E1. reflexivity.
  - rewrite (cmp_trans _ _ _ E1 E2). reflexivity.
Qed.

Lemma na_last_lt_compare (A : Type) (cmp : A -> A -> comparison)
    (x y : option A) :
  compare_na_last cmp x y = Lt <-> na_last_lt (fun a b => cmp a b = Lt) x y.
Proof.
  destruct x, y; simpl; split; auto; try discriminate; contradiction.
Qed.

(** The comparison of the sort is the order of the specification. *)
Lemma key_leb_verse_order (a b : sort_key) :
  key_leb a b = true <-> verse_order a b.
Proof.
  unfold key_leb, verse_order, key_compare, text_lt.
  pose proof (na_last_lt_compare String.compare (k_book a) (k_book b)) as Hb.
  pose proof (na_last_lt_compare Z.compare (k_chapter a) (k_chapter b)) as Hc.
  pose proof (na_last_lt_compare Z.compare (k_verse a) (k_verse b)) as Hv.
  assert (Hzlt : forall x y : option Z,
             na_last_lt (fun a b => (a ?= b) = Lt) x y <-> na_last_lt Z.lt x y).
  { intros [x|] [y|]; simpl; try tauto. }
  rewrite Hzlt in Hc, Hv.
  pose proof (na_last_ordered string_compare_ordered) as Ob.
  pose proof (na_last_ordered Z_compare_ordered) as Oz.
  destruct (compare_na_last String.compare (k_book a) (k_book b)) eqn:Eb; simpl.
  - apply cmp_eq in Eb.
    destruct (compare_na_last Z.compare (k_chapter a) (k_chapter b)) eqn:Ec;
      simpl.
    + apply cmp_eq in Ec.
      destruct (compare_na_last Z.compare (k_verse a) (k_verse b)) eqn:Ev;
        simpl.
      * apply cmp_eq in Ev. tauto.
      * split; auto. intros _. right. split; auto. right. split; auto.
        left. apply Hv. reflexivity.
      * split; [discriminate|].
        intros [H|[_ [H|[_ [H|H]]]]].
        -- apply Hb in H. discriminate.
        -- apply Hc in H. discriminate.
        -- apply Hv in H. discriminate.
        -- rewrite H, cmp_refl in Ev. discriminate.
    + split; auto. intros _. right. split; auto. left. apply Hc. reflexivity.
    + split; [discriminate|].
      intros [H|[_ [H|[H _]]]].
      * apply Hb in H. discriminate.
      * apply Hc in H. discriminate.
      * rewrite H, cmp_refl in Ec. discriminate.
  - split; auto. intros _. left. apply Hb. reflexivity.
  - split; [discriminate|].
    intros [H|[H _]].
    + apply Hb in H. discriminate.
    + rewrite H, cmp_refl in Eb. discriminate.
Qed.

(** ** The stable sort *)

Section SortFacts.
Variable A : Type.

Lemma insert_sorted_perm (x : sort_key * A) (l : list (sort_key * A)) :
  Permutation (insert_sorted x l) (x :: l).
Proof.
  induction l as [|y l IH]; simpl; [reflexivity|].
  destruct (key_leb (fst x) (fst y)); [reflexivity|].
  rewrite IH. apply perm_swap.
Qed.

Lemma stable_sort_perm (l : list (sort_key * A)) :
  Permutation (stable_sort l) l.
Proof.
  induction l as [|x l IH]; simpl; [reflexivity|].
  rewrite insert_sorted_perm, IH. reflexivity.
Qed.

Lemma insert_sorted_sorted (x : sort_key * A) (l : list (sort_key * A)) :
  StronglySorted (@key_le A) l -> StronglySorted (@key_le A) (insert_sorted x l).
Proof.
  induction l as [|y l IH]; simpl; intros Hs.
  - repeat constructor.
  - inversion Hs as [|? ? Hl Hy]; subst.
    destruct (key_leb (fst x) (fst y)) eqn:E.
    + constructor; [exact Hs|]. constructor; [exact E|].
      rewrite Forall_forall in *. intros z Hz.
      unfold key_le in *. eapply key_leb_trans; [exact E | apply Hy, Hz].
    + constructor; [apply IH, Hl|].
      apply (Permutation_Forall (Permutation_sym (insert_sorted_perm x l))).
      constructor; [apply key_leb_total, E | exact Hy].
Qed.

Lemma stable_sort_sorted (l : list (sort_key * A)) :
  StronglySorted (@key_le A) (stable_sort l).
Proof.
  induction l as [|x l IH]; simpl; [constructor|].
  apply insert_sorted_sorted, IH.
Qed.

End SortFacts.

(** ** Binary64 holds the whole numbers up to 2^53 *)

Lemma fexp_normal (e : Z) : -1021 <= e -> fexp 53 1024 e = e - 53.
Proof. intros H. unfold fexp, emin. zfold. lia. Qed.

Lemma digits2_pos_bounds (m : positive) :
  2 ^ (Zpos (digits2_pos m) - 1) <= Zpos m < 2 ^ Zpos (digits2_pos m).
Proof.
  induction m as [m IH|m IH|]; simpl digits2_pos.
  - rewrite Pos2Z.inj_succ.
    replace (Z.succ (Zpos (digits2_pos m)) - 1) with (Zpos (digits2_pos m)) by lia.
    rewrite Z.pow_succ_r by lia.
    assert (H : 2 ^ Zpos (digits2_pos m) = 2 * 2 ^ (Zpos (digits2_pos m) - 1)).
    { rewrite <- Z.pow_succ_r by lia. f_equal. lia. }
    lia.
  - rewrite Pos2Z.inj_succ.
    replace (Z.succ (Zpos (digits2_pos m)) - 1) with (Zpos (digits2_pos m)) by lia.
    rewrite Z.pow_succ_r by lia.
    assert (H : 2 ^ Zpos (digits2_pos m) = 2 * 2 ^ (Zpos (digits2_pos m) - 1)).
    { rewrite <- Z.pow_succ_r by lia. f_equal. lia. }
    lia.
  - simpl. lia.
Qed.

Lemma iter_xO_value (m k : positive) :
  Zpos (Pos.iter xO m k) = Zpos m * 2 ^ Zpos k.
Proof.
  induction k as [|k IH] using Pos.peano_ind.
  - simpl. lia.
  - rewrite Pos.iter_succ, Pos2Z.inj_succ, Z.pow_succ_r by lia.
    rewrite Pos2Z.inj_xO, IH. lia.
Qed.

Lemma iter_xO_digits (m k : positive) :
  digits2_pos (Pos.iter xO m k) = (digits2_pos m + k)%positive.
Proof.
  induction k as [|k IH] using Pos.peano_ind.
  - simpl. lia.
  - rewrite Pos.iter_succ. simpl. rewrite IH. lia.
Qed.

Lemma binary_round_aux_exact (s : bool) (m : positive) (e : Z) :
  Zpos (digits2_pos m) = 53 -> -1021 <= e <= 971 ->
  binary_round_aux 53 1024 s (Zpos m) e loc_Exact = S754_finite s m e.
Proof.
  intros Hd He. unfold binary_round_aux, shr_fexp. simpl Zdigits2.
  rewrite Hd. zfold. rewrite fexp_normal by lia.
  replace (53 + e - 53 - e) with 0 by lia.
  cbn [shr shr_record_of_loc round_nearest_even shr_m loc_of_shr_record
       Zdigits2].
  rewrite Hd. zfold. rewrite fexp_normal by lia.
  replace (53 + e - 53 - e) with 0 by lia.
  cbn [shr shr_m].
  change (1024 - 53) with 971.
  destruct (Z.leb_spec e 971); [reflexivity | lia].
Qed.

Lemma binary_round_small (s : bool) (m : positive) :
  Zpos m < 2 ^ 53 ->
  exists m' e,
    binary_round 53 1024 s m 0 = S754_finite s m' e /\
    -52 <= e <= 0 /\ Zpos m' = Zpos m * 2 ^ (- e).
Proof.
  intros Hm. pose proof (digits2_pos_bounds m) as [Hlo Hhi].
  assert (Hd : Zpos (digits2_pos m) <= 53).
  { destruct (Z.le_gt_cases (Zpos (digits2_pos m)) 53) as [H|H]; [exact H|].
    exfalso.
    assert (2 ^ 53 <= 2 ^ (Zpos (digits2_pos m) - 1))
      by (apply Z.pow_le_mono_r; lia).
    lia. }
  assert (Hpos : 0 < Zpos (digits2_pos m)) by lia.
  unfold binary_round, shl_align. zfold.
  rewrite fexp_normal by lia.
  replace (Zpos (digits2_pos m) + 0 - 53 - 0)
    with (Zpos (digits2_pos m) - 53) by lia.
  replace (Zpos (digits2_pos m) + 0 - 53)
    with (Zpos (digits2_pos m) - 53) by lia.
  destruct (Zpos (digits2_pos m) - 53) as [|k|k] eqn:Ek; [|lia|].
  - exists m, 0. rewrite binary_round_aux_exact by lia.
    repeat split; try lia.
  - assert (Hk : Zpos k = 53 - Zpos (digits2_pos m)) by lia.
    exists (Pos.iter xO m k), (Zneg k).
    rewrite binary_round_aux_exact.
    + repeat split; try lia. rewrite iter_xO_value. reflexivity.
    + rewrite iter_xO_digits. lia.
    + lia.
Qed.

Lemma float_to_Z_scaled (s : bool) (m m' : positive) (e : Z) :
  -52 <= e <= 0 -> Zpos m' = Zpos m * 2 ^ (- e) ->
  float_to_Z (S754_finite s m' e) = Some (cond_Zopp s (Zpos m)).
Proof.
  intros He Hm. unfold float_to_Z.
  destruct (Z.leb_spec 0 e) as [H|H].
  - assert (e = 0) by lia. subst e. simpl in Hm. rewrite Hm. simpl.
    repeat f_equal. lia.
  - assert (Hp : 0 < 2 ^ (- e)) by (apply Z.pow_pos_nonneg; lia).
    rewrite Hm, Z.mod_mul by lia. rewrite Z.eqb_refl.
    rewrite Z.div_mul by lia. reflexivity.
Qed.

Lemma round_f64_exact (z : Z) :
  - 2 ^ 53 <= z <= 2 ^ 53 -> float_to_Z (round_f64 z) = Some z.
Proof.
  intros Hz.
  destruct (Z.eq_dec z (2 ^ 53)) as [->|Hhi]; [reflexivity|].
  destruct (Z.eq_dec z (- 2 ^ 53)) as [->|Hlo]; [reflexivity|].
  unfold round_f64, binary_normalize.
  destruct z as [|m|m]; [reflexivity| |].
  - destruct (@binary_round_small false m) as (m' & e & -> & He & Hm); [lia|].
    apply (@float_to_Z_scaled false m m' e He Hm).
  - destruct (@binary_round_small true m) as (m' & e & -> & He & Hm); [lia|].
    apply (@float_to_Z_scaled true m m' e He Hm).
Qed.

Lemma in_int64_small (z : Z) : - 2 ^ 53 <= z <= 2 ^ 53 -> in_int64 z = true.
Proof.
  intros H. unfold in_int64. apply andb_true_iff. split.
  - apply Z.leb_le. lia.
  - apply Z.ltb_lt. lia.
Qed.

Lemma float_to_Z_not_nan (f : spec_float) (z : Z) :
  float_to_Z f = Some z -> is_nan f = false.
Proof. destruct f; simpl; intros H; try discriminate; reflexivity. Qed.

Lemma whole_int64_exact (z : Z) :
  - 2 ^ 53 <= z <= 2 ^ 53 -> whole_int64 (round_f64 z) = Some (Some z).
Proof.
  intros H. unfold whole_int64.
  rewrite (float_to_Z_not_nan _ (round_f64_exact H)).
  rewrite (round_f64_exact H), (in_int64_small H). reflexivity.
Qed.

(** ** The normaliser *)

Lemma length_set_nth (A : Type) (p : nat) (x : A) (l : list A) :
  List.length (set_nth p x l) = List.length l.
Proof.
  revert p. induction l as [|a l IH]; intros [|p]; simpl; auto.
Qed.

Lemma nth_set_nth_same (A : Type) (p : nat) (x d : A) (l : list A) :
  (p < List.length l)%nat -> nth p (set_nth p x l) d = x.
Proof.
  revert p. induction l as [|a l IH]; intros [|p]; simpl; intros H;
    try lia; auto.
  apply IH. lia.
Qed.

Lemma nth_set_nth_other (A : Type) (p q : nat) (x d : A) (l : list A) :
  p <> q -> nth q (set_nth p x l) d = nth q l d.
Proof.
  revert p q. induction l as [|a l IH]; intros [|p] [|q]; simpl; intros H;
    auto; try congruence.
Qed.

Lemma positions_from_nth (i p : nat) (c : string) (cols : list string) :
  In p (positions_from i c cols) ->
  (i <= p)%nat /\ nth_error cols (p - i) = Some c.
Proof.
  revert i. induction cols as [|c' cols IH]; simpl; intros i H; [contradiction|].
  destruct (String.eqb c c') eqn:E.
  - destruct H as [<-|H].
    + apply String.eqb_eq in E. subst. rewrite Nat.sub_diag. auto.
    + apply IH in H. destruct H as [Hle Hn]. split; [lia|].
      replace (p - i)%nat with (S (p - S i)) by lia. exact Hn.
  - apply IH in H. destruct H as [Hle Hn]. split; [lia|].
    replace (p - i)%nat with (S (p - S i)) by lia. exact Hn.
Qed.

Lemma positions_nth (p : nat) (c : string) (cols : list string) :
  In p (positions c cols) -> nth_error cols p = Some c.
Proof.
  intros H. apply positions_from_nth in H. rewrite Nat.sub_0_r in H. tauto.
Qed.

Lemma the_column_ok (col : string) (df : frame) (p : nat) :
  the_column col df = Ok p <-> positions col (columns df) = [p].
Proof.
  unfold the_column.
  destruct (positions col (columns df)) as [|q [|q' l]]; split; intros H;
    try discriminate; congruence.
Qed.

Lemma the_column_nth (col : string) (df : frame) (p : nat) :
  the_column col df = Ok p -> nth_error (columns df) p = Some col.
Proof.
  intros H. apply the_column_ok in H. apply positions_nth. rewrite H.
  left. reflexivity.
Qed.

Lemma map_result_map (A B : Type) (f : A -> result B) (g : A -> B)
    (l : list A) (bs : list B) :
  (forall a b, f a = Ok b -> b = g a) ->
  map_result f l = Ok bs -> bs = map g l.
Proof.
  intros Hfg E. apply map_result_ok_inv in E.
  induction E as [|a b l bs Hab _ IH]; simpl; [reflexivity|].
  rewrite <- (Hfg a b Hab), IH. reflexivity.
Qed.

Lemma map_result_Forall (A B : Type) (f : A -> result B) (P : A -> Prop)
    (l : list A) (bs : list B) :
  (forall a b, f a = Ok b -> P a) ->
  map_result f l = Ok bs -> Forall P l.
Proof.
  intros Hf E. apply map_result_ok_inv in E.
  induction E as [|a b l bs Hab _ IH]; constructor; eauto.
Qed.

Lemma book_key_ok (c : cell) (k : option string) :
  book_key c = Ok k -> k = text_key c /\ book_is_text c.
Proof.
  destruct c as [[| | | | | |]|]; simpl; intros E; try discriminate;
    injection E as <-; auto.
Qed.

Lemma book_key_text (c : cell) : book_is_text c -> book_key c = Ok (text_key c).
Proof.
  destruct c as [[| | | | | |]|]; simpl; intros H; try contradiction;
    reflexivity.
Qed.

Lemma with_ids_length (body : list (list cell)) :
  List.length (with_ids body) = List.length body.
Proof.
  unfold with_ids. rewrite length_map, length_combine, length_seq.
  apply Nat.min_id.
Qed.

Lemma with_ids_ids (body : list (list cell)) :
  map (fun r => nth 0 r None) (with_ids body) =
  map (fun i => Some (JInt (Z.of_nat i))) (seq 0 (List.length body)).
Proof.
  unfold with_ids.
  assert (H : forall i,
    map (fun r => nth 0 r None)
      (map (fun ir => Some (JInt (Z.of_nat (fst ir))) :: snd ir)
         (combine (seq i (List.length body)) body)) =
    map (fun i => Some (JInt (Z.of_nat i))) (seq i (List.length body))).
  { induction body as [|r body IH]; intros i; simpl; [reflexivity|].
    rewrite IH. reflexivity. }
  apply H.
Qed.

Lemma with_ids_body (body : list (list cell)) :
  map (@tl cell) (with_ids body) = body.
Proof.
  unfold with_ids. generalize 0%nat as i.
  induction body as [|r body IH]; intros i; simpl; [reflexivity|].
  rewrite IH. reflexivity.
Qed.

Lemma with_ids_nth (body : list (list cell)) (i : nat) (r : list cell) :
  nth_error body i = Some r ->
  nth_error (with_ids body) i = Some (Some (JInt (Z.of_nat i)) :: r).
Proof.
  unfold with_ids. intros H. rewrite nth_error_map.
  assert (E : forall s,
             nth_error (combine (seq s (List.length body)) body) i =
             Some ((s + i)%nat, r)).
  { revert i H. induction body as [|x body IH]; intros [|i] H s; simpl in *;
      try discriminate.
    - injection H as ->. rewrite Nat.add_0_r. reflexivity.
    - rewrite (IH i H). f_equal. f_equal. lia. }
  pose proof (E 0%nat) as E0. unfold cell in *. rewrite E0. reflexivity.
Qed.

Lemma StronglySorted_nth (A : Type) (R : A -> A -> Prop) (l : list A)
    (i j : nat) (a b : A) :
  StronglySorted R l -> (i < j)%nat ->
  nth_error l i = Some a -> nth_error l j = Some b -> R a b.
Proof.
  intros Hs. revert i j. induction Hs as [|x l Hl IH Hx]; intros i j Hij Ha Hb.
  - destruct i; discriminate.
  - destruct j as [|j]; [lia|]. simpl in Hb. destruct i as [|i].
    + simpl in Ha. injection Ha as <-. rewrite Forall_forall in Hx.
      apply Hx. eapply nth_error_In. exact Hb.
    + simpl in Ha. apply (IH i j); [lia | assumption | assumption].
Qed.

Lemma StronglySorted_map_snd (A : Type) (f : A -> sort_key)
    (l : list (sort_key * A)) :
  StronglySorted (@key_le A) l ->
  Forall (fun kr => fst kr = f (snd kr)) l ->
  StronglySorted (fun r1 r2 => verse_order (f r1) (f r2)) (map snd l).
Proof.
  intros Hs. induction Hs as [|x l Hl IH Hx]; intros Hf; simpl;
    [constructor|].
  inversion Hf as [|? ? Hfx Hfl]; subst. constructor; [apply IH, Hfl|].
  rewrite Forall_forall in *. intros r Hr. apply in_map_iff in Hr.
  destruct Hr as (y & <- & Hy). apply key_leb_verse_order.
  rewrite <- Hfx, <- (Hfl y Hy). apply Hx, Hy.
Qed.

Lemma positions_distinct (c c' : string) (cols : list string) (p p' : nat) :
  c <> c' -> positions c cols = [p] -> positions c' cols = [p'] -> p <> p'.
Proof.
  intros Hne Hp Hp' ->.
  assert (H1 : nth_error cols p' = Some c)
    by (apply positions_nth; rewrite Hp; left; reflexivity).
  assert (H2 : nth_error cols p' = Some c')
    by (apply positions_nth; rewrite Hp'; left; reflexivity).
  congruence.
Qed.

Lemma positions_bound (c : string) (cols : list string) (p : nat) :
  positions c cols = [p] -> (p < List.length cols)%nat.
Proof.
  intros Hp. apply nth_error_Some.
  rewrite (positions_nth p c cols) by (rewrite Hp; left; reflexivity).
  discriminate.
Qed.

(** *** The conversion of a column *)

Lemma Int64_of_float_whole (col : string) (f : spec_float) :
  Int64_of_float col f =
  match whole_int64 f with
  | Some v => Ok v
  | None => Raise (PandasError (UnsafeCast col))
  end.
Proof.
  unfold Int64_of_float, whole_int64.
  destruct f as [s|s| |s m e]; cbn [is_nan]; try reflexivity;
    (destruct (float_to_Z _) as [z|]; [destruct (in_int64 z)|]; reflexivity).
Qed.

Lemma all_some_Forall2 (A : Type) (l : list (option A)) (l' : list A) :
  all_some l = Some l' <-> Forall2 (fun x a => x = Some a) l l'.
Proof.
  revert l'. induction l as [|[a|] l IH]; intros l'; simpl.
  - split; intros H; [injection H as <-; constructor|].
    inversion H. reflexivity.
  - destruct (all_some l) as [as'|]; split; intros H.
    + injection H as <-. constructor; [reflexivity|]. apply IH. reflexivity.
    + inversion H as [|? b ? bs Hb Hbs]; subst. injection Hb as <-.
      apply IH in Hbs. injection Hbs as <-. reflexivity.
    + discriminate.
    + inversion H as [|? b ? bs Hb Hbs]; subst.
      apply IH in Hbs. discriminate.
  - split; intros H; [discriminate|].
    inversion H as [|? b ? bs Hb Hbs]; discriminate.
Qed.

Lemma all_some_length (A : Type) (l : list (option A)) (l' : list A) :
  all_some l = Some l' -> List.length l' = List.length l.
Proof.
  intros H. apply all_some_Forall2 in H. symmetry.
  eapply Forall2_length, H.
Qed.

Lemma all_some_map (A B : Type) (f : A -> B) (l : list A) :
  all_some (map (fun a => Some (f a)) l) = Some (map f l).
Proof.
  induction l as [|a l IH]; simpl; [reflexivity|]. rewrite IH. reflexivity.
Qed.

Lemma existsb_outside (rs : list coerced) :
  existsb is_outside rs = true <-> In COutside rs.
Proof.
  rewrite existsb_exists. split.
  - intros (c & Hc & E). destruct c; try discriminate. exact Hc.
  - intros H. exists COutside. auto.
Qed.

Lemma Int64_value_inexact (col : string) (rs : list coerced) :
  existsb is_outside rs = false ->
  map_result (fun c => Int64_of_float col (to_float64 c)) rs =
  match all_some (map (Int64_value false) rs) with
  | Some vs => Ok vs
  | None => Raise (PandasError (UnsafeCast col))
  end.
Proof.
  induction rs as [|c rs IH]; simpl; [reflexivity|].
  intros H. apply orb_false_iff in H. destruct H as [Hc Hrs].
  rewrite (IH Hrs).
  assert (E : Int64_of_float col (to_float64 c) =
              match Int64_value false c with
              | Some v => Ok v
              | None => Raise (PandasError (UnsafeCast col))
              end).
  { destruct c; try discriminate; apply Int64_of_float_whole. }
  rewrite E. destruct (Int64_value false c) as [v|]; simpl; [|reflexivity].
  destruct (all_some (map (Int64_value false) rs)); reflexivity.
Qed.

Lemma Int64_value_exact (rs : list coerced) :
  forallb is_int rs = true ->
  map (Int64_value true) rs = map (fun c => Some (int_value c)) rs.
Proof.
  induction rs as [|c rs IH]; simpl; [reflexivity|].
  intros H. apply andb_true_iff in H. destruct H as [Hc Hrs].
  rewrite (IH Hrs). destruct c; try discriminate. reflexivity.
Qed.

Lemma all_some_outside (exact : bool) (rs : list coerced) :
  In COutside rs -> all_some (map (Int64_value exact) rs) = None.
Proof.
  induction rs as [|c rs IH]; simpl; intros H; [contradiction|].
  destruct H as [->|H]; [reflexivity|].
  rewrite (IH H). destruct (Int64_value exact c); reflexivity.
Qed.

(** The cast of the model is the cast of the specification. *)
Lemma to_Int64_column (col : string) (rs : list coerced) :
  to_Int64 col rs =
  match column_Int64 rs with
  | Some vs => Ok vs
  | None =>
      Raise (if existsb is_outside rs then OutsideModel NumeralNotRead
             else PandasError (UnsafeCast col))
  end.
Proof.
  unfold to_Int64, column_Int64.
  destruct (existsb is_outside rs) eqn:Eo.
  - apply existsb_outside in Eo. rewrite (all_some_outside _ _ Eo).
    reflexivity.
  - destruct (forallb is_int rs) eqn:Ei.
    + rewrite (Int64_value_exact _ Ei), all_some_map. reflexivity.
    + apply Int64_value_inexact, Eo.
Qed.

Lemma to_Int64_ok (col : string) (rs : list coerced) (vs : list (option Z)) :
  to_Int64 col rs = Ok vs <-> column_Int64 rs = Some vs.
Proof.
  rewrite to_Int64_column. destruct (column_Int64 rs); split; intros E;
    congruence.
Qed.

Lemma column_Int64_length (rs : list coerced) (vs : list (option Z)) :
  column_Int64 rs = Some vs -> List.length vs = List.length rs.
Proof.
  unfold column_Int64. intros H. apply all_some_length in H.
  rewrite length_map in H. exact H.
Qed.

(** *** Assigning a column *)

Lemma set_nth_with_cell (p : nat) (x : cell) (r : list cell) :
  (p < List.length r)%nat -> set_nth p x r = with_cell p x r.
Proof.
  unfold with_cell. revert p. induction r as [|a r IH]; intros [|p]; simpl;
    intros H; try lia; [reflexivity|].
  rewrite IH by lia. reflexivity.
Qed.

Lemma assign_length (p : nat) (vs : list (option Z)) (rs : list (list cell)) :
  List.length vs = List.length rs ->
  List.length (assign p vs rs) = List.length rs.
Proof.
  intros H. unfold assign. rewrite length_map, length_combine. lia.
Qed.

Lemma assign_cons (p : nat) (v : option Z) (vs : list (option Z))
    (r : list cell) (rs : list (list cell)) :
  assign p (v :: vs) (r :: rs) = set_nth p (Int64_cell v) r :: assign p vs rs.
Proof. reflexivity. Qed.

Lemma assign_other (p q : nat) (vs : list (option Z)) (rs : list (list cell)) :
  p <> q -> List.length vs = List.length rs ->
  map (fun r => nth q r None) (assign p vs rs) =
  map (fun r => nth q r None) rs.
Proof.
  intros Hpq. revert vs. induction rs as [|r rs IH]; intros [|v vs] H;
    simpl in H; try discriminate; [reflexivity|].
  rewrite assign_cons. simpl. rewrite nth_set_nth_other by exact Hpq.
  rewrite IH by lia. reflexivity.
Qed.

Lemma assign_In (p : nat) (vs : list (option Z)) (rs : list (list cell))
    (r' : list cell) :
  In r' (assign p vs rs) ->
  exists r v, In r rs /\ r' = set_nth p (Int64_cell v) r.
Proof.
  unfold assign. intros H. apply in_map_iff in H.
  destruct H as ([r v] & <- & H). apply in_combine_l in H.
  exists r, v. auto.
Qed.

Lemma assign_twice_In (pc pv : nat) (cs vs : list (option Z))
    (rs : list (list cell)) (r : list cell) :
  In r (assign pv vs (assign pc cs rs)) ->
  exists src c v,
    In src rs /\
    r = set_nth pv (Int64_cell v) (set_nth pc (Int64_cell c) src).
Proof.
  intros H. apply assign_In in H. destruct H as (r1 & v & H1 & ->).
  apply assign_In in H1. destruct H1 as (src & c & Hsrc & ->).
  exists src, c, v. auto.
Qed.

Lemma assign_twice (pc pv : nat) (cs vs : list (option Z))
    (rs : list (list cell)) :
  Forall (fun r => (pc < List.length r)%nat /\ (pv < List.length r)%nat) rs ->
  List.length cs = List.length rs -> List.length vs = List.length rs ->
  assign pv vs (assign pc cs rs) =
  map (fun x =>
         with_cell pv (Int64_cell (snd (snd x)))
           (with_cell pc (Int64_cell (fst (snd x))) (fst x)))
    (combine rs (combine cs vs)).
Proof.
  intros H. revert cs vs.
  induction H as [|r rs [Hc Hv] _ IH]; intros [|c cs] [|v vs] Hcs Hvs;
    simpl in Hcs, Hvs; try discriminate; [reflexivity|].
  rewrite !assign_cons. simpl. f_equal; [|apply IH; lia].
  rewrite <- (@set_nth_with_cell pc (Int64_cell c) r Hc).
  apply set_nth_with_cell. rewrite length_set_nth. exact Hv.
Qed.

Section Normalize.
Context {rt : Runtime}.

Lemma readings_assign (p q : nat) (vs : list (option Z))
    (rs : list (list cell)) :
  p <> q -> List.length vs = List.length rs ->
  readings q (assign p vs rs) = readings q rs.
Proof.
  intros Hpq Hl. unfold readings.
  rewrite <- (map_map (fun r => nth q r None) to_numeric_Int64).
  rewrite (assign_other vs rs Hpq Hl), map_map. reflexivity.
Qed.

Lemma coerce_column_ok (col : string) (df df' : frame) :
  coerce_column col df = Ok df' ->
  exists p vs,
    positions col (columns df) = [p] /\
    column_Int64 (readings p (rows df)) = Some vs /\
    df' = {| columns := columns df; rows := assign p vs (rows df) |}.
Proof.
  unfold coerce_column. intros E.
  apply bind_ok_inv in E. destruct E as (p & Hp & E).
  apply bind_ok_inv in E. destruct E as (vs & Hvs & E).
  injection E as <-. exists p, vs. split; [apply the_column_ok, Hp|].
  split; [|reflexivity]. apply to_Int64_ok in Hvs. exact Hvs.
Qed.

Lemma coerce_column_total (col : string) (df : frame) (p : nat)
    (vs : list (option Z)) :
  positions col (columns df) = [p] ->
  column_Int64 (readings p (rows df)) = Some vs ->
  coerce_column col df =
  Ok {| columns := columns df; rows := assign p vs (rows df) |}.
Proof.
  intros Hp Hvs. apply the_column_ok in Hp. apply (to_Int64_ok col) in Hvs.
  unfold coerce_column. rewrite Hp. simpl.
  unfold readings in Hvs. rewrite Hvs. reflexivity.
Qed.

Lemma keyed_ok (pb pc pv : nat) (r : list cell) (kr : sort_key * list cell) :
  keyed pb pc pv r = Ok kr ->
  kr = (row_key pb pc pv r, r) /\ book_is_text (nth pb r None).
Proof.
  unfold keyed. intros E. apply bind_ok_inv in E.
  destruct E as (b & Hb & E). apply book_key_ok in Hb. destruct Hb as [-> Hb].
  injection E as <-. auto.
Qed.

(** What a successful run of the normaliser did. *)
Lemma normalize_ok (df out : frame) :
  normalize df = Ok out ->
  exists pb pc pv cs vs body,
    positions "book" (columns df) = [pb] /\
    positions "chapter" (columns df) = [pc] /\
    positions "verse" (columns df) = [pv] /\
    column_Int64 (readings pc (rows df)) = Some cs /\
    column_Int64 (readings pv (rows df)) = Some vs /\
    Permutation body (assign pv vs (assign pc cs (rows df))) /\
    StronglySorted
      (fun r1 r2 => verse_order (row_key pb pc pv r1) (row_key pb pc pv r2))
      body /\
    Forall (fun r => book_is_text (nth pb r None)) (rows df) /\
    out = {| columns := "id" :: columns df; rows := with_ids body |}.
Proof.
  unfold normalize. intros E.
  apply bind_ok_inv in E. destruct E as (df1 & H1 & E).
  apply bind_ok_inv in E. destruct E as (df2 & H2 & E).
  apply bind_ok_inv in E. destruct E as (df3 & H3 & E).
  apply coerce_column_ok in H1. destruct H1 as (pc & cs & Hpc & Hcs & ->).
  apply coerce_column_ok in H2. simpl in H2.
  destruct H2 as (pv & vs & Hpv & Hvs & ->).
  assert (Hcv : pc <> pv).
  { eapply positions_distinct; [| exact Hpc | exact Hpv]; discriminate. }
  pose proof (column_Int64_length _ Hcs) as Hlc.
  unfold readings in Hlc. rewrite length_map in Hlc.
  rewrite (readings_assign cs (rows df) Hcv Hlc) in Hvs.
  pose proof (column_Int64_length _ Hvs) as Hlv.
  unfold readings in Hlv. rewrite length_map in Hlv.
  unfold sort_values in H3. simpl in H3.
  apply bind_ok_inv in H3. destruct H3 as (pb & Hpb & H3).
  apply bind_ok_inv in H3. destruct H3 as (pc' & Hpc' & H3).
  apply bind_ok_inv in H3. destruct H3 as (pv' & Hpv' & H3).
  apply bind_ok_inv in H3. destruct H3 as (krs & Hkrs & H3).
  apply the_column_ok in Hpb, Hpc', Hpv'. simpl in Hpb, Hpc', Hpv'.
  assert (pc' = pc) by congruence. assert (pv' = pv) by congruence. subst.
  injection H3 as <-.
  unfold insert_id in E. simpl in E.
  destruct (mem "id" (columns df)); [discriminate|]. injection E as <-.
  set (conv := assign pv vs (assign pc cs (rows df))) in *.
  assert (Ek : krs = map (fun r => (row_key pb pc pv r, r)) conv).
  { eapply map_result_map; [|exact Hkrs].
    intros a b H. apply keyed_ok in H. tauto. }
  assert (Hbook : Forall (fun r => book_is_text (nth pb r None)) conv).
  { eapply map_result_Forall; [|exact Hkrs].
    intros a b H. apply keyed_ok in H. tauto. }
  exists pb, pc, pv, cs, vs, (map snd (stable_sort krs)).
  repeat split; try assumption.
  - rewrite (Permutation_map snd (stable_sort_perm krs)), Ek, map_map.
    simpl. rewrite map_id. reflexivity.
  - apply StronglySorted_map_snd; [apply stable_sort_sorted|].
    apply (Permutation_Forall (Permutation_sym (stable_sort_perm krs))).
    rewrite Ek. apply Forall_map. apply Forall_forall. intros; reflexivity.
  - assert (Hcb : pc <> pb).
    { eapply positions_distinct; [| exact Hpc | exact Hpb]; discriminate. }
    assert (Hvb : pv <> pb).
    { eapply positions_distinct; [| exact Hpv | exact Hpb]; discriminate. }
    assert (Hlv' : List.length vs = List.length (assign pc cs (rows df))).
    { rewrite assign_length by exact Hlc. exact Hlv. }
    assert (Hb : map (fun r => nth pb r None) conv =
                 map (fun r => nth pb r None) (rows df)).
    { unfold conv.
      rewrite (assign_other vs (assign pc cs (rows df)) Hvb Hlv').
      apply (assign_other cs (rows df) Hcb Hlc). }
    rewrite <- (Forall_map (fun r => nth pb r None) book_is_text) in Hbook.
    rewrite Hb in Hbook. rewrite Forall_map in Hbook. exact Hbook.
Qed.

Lemma normalize_length (df out : frame) :
  normalize df = Ok out -> List.length (rows out) = List.length (rows df).
Proof.
  intros E. apply normalize_ok in E.
  destruct E as (pb & pc & pv & cs & vs & body & _ & _ & _ & Hcs & Hvs &
                 Hperm & _ & _ & ->).
  apply column_Int64_length in Hcs, Hvs. unfold readings in Hcs, Hvs.
  rewrite length_map in Hcs, Hvs. simpl.
  rewrite with_ids_length, (Permutation_length Hperm).
  rewrite assign_length; [apply assign_length, Hcs|].
  rewrite assign_length by exact Hcs. exact Hvs.
Qed.

(** When the normaliser succeeds. *)
Lemma normalize_total (df : frame) (pb pc pv : nat) (cs vs : list (option Z)) :
  positions "book" (columns df) = [pb] ->
  positions "chapter" (columns df) = [pc] ->
  positions "verse" (columns df) = [pv] ->
  mem "id" (columns df) = false ->
  column_Int64 (readings pc (rows df)) = Some cs ->
  column_Int64 (readings pv (rows df)) = Some vs ->
  Forall (fun r => book_is_text (nth pb r None)) (rows df) ->
  normalize df =
  Ok {| columns := "id" :: columns df;
        rows := with_ids
                  (map snd
                     (stable_sort
                        (map (fun r => (row_key pb pc pv r, r))
                           (assign pv vs (assign pc cs (rows df)))))) |}.
Proof.
  intros Hpb Hpc Hpv Hid Hcs Hvs Hb.
  assert (Hcv : pc <> pv).
  { eapply positions_distinct; [| exact Hpc | exact Hpv]; discriminate. }
  pose proof (column_Int64_length _ Hcs) as Hlc.
  unfold readings in Hlc. rewrite length_map in Hlc.
  pose proof (column_Int64_length _ Hvs) as Hlv.
  unfold readings in Hlv. rewrite length_map in Hlv.
  unfold normalize. rewrite (coerce_column_total "chapter" df Hpc Hcs).
  simpl.
  rewrite (@coerce_column_total "verse"
             {| columns := columns df; rows := assign pc cs (rows df) |}
             pv vs Hpv).
  2:{ simpl. rewrite readings_assign by assumption. exact Hvs. }
  simpl. apply the_column_ok in Hpb, Hpc, Hpv.
  unfold sort_values, the_column in *. simpl. rewrite Hpb, Hpc, Hpv. simpl.
  rewrite (map_result_total _ (fun r => (row_key pb pc pv r, r))).
  2:{ intros r Hr. unfold keyed.
      assert (Hbr : book_is_text (nth pb r None)).
      { assert (Hcb : pc <> pb).
        { apply the_column_ok in Hpb, Hpc.
          eapply positions_distinct; [| exact Hpc | exact Hpb]; discriminate. }
        assert (Hvb : pv <> pb).
        { apply the_column_ok in Hpb, Hpv.
          eapply positions_distinct; [| exact Hpv | exact Hpb]; discriminate. }
        assert (Hlv' : List.length vs = List.length (assign pc cs (rows df))).
        { rewrite assign_length by exact Hlc. exact Hlv. }
        assert (Hm : Forall book_is_text
                       (map (fun r => nth pb r None)
                          (assign pv vs (assign pc cs (rows df))))).
        { rewrite (assign_other vs (assign pc cs (rows df)) Hvb Hlv').
          rewrite (assign_other cs (rows df) Hcb Hlc).
          apply Forall_map. exact Hb. }
        rewrite Forall_map, Forall_forall in Hm. apply Hm, Hr. }
      rewrite (book_key_text _ Hbr). reflexivity. }
  simpl. unfold insert_id. simpl. rewrite Hid. reflexivity.
Qed.

End Normalize.

(** ** The whole run *)

Lemma bind_raise_inv (A B : Type) (r : result A) (k : A -> result B)
    (e : exn) :
  (x <- r ;; k x) = Raise e ->
  r = Raise e \/ exists a, r = Ok a /\ k a = Raise e.
Proof.
  destruct r as [a|e']; simpl; intros E; [right; eauto | left; congruence].
Qed.

Lemma DataFrame_rectangular (ds : list pydict) : rectangular (DataFrame ds).
Proof.
  unfold rectangular, DataFrame. simpl. apply Forall_map.
  apply Forall_forall. intros d _. apply length_map.
Qed.

Lemma select_rectangular (labels : list string) (df : frame) :
  rectangular (select labels df).
Proof.
  unfold rectangular, select. simpl. apply Forall_map.
  apply Forall_forall. intros r _. rewrite !length_map. reflexivity.
Qed.

Lemma flatten_from_list_ok (l : list json) (df : frame) :
  flatten_from_list l = Ok df ->
  exists ds,
    l = list_shaped ds /\ missing_fields ds = [] /\
    df = select ["book"; "chapter"; "verse"; "text"]
           {| columns := resolved_fields ds; rows := rows (DataFrame ds) |}.
Proof.
  intros E. destruct (list_of_dicts l) as [ds|e] eqn:El.
  - apply list_of_dicts_ok in El. subst l. exists ds.
    rewrite flatten_from_list_list_shaped in E.
    destruct (missing_fields ds); [|discriminate].
    injection E as <-. auto.
  - unfold flatten_from_list in E. rewrite El in E. discriminate.
Qed.

Lemma flatten_from_list_raise (l : list json) (e : exn) :
  flatten_from_list l = Raise e ->
  e = OutsideModel NotListOfDicts \/
  exists ds, l = list_shaped ds /\ missing_fields ds <> [] /\
             e = MissingRequiredFields (missing_fields ds) (resolved_fields ds).
Proof.
  intros E. destruct (list_of_dicts l) as [ds|e'] eqn:El.
  - apply list_of_dicts_ok in El. subst l. right. exists ds.
    rewrite flatten_from_list_list_shaped in E.
    destruct (missing_fields ds) eqn:Em; [discriminate|].
    injection E as <-. repeat split; congruence.
  - left. unfold flatten_from_list in E. rewrite El in E. simpl in E.
    injection E as <-. clear -El. revert e' El.
    induction l as [|x l IH]; simpl; intros e' El; [discriminate|].
    destruct x; try (injection El as <-; reflexivity).
    destruct (list_of_dicts l) as [ds|e'']; simpl in El; [discriminate|].
    injection El as <-. apply IH. reflexivity.
Qed.

Lemma flatten_from_list_nonempty (l : list json) (df : frame) :
  flatten_from_list l = Ok df -> l <> [] /\ rows df <> [].
Proof.
  intros E. apply flatten_from_list_ok in E.
  destruct E as (ds & -> & Hm & ->).
  destruct ds as [|d ds]; [discriminate|].
  split; simpl; discriminate.
Qed.

Section MainFacts.
Context {rt : Runtime}.

Lemma main_finish (w : world) (data : json) :
  input_json w = Some data -> main w = finish w (detect_and_flatten data).
Proof.
  intros Hw. unfold main, finish, written. rewrite Hw. reflexivity.
Qed.

Lemma main_ok (w w' : world) :
  main w = (Ok tt, w') ->
  exists data df out,
    input_json w = Some data /\ detect_and_flatten data = Ok df /\
    normalize df = Ok out /\ w' = written w out.
Proof.
  unfold main. destruct (input_json w) as [data|] eqn:Hw; [|discriminate].
  destruct (detect_and_flatten data) as [df|e] eqn:Hf; simpl;
    [|discriminate].
  destruct (normalize df) as [out|e] eqn:Hn; [|discriminate].
  intros E. injection E as <-. exists data, df, out. repeat split; auto.
  unfold written. rewrite Hw. reflexivity.
Qed.

(** Whatever is raised, nothing is written. *)
Lemma main_raise (w w' : world) (e : exn) :
  main w = (Raise e, w') -> w' = w.
Proof.
  unfold main. destruct (input_json w) as [data|].
  - destruct (_ <- detect_and_flatten data ;; _); intros E;
      [discriminate | congruence].
  - congruence.
Qed.

Lemma flatten_from_nested_raise (d : pydict) (e : exn) :
  flatten_from_nested d = Raise e ->
  e = EmptyFlattenResult \/ exists label, e = CoercionFailure label.
Proof.
  rewrite flatten_from_nested_leaves. intros E.
  apply bind_raise_inv in E. destruct E as [E|(rs & _ & E)].
  - apply map_result_raise_inv in E. destruct E as (l & _ & E).
    apply leaf_record_raise in E. destruct E as (label & -> & _). eauto.
  - destruct (is_empty rs); [|discriminate]. injection E as <-. auto.
Qed.

Lemma flatten_from_nested_rectangular (d : pydict) (df : frame) :
  flatten_from_nested d = Ok df -> rectangular df.
Proof.
  rewrite flatten_from_nested_leaves. intros E.
  apply bind_ok_inv in E. destruct E as (rs & _ & E).
  destruct (is_empty rs); [discriminate|]. injection E as <-.
  apply DataFrame_rectangular.
Qed.

Lemma detect_and_flatten_rectangular (data : json) (df : frame) :
  detect_and_flatten data = Ok df -> rectangular df.
Proof.
  destruct data; simpl; try discriminate.
  - intros E. apply flatten_from_list_ok in E.
    destruct E as (ds & _ & _ & ->). apply select_rectangular.
  - apply flatten_from_nested_rectangular.
Qed.

Lemma the_column_raise (col : string) (df : frame) (e : exn) :
  the_column col df = Raise e -> exists pe, e = PandasError pe.
Proof.
  unfold the_column.
  destruct (positions col (columns df)) as [|p [|q l]]; intros E;
    try discriminate; injection E as <-; eauto.
Qed.

Lemma to_Int64_raise (col : string) (rs : list coerced) (e : exn) :
  to_Int64 col rs = Raise e ->
  column_Int64 rs = None /\
  (e = PandasError (UnsafeCast col) \/ e = OutsideModel NumeralNotRead).
Proof.
  rewrite to_Int64_column. destruct (column_Int64 rs); [discriminate|].
  intros E. injection E as <-. split; [reflexivity|].
  destruct (existsb is_outside rs); auto.
Qed.

Lemma coerce_column_raise (col : string) (df : frame) (e : exn) :
  coerce_column col df = Raise e ->
  (exists pe, e = PandasError pe) \/ e = OutsideModel NumeralNotRead.
Proof.
  unfold coerce_column. intros E.
  apply bind_raise_inv in E. destruct E as [E|(p & _ & E)].
  - left. eapply the_column_raise, E.
  - apply bind_raise_inv in E. destruct E as [E|(rs & _ & E)];
      [|discriminate].
    apply to_Int64_raise in E. destruct E as [_ [-> | ->]]; eauto.
Qed.

Lemma normalize_raise (df : frame) (e : exn) :
  normalize df = Raise e ->
  (exists pe, e = PandasError pe) \/ exists why, e = OutsideModel why.
Proof.
  unfold normalize. intros E.
  apply bind_raise_inv in E. destruct E as [E|(df1 & _ & E)].
  { apply coerce_column_raise in E. destruct E as [E | ->]; eauto. }
  apply bind_raise_inv in E. destruct E as [E|(df2 & _ & E)].
  { apply coerce_column_raise in E. destruct E as [E | ->]; eauto. }
  apply bind_raise_inv in E. destruct E as [E|(df3 & _ & E)].
  - unfold sort_values in E.
    apply bind_raise_inv in E. destruct E as [E|(pb & _ & E)];
      [left; eapply the_column_raise, E|].
    apply bind_raise_inv in E. destruct E as [E|(pc & _ & E)];
      [left; eapply the_column_raise, E|].
    apply bind_raise_inv in E. destruct E as [E|(pv & _ & E)];
      [left; eapply the_column_raise, E|].
    apply bind_raise_inv in E. destruct E as [E|(krs & _ & E)];
      [|discriminate].
    apply map_result_raise_inv in E. destruct E as (r & _ & E).
    unfold keyed in E. apply bind_raise_inv in E.
    destruct E as [E|(b & _ & E)]; [|discriminate].
    right. exists BookNotText.
    destruct (nth pb r None) as [[| | | | | |]|]; simpl in E;
      try discriminate; injection E as <-; reflexivity.
  - unfold insert_id in E. destruct (mem "id" (columns df3));
      [|discriminate]. injection E as <-. left. eauto.
Qed.

Lemma rectangular_bounds (df : frame) (c c' : string) (p p' : nat) :
  rectangular df ->
  positions c (columns df) = [p] -> positions c' (columns df) = [p'] ->
  Forall (fun r => (p < List.length r)%nat /\ (p' < List.length r)%nat)
    (rows df).
Proof.
  intros Hrect Hp Hp'. eapply Forall_impl; [|exact Hrect].
  intros r Hr. cbv beta in Hr. rewrite Hr.
  split; eapply positions_bound; eassumption.
Qed.

(** A successful run in the terms of the specification: the rows of the
    result are the converted rows in order. *)
Lemma normalize_converted (df out : frame) :
  rectangular df -> normalize df = Ok out ->
  exists pb pc pv conv body,
    positions "book" (columns df) = [pb] /\
    positions "chapter" (columns df) = [pc] /\
    positions "verse" (columns df) = [pv] /\
    converted_rows pc pv (rows df) = Some conv /\
    Permutation body conv /\
    StronglySorted
      (fun r1 r2 => verse_order (row_key pb pc pv r1) (row_key pb pc pv r2))
      body /\
    out = {| columns := "id" :: columns df; rows := with_ids body |}.
Proof.
  intros Hrect E. apply normalize_ok in E.
  destruct E as (pb & pc & pv & cs & vs & body & Hpb & Hpc & Hpv & Hcs & Hvs &
                 Hperm & Hsort & _ & ->).
  exists pb, pc, pv, (assign pv vs (assign pc cs (rows df))), body.
  repeat split; try assumption.
  unfold converted_rows. rewrite Hcs, Hvs. f_equal. symmetry.
  apply column_Int64_length in Hcs, Hvs. unfold readings in Hcs, Hvs.
  rewrite length_map in Hcs, Hvs.
  apply assign_twice; try assumption.
  eapply rectangular_bounds; eassumption.
Qed.

(** The converse: the normaliser returns whenever the labels are unique, both
    casts take their column and the book cells are text. *)
Lemma normalize_returns (df : frame) (pb pc pv : nat)
    (conv : list (list cell)) :
  positions "book" (columns df) = [pb] ->
  positions "chapter" (columns df) = [pc] ->
  positions "verse" (columns df) = [pv] ->
  mem "id" (columns df) = false ->
  converted_rows pc pv (rows df) = Some conv ->
  Forall (fun r => book_is_text (nth pb r None)) (rows df) ->
  exists out, normalize df = Ok out.
Proof.
  intros Hpb Hpc Hpv Hid Hconv Hb. unfold converted_rows in Hconv.
  destruct (column_Int64 (readings pc (rows df))) as [cs|] eqn:Hcs;
    [|discriminate].
  destruct (column_Int64 (readings pv (rows df))) as [vs|] eqn:Hvs;
    [|discriminate].
  rewrite (normalize_total df Hpb Hpc Hpv Hid Hcs Hvs Hb). eauto.
Qed.

End MainFacts.

(** ** What the column selection keeps *)

Lemma map_flat_map (A B C : Type) (f : B -> C) (g : A -> list B) (l : list A) :
  map f (flat_map g l) = flat_map (fun x => map f (g x)) l.
Proof.
  induction l as [|x l IH]; simpl; [reflexivity|].
  rewrite map_app, IH. reflexivity.
Qed.

(** Picking the cells at the positions of a label is picking the cells of
    the fields that resolve to it. *)
Lemma positions_from_pick (B : Type) (g : string -> B) (dflt : B) (c : string)
    (f : string -> string) (keys : list string) (pre : list B) :
  map (fun p => nth p (pre ++ map g keys) dflt)
    (positions_from (List.length pre) c (map f keys)) =
  map g (filter (fun k => String.eqb c (f k)) keys).
Proof.
  revert pre. induction keys as [|k ks IH]; intros pre; simpl; [reflexivity|].
  assert (Htail :
    map (fun p => nth p (pre ++ g k :: map g ks) dflt)
      (positions_from (S (List.length pre)) c (map f ks)) =
    map g (filter (fun k => String.eqb c (f k)) ks)).
  { specialize (IH (pre ++ [g k])).
    rewrite length_app, Nat.add_1_r, <- app_assoc in IH. exact IH. }
  destruct (String.eqb c (f k)); simpl; [|exact Htail].
  rewrite Htail. f_equal.
  rewrite app_nth2 by lia. rewrite Nat.sub_diag. reflexivity.
Qed.

Lemma positions_pick (B : Type) (g : string -> B) (dflt : B) (c : string)
    (f : string -> string) (keys : list string) :
  map (fun p => nth p (map g keys) dflt) (positions c (map f keys)) =
  map g (filter (fun k => String.eqb c (f k)) keys).
Proof. exact (positions_from_pick g dflt c f keys []). Qed.

Lemma select_canonical_table (ds : list pydict) :
  select ["book"; "chapter"; "verse"; "text"]
    {| columns := resolved_fields ds; rows := rows (DataFrame ds) |} =
  canonical_table ds.
Proof.
  unfold select, canonical_table, resolved_fields, fields_for, DataFrame.
  cbn [columns rows]. f_equal.
  - rewrite map_flat_map. apply flat_map_ext. intros c.
    apply positions_pick.
  - rewrite map_map. apply map_ext. intros d.
    rewrite map_flat_map. apply flat_map_ext. intros c.
    apply (positions_pick (fun k => stored k ds d)).
Qed.

(** The flattener on a list of records, in full. *)
Lemma flatten_from_list_table (ds : list pydict) :
  flatten_from_list (list_shaped ds) =
  match missing_fields ds with
  | _ :: _ =>
      Raise (MissingRequiredFields (missing_fields ds) (resolved_fields ds))
  | [] => Ok (canonical_table ds)
  end.
Proof.
  rewrite flatten_from_list_list_shaped, select_canonical_table. reflexivity.
Qed.

Lemma fields_for_canonical (c : string) (ds : list pydict) (k : string) :
  In k (fields_for c ds) <-> In k (all_keys ds) /\ canonical k = c.
Proof.
  unfold fields_for. rewrite filter_In, String.eqb_eq. split.
  - intros [H E]. auto.
  - intros [H E]. auto.
Qed.

Lemma fields_for_labels (c : string) (ds : list pydict) :
  map canonical (fields_for c ds) = repeat c (List.length (fields_for c ds)).
Proof.
  assert (H : forall l, (forall k, In k l -> canonical k = c) ->
                        map canonical l = repeat c (List.length l)).
  { induction l as [|k l IH]; simpl; intros Hl; [reflexivity|].
    rewrite (Hl k (or_introl eq_refl)), IH by auto. reflexivity. }
  apply H. intros k Hk. apply fields_for_canonical in Hk. tauto.
Qed.

Lemma missing_fields_nil (ds : list pydict) :
  missing_fields ds = [] <->
  forall c, In c required -> fields_for c ds <> [].
Proof.
  split.
  - intros Hm c Hc Hf.
    assert (Hin : ~ In c (missing_fields ds)) by (rewrite Hm; simpl; tauto).
    apply Hin. apply missing_fields_spec. split; [exact Hc|].
    unfold resolved_fields. intros H. apply in_map_iff in H.
    destruct H as (k & Hk & Hin').
    assert (Hkf : In k (fields_for c ds))
      by (apply fields_for_canonical; auto).
    rewrite Hf in Hkf. contradiction.
  - intros H. destruct (missing_fields ds) as [|c cs] eqn:Em; [reflexivity|].
    exfalso.
    assert (Hc : In c (missing_fields ds)) by (rewrite Em; left; reflexivity).
    apply missing_fields_spec in Hc. destruct Hc as [Hreq Hno].
    destruct (fields_for c ds) as [|k ks] eqn:Ef; [exact (H c Hreq Ef)|].
    assert (Hk : In k (fields_for c ds)) by (rewrite Ef; left; reflexivity).
    apply fields_for_canonical in Hk. destruct Hk as [Hk Hc].
    apply Hno. unfold resolved_fields. rewrite <- Hc. apply in_map. exact Hk.
Qed.

Lemma flatten_from_list_unique (ds : list pydict) (kb kc kv kt : string) :
  fields_for "book" ds = [kb] -> fields_for "chapter" ds = [kc] ->
  fields_for "verse" ds = [kv] -> fields_for "text" ds = [kt] ->
  flatten_from_list (list_shaped ds) =
  Ok (verse_table
        (map (fun d => [stored kb ds d; stored kc ds d; stored kv ds d;
                        stored kt ds d]) ds)).
Proof.
  intros Hb Hc Hv Ht. rewrite flatten_from_list_table.
  assert (Hm : missing_fields ds = []).
  { apply missing_fields_nil. intros c Hin. simpl in Hin.
    destruct Hin as [<-|[<-|[<-|[<-|[]]]]]; congruence. }
  rewrite Hm. unfold canonical_table, verse_table.
  cbn [required flat_map]. rewrite Hb, Hc, Hv, Ht. simpl. f_equal. f_equal.
  assert (Hk : forall c k, fields_for c ds = [k] -> canonical k = c).
  { intros c k E. apply (proj1 (fields_for_canonical c ds k)).
    rewrite E. left. reflexivity. }
  rewrite (Hk _ _ Hb), (Hk _ _ Hc), (Hk _ _ Hv), (Hk _ _ Ht). reflexivity.
Qed.

Lemma positions_from_length (i : nat) (c : string) (cols : list string) :
  List.length (positions_from i c cols) = count_occ string_dec cols c.
Proof.
  revert i. induction cols as [|c' cols IH]; intros i; simpl; [reflexivity|].
  destruct (string_dec c' c) as [->|Hne].
  - rewrite String.eqb_refl. simpl. rewrite IH. reflexivity.
  - destruct (String.eqb c c') eqn:E.
    + apply String.eqb_eq in E. congruence.
    + apply IH.
Qed.

Lemma count_occ_repeat (c c' : string) (n : nat) :
  count_occ string_dec (repeat c' n) c = if String.eqb c c' then n else 0%nat.
Proof.
  induction n as [|n IH]; simpl.
  - destruct (String.eqb c c'); reflexivity.
  - destruct (string_dec c' c) as [->|Hne].
    + rewrite String.eqb_refl in *. rewrite IH. reflexivity.
    + destruct (String.eqb c c') eqn:E; [|exact IH].
      apply String.eqb_eq in E. congruence.
Qed.

(** How often a label heads a column of the table. *)
Lemma canonical_table_count (ds : list pydict) (c : string) :
  In c required ->
  List.length (positions c (columns (canonical_table ds))) =
  List.length (fields_for c ds).
Proof.
  intros Hc. unfold positions. rewrite positions_from_length.
  unfold canonical_table. cbn [columns required flat_map].
  rewrite !fields_for_labels, app_nil_r, !count_occ_app, !count_occ_repeat.
  simpl in Hc. destruct Hc as [<-|[<-|[<-|[<-|[]]]]]; simpl; lia.
Qed.

Lemma canonical_table_rectangular (ds : list pydict) :
  rectangular (canonical_table ds).
Proof.
  unfold rectangular, canonical_table. cbn [columns rows].
  apply Forall_map. apply Forall_forall. intros d _.
  rewrite !flat_map_concat_map, !length_concat, !map_map.
  f_equal. apply map_ext. intros c. rewrite !length_map. reflexivity.
Qed.




(** ** The converted rows *)

Lemma length_with_cell (p : nat) (x : cell) (r : list cell) :
  (p < List.length r)%nat -> List.length (with_cell p x r) = List.length r.
Proof.
  intros H. rewrite <- (@set_nth_with_cell p x r H). apply length_set_nth.
Qed.

Lemma nth_with_cell_same (p : nat) (x : cell) (r : list cell) :
  (p < List.length r)%nat -> nth p (with_cell p x r) None = x.
Proof.
  intros H. rewrite <- (@set_nth_with_cell p x r H). apply nth_set_nth_same, H.
Qed.

Lemma nth_with_cell_other (p q : nat) (x : cell) (r : list cell) :
  (p < List.length r)%nat -> p <> q ->
  nth q (with_cell p x r) None = nth q r None.
Proof.
  intros H Hpq. rewrite <- (@set_nth_with_cell p x r H).
  apply nth_set_nth_other, Hpq.
Qed.

Lemma all_some_map_Forall2 (A B : Type) (f : A -> option B) (l : list A)
    (l' : list B) :
  all_some (map f l) = Some l' <-> Forall2 (fun a b => f a = Some b) l l'.
Proof.
  rewrite all_some_Forall2. split.
  - revert l'. induction l as [|a l IH]; intros l' H; inversion H; subst;
      constructor; auto.
  - intros H. induction H; simpl; constructor; auto.
Qed.

Lemma all_some_map_none (A B : Type) (f : A -> option B) (l : list A) :
  all_some (map f l) = None -> exists a, In a l /\ f a = None.
Proof.
  induction l as [|a l IH]; simpl; [discriminate|].
  destruct (f a) as [b|] eqn:Ea; [|intros _; exists a; auto].
  destruct (all_some (map f l)); [discriminate|].
  intros _. destruct (IH eq_refl) as (a' & Ha' & E). exists a'. auto.
Qed.


Lemma Forall2_combine3 (A B C D : Type) (R1 : A -> B -> Prop)
    (R2 : A -> C -> Prop) (f : A * (B * C) -> D) (l : list A) (bs : list B)
    (cs : list C) :
  Forall2 R1 l bs -> Forall2 R2 l cs ->
  Forall2
    (fun a d => exists b c, R1 a b /\ R2 a c /\ d = f (a, (b, c)))
    l (map f (combine l (combine bs cs))).
Proof.
  intros H1. revert cs. induction H1 as [|a b l bs Hab _ IH]; intros cs H2;
    inversion H2 as [|? c ? cs' Hac Hcs]; subst; simpl; constructor.
  - exists b, c. auto.
  - apply IH, Hcs.
Qed.

Lemma Int64_value_plain (exact : bool) (c : coerced) :
  plain_reading c -> Int64_value exact c = Some (int_value c).
Proof.
  intros [-> | (z & -> & Hz)]; [reflexivity|]. simpl.
  rewrite (whole_int64_exact Hz). destruct exact; reflexivity.
Qed.

Lemma column_Int64_plain (rs : list coerced) :
  Forall plain_reading rs -> column_Int64 rs = Some (map int_value rs).
Proof.
  intros H. unfold column_Int64. rewrite <- all_some_map. f_equal.
  apply map_ext_in. intros c Hc. rewrite Forall_forall in H.
  apply Int64_value_plain, H, Hc.
Qed.

Lemma column_Int64_none (rs : list coerced) :
  column_Int64 rs = None ->
  exists c,
    In c rs /\ c <> CNA /\ Int64_value (forallb is_int rs) c = None.
Proof.
  unfold column_Int64. intros H. apply all_some_map_none in H.
  destruct H as (c & Hc & E). exists c. repeat split; try assumption.
  intros ->. discriminate.
Qed.

Lemma column_Int64_ints (rs : list coerced) :
  forallb is_int rs = true -> column_Int64 rs = Some (map int_value rs).
Proof.
  intros H. unfold column_Int64.
  rewrite H, (Int64_value_exact _ H). apply all_some_map.
Qed.

Lemma column_Int64_refused (rs : list coerced) (c : coerced) :
  In c rs -> (forall exact, Int64_value exact c = None) ->
  column_Int64 rs = None.
Proof.
  intros Hin Hc. unfold column_Int64. generalize (forallb is_int rs) as b.
  intros b. induction rs as [|x rs IH]; simpl; [contradiction|].
  destruct Hin as [->|Hin]; [rewrite Hc; reflexivity|].
  rewrite (IH Hin). destruct (Int64_value b x); reflexivity.
Qed.

Section Converted.
Context {rt : Runtime}.

Lemma column_Int64_readings (p : nat) (rs : list (list cell))
    (cs : list (option Z)) :
  column_Int64 (readings p rs) = Some cs ->
  Forall2
    (fun src c =>
       Int64_value (exact_column p rs) (to_numeric_Int64 (nth p src None)) =
       Some c)
    rs cs.
Proof.
  unfold column_Int64, readings, exact_column. rewrite map_map.
  intros H. apply all_some_map_Forall2 in H. exact H.
Qed.

(** Every converted row is its source row with the two cells replaced by the
    Int64 values of what they read as. *)
Lemma converted_rows_inv (pc pv : nat) (rs conv : list (list cell)) :
  converted_rows pc pv rs = Some conv ->
  Forall2
    (fun src r =>
       exists c v,
         Int64_value (exact_column pc rs) (to_numeric_Int64 (nth pc src None)) =
         Some c /\
         Int64_value (exact_column pv rs) (to_numeric_Int64 (nth pv src None)) =
         Some v /\
         r = with_cell pv (Int64_cell v) (with_cell pc (Int64_cell c) src))
    rs conv.
Proof.
  unfold converted_rows.
  destruct (column_Int64 (readings pc rs)) as [cs|] eqn:Hcs; [|discriminate].
  destruct (column_Int64 (readings pv rs)) as [vs|] eqn:Hvs; [|discriminate].
  intros E. injection E as <-.
  apply column_Int64_readings in Hcs, Hvs.
  apply (Forall2_combine3
           (fun x => with_cell pv (Int64_cell (snd (snd x)))
                       (with_cell pc (Int64_cell (fst (snd x))) (fst x)))
           Hcs Hvs).
Qed.

Lemma converted_rows_length (pc pv : nat) (rs conv : list (list cell)) :
  converted_rows pc pv rs = Some conv -> List.length conv = List.length rs.
Proof.
  intros H. apply converted_rows_inv in H. symmetry.
  eapply Forall2_length, H.
Qed.

(** The cells of a converted row. *)
Lemma converted_cells (pc pv : nat) (c v : option Z) (src : list cell) :
  pc <> pv -> (pc < List.length src)%nat -> (pv < List.length src)%nat ->
  let r := with_cell pv (Int64_cell v) (with_cell pc (Int64_cell c) src) in
  nth pc r None = Int64_cell c /\ nth pv r None = Int64_cell v /\
  List.length r = List.length src /\
  forall q, q <> pc -> q <> pv -> nth q r None = nth q src None.
Proof.
  intros Hne Hc Hv r. unfold r.
  assert (Hv' : (pv < List.length (with_cell pc (Int64_cell c) src))%nat)
    by (rewrite length_with_cell; assumption).
  repeat split.
  - rewrite nth_with_cell_other by auto. apply nth_with_cell_same, Hc.
  - apply nth_with_cell_same, Hv'.
  - rewrite length_with_cell by exact Hv'. apply length_with_cell, Hc.
  - intros q Hqc Hqv. rewrite nth_with_cell_other by auto.
    apply nth_with_cell_other; auto.
Qed.

Lemma converted_rows_cells (pc pv : nat) (rs conv : list (list cell)) :
  pc <> pv ->
  Forall (fun r => (pc < List.length r)%nat /\ (pv < List.length r)%nat) rs ->
  converted_rows pc pv rs = Some conv ->
  Forall2
    (fun src r =>
       exists c v,
         Int64_value (exact_column pc rs) (to_numeric_Int64 (nth pc src None)) =
         Some c /\
         Int64_value (exact_column pv rs) (to_numeric_Int64 (nth pv src None)) =
         Some v /\
         nth pc r None = Int64_cell c /\ nth pv r None = Int64_cell v /\
         List.length r = List.length src /\
         forall q, q <> pc -> q <> pv -> nth q r None = nth q src None)
    rs conv.
Proof.
  intros Hne Hb Hconv. apply converted_rows_inv in Hconv.
  remember (exact_column pc rs) as ec eqn:Eec.
  remember (exact_column pv rs) as ev eqn:Eev. clear Eec Eev.
  induction Hconv as [|src r rs conv (c & v & Hc & Hv & ->) _ IH];
    constructor.
  - inversion Hb as [|? ? [Hlc Hlv] _]; subst.
    destruct (@converted_cells pc pv c v src Hne Hlc Hlv)
      as (H1 & H2 & H3 & H4).
    exists c, v. auto 7.
  - apply IH. inversion Hb; assumption.
Qed.

(** Columns of plain readings convert. *)
Lemma converted_rows_plain (pc pv : nat) (rs : list (list cell)) :
  Forall (fun r => plain_reading (to_numeric_Int64 (nth pc r None)) /\
                   plain_reading (to_numeric_Int64 (nth pv r None))) rs ->
  exists conv, converted_rows pc pv rs = Some conv.
Proof.
  intros H. unfold converted_rows.
  rewrite (column_Int64_plain (rs := readings pc rs)).
  2:{ unfold readings. apply Forall_map. eapply Forall_impl; [|exact H].
      intros r Hr. apply Hr. }
  rewrite (column_Int64_plain (rs := readings pv rs)).
  2:{ unfold readings. apply Forall_map. eapply Forall_impl; [|exact H].
      intros r Hr. apply Hr. }
  eauto.
Qed.

End Converted.

(** ** The claims on the list path and on the normaliser *)

Lemma in_with_ids (body : list (list cell)) (row : list cell) :
  In row (with_ids body) ->
  exists i r, row = Some (JInt (Z.of_nat i)) :: r /\ In r body.
Proof.
  unfold with_ids. intros H. apply in_map_iff in H.
  destruct H as ([i r] & <- & H). apply in_combine_r in H. eauto.
Qed.

Lemma text_lt_irrefl (x : option string) : ~ na_last_lt text_lt x x.
Proof.
  destruct x as [s|]; simpl; auto. unfold text_lt.
  rewrite (cmp_refl (cmp := String.compare)). discriminate.
Qed.

Lemma Z_lt_none (y : option Z) : ~ na_last_lt Z.lt None y.
Proof. destruct y; simpl; auto. Qed.

Lemma sorted_null_last_in_book (keys : list sort_key) :
  StronglySorted verse_order keys -> null_last_in_book k_chapter keys.
Proof.
  intros Hs i j a b Ha Hb Hbook Hnull Hreal.
  destruct (Nat.lt_trichotomy i j) as [Hlt|[->|Hgt]]; [|congruence|exact Hgt].
  exfalso. pose proof (StronglySorted_nth Hs Hlt Ha Hb) as Ho.
  destruct Ho as [Ho|[_ [Ho|[Ho _]]]].
  - rewrite Hbook in Ho. exact (@text_lt_irrefl _ Ho).
  - rewrite Hnull in Ho. exact (@Z_lt_none _ Ho).
  - congruence.
Qed.

Lemma sorted_null_verse_last_in_chapter (keys : list sort_key) :
  StronglySorted verse_order keys -> null_verse_last_in_chapter keys.
Proof.
  intros Hs i j a b Ha Hb Hbook Hchap Hnull Hreal.
  destruct (Nat.lt_trichotomy i j) as [Hlt|[->|Hgt]]; [|congruence|exact Hgt].
  exfalso. pose proof (StronglySorted_nth Hs Hlt Ha Hb) as Ho.
  destruct Ho as [Ho|[_ [Ho|[_ [Ho|Ho]]]]].
  - rewrite Hbook in Ho. exact (@text_lt_irrefl _ Ho).
  - rewrite Hchap in Ho. destruct (k_chapter b); simpl in Ho; [lia|auto].
  - rewrite Hnull in Ho. exact (@Z_lt_none _ Ho).
  - congruence.
Qed.

Lemma StronglySorted_map (A B : Type) (f : A -> B) (R : B -> B -> Prop)
    (l : list A) :
  StronglySorted (fun x y => R (f x) (f y)) l -> StronglySorted R (map f l).
Proof.
  induction 1 as [|x l Hl IH Hx]; simpl; constructor; auto.
  apply Forall_map. exact Hx.
Qed.

Section Claims.
Context {rt : Runtime}.

Lemma finish_raise (w : world) (flat : result frame) (e : exn) :
  fst (finish w flat) = Raise e ->
  flat = Raise e \/ exists df, flat = Ok df /\ normalize df = Raise e.
Proof.
  unfold finish. destruct flat as [df|e']; simpl.
  - destruct (normalize df) as [out|e'] eqn:En; simpl; [discriminate|].
    intros E. right. exists df. split; congruence.
  - intros E. left. congruence.
Qed.

(** C2. Whenever the normaliser returns a table, its rows are the rows of
    the input with the chapter and the verse column converted, every one of
    them, in the order of the specification: book ascending as text, then
    chapter, then verse ascending as numbers, a missing chapter or verse
    after all real ones; the id column is 0..N-1 in that final order and the
    other cells follow it.  It returns one whenever the three labels are
    unique, both columns convert and the book cells are text.  The records
    (B,2,1,x), (A,1,5,y), (A,1,1,z) become (A,1,1,z), (A,1,5,y), (B,2,1,x)
    with ids 0, 1, 2, and the chapters 10 and 9, given as text, come out as
    the numbers 9 and 10 in that order. *)
Theorem normalizer_order_and_ids :
  (forall df out,
     rectangular df -> normalize df = Ok out ->
     exists pb pc pv conv body,
       positions "book" (columns df) = [pb] /\
       positions "chapter" (columns df) = [pc] /\
       positions "verse" (columns df) = [pv] /\
       converted_rows pc pv (rows df) = Some conv /\
       Permutation body conv /\
       StronglySorted
         (fun r1 r2 => verse_order (row_key pb pc pv r1) (row_key pb pc pv r2))
         body /\
       columns out = "id" :: columns df /\
       map (fun r => nth 0 r None) (rows out) =
       id_cells (List.length (rows df)) /\
       map (@tl cell) (rows out) = body) /\
  (forall a b, key_leb a b = true <-> verse_order a b) /\
  (forall df pb pc pv conv,
     positions "book" (columns df) = [pb] ->
     positions "chapter" (columns df) = [pc] ->
     positions "verse" (columns df) = [pv] ->
     mem "id" (columns df) = false ->
     converted_rows pc pv (rows df) = Some conv ->
     Forall (fun r => book_is_text (nth pb r None)) (rows df) ->
     exists out, normalize df = Ok out) /\
  normalize (rt := cpython)
    (verse_table [verse_row "B" 2 1 "x"; verse_row "A" 1 5 "y";
                  verse_row "A" 1 1 "z"]) = Ok sort_example_table /\
  main (rt := cpython) (start (JList (list_shaped sort_example))) =
  (Ok tt, written (start (JList (list_shaped sort_example))) sort_example_table) /\
  main (rt := cpython) (start (JList (list_shaped numeric_order_example))) =
  (Ok tt,
   written (start (JList (list_shaped numeric_order_example)))
     numeric_order_table).
Proof.
  split.
  { intros df out Hrect E. apply (normalize_converted Hrect) in E.
    destruct E as (pb & pc & pv & conv & body & Hpb & Hpc & Hpv & Hconv &
                   Hperm & Hsort & ->).
    exists pb, pc, pv, conv, body. repeat split; try assumption.
    - simpl. rewrite with_ids_ids. unfold id_cells.
      rewrite (Permutation_length Hperm).
      unfold converted_rows in Hconv.
      destruct (column_Int64 (readings pc (rows df))) as [cs|] eqn:Hcs;
        [|discriminate].
      destruct (column_Int64 (readings pv (rows df))) as [vs|] eqn:Hvs;
        [|discriminate].
      injection Hconv as <-.
      apply column_Int64_length in Hcs, Hvs. unfold readings in Hcs, Hvs.
      rewrite length_map in Hcs, Hvs.
      rewrite length_map, !length_combine, Hcs, Hvs, !Nat.min_id.
      reflexivity.
    - simpl. apply with_ids_body. }
  split; [exact key_leb_verse_order|].
  split; [exact normalize_returns|].
  split; [reflexivity|]. split; reflexivity.
Qed.

(** C3. The root picks the flattener, once: a list goes to
    [flatten_from_list], a dict to [flatten_from_nested], and the rest of
    [main] works on what that one returned; any other root raises
    UnsupportedShape with the name of its type (NoneType for null, bool,
    int, float, str) and nothing is written; and UnsupportedShape is raised
    in no other case. *)
Theorem shape_dispatch :
  (forall w data,
     input_json w = Some data ->
     match data with
     | JList l => main w = finish w (flatten_from_list l)
     | JDict d => main w = finish w (flatten_from_nested d)
     | JNull => main w = (Raise (UnsupportedShape "NoneType"), w)
     | JBool _ => main w = (Raise (UnsupportedShape "bool"), w)
     | JInt _ => main w = (Raise (UnsupportedShape "int"), w)
     | JFloat _ => main w = (Raise (UnsupportedShape "float"), w)
     | JStr _ => main w = (Raise (UnsupportedShape "str"), w)
     end) /\
  (forall w data ty,
     input_json w = Some data ->
     fst (main w) = Raise (UnsupportedShape ty) ->
     (forall l, data <> JList l) /\ (forall d, data <> JDict d) /\
     ty = type_name data) /\
  (forall w flat e,
     flat = Raise e -> finish w flat = (Raise e, w)) /\
  (forall w df,
     finish w (Ok df) =
     match normalize df with
     | Ok out => (Ok tt, written w out)
     | Raise e => (Raise e, w)
     end).
Proof.
  split.
  { intros w data Hw. rewrite (main_finish w Hw).
    destruct data; reflexivity. }
  split.
  { intros w data ty Hw E. rewrite (main_finish w Hw) in E.
    assert (Hn : forall df, normalize df <> Raise (UnsupportedShape ty)).
    { intros df En. apply normalize_raise in En.
      destruct En as [(pe & En)|(why & En)]; discriminate. }
    apply finish_raise in E. destruct E as [E|(df & _ & E)];
      [|exfalso; exact (Hn df E)].
    destruct data; simpl in E;
      try (injection E as <-; repeat split; intros; discriminate).
    - apply flatten_from_list_raise in E.
      destruct E as [E|(ds & _ & _ & E)]; discriminate.
    - apply flatten_from_nested_raise in E.
      destruct E as [E|(label & E)]; discriminate. }
  split.
  { intros w flat e ->. reflexivity. }
  intros w df. reflexivity.
Qed.

(** C4. The alias table is fixed and case-sensitive: it sends Book,
    book_name, bookName to book, Chapter, chapterNumber to chapter, Verse,
    verseNumber to verse, Text, verseText, content to text, and leaves every
    other name, the canonical ones included, as it is.  The flattener gives,
    for each of book, chapter, verse, text in this order, the columns of the
    fields that resolve to it, with the values the records hold under them.
    So two list-shaped inputs of which one is the other with field names
    replaced, the same way in every record, by names that resolve to the
    same canonical name, get the same table; on records that use no alias
    the rename step changes nothing.  John 3:16 gives the same one-row table
    under the canonical names and under aliases. *)
Theorem alias_equivalence :
  map canonical
    ["Book"; "book_name"; "bookName"; "Chapter"; "chapterNumber";
     "Verse"; "verseNumber"; "Text"; "verseText"; "content"] =
    ["book"; "book"; "book"; "chapter"; "chapter";
     "verse"; "verse"; "text"; "text"; "text"] /\
  map canonical ["BOOK"; "bookname"; "chapter_number"; "VERSE"; "Content"] =
    ["BOOK"; "bookname"; "chapter_number"; "VERSE"; "Content"] /\
  (forall c, In c required -> canonical c = c) /\
  (forall ds,
     flatten_from_list (list_shaped ds) =
     match missing_fields ds with
     | _ :: _ =>
         Raise (MissingRequiredFields (missing_fields ds) (resolved_fields ds))
     | [] => Ok (canonical_table ds)
     end) /\
  (forall sigma ds,
     (forall k, In k (all_keys ds) -> canonical (sigma k) = canonical k) ->
     injective_on sigma (all_keys ds) ->
     canonical_table (map (rename_keys sigma) ds) = canonical_table ds /\
     flatten_from_list (list_shaped (map (rename_keys sigma) ds)) =
     flatten_from_list (list_shaped ds)) /\
  (forall ds,
     (forall k, In k (all_keys ds) -> canonical k = k) ->
     rename (filter (fun p => mem (fst p) (all_keys ds)) rename_map)
       (DataFrame ds) = DataFrame ds) /\
  flatten_from_list (list_shaped [john_3_16]) =
    Ok (verse_table [verse_row "John" 3 16 "For God so loved"]) /\
  flatten_from_list (list_shaped [rename_keys to_alias john_3_16]) =
    Ok (verse_table [verse_row "John" 3 16 "For God so loved"]).
Proof.
  split; [reflexivity|]. split; [reflexivity|].
  split.
  { intros c Hc. simpl in Hc.
    destruct Hc as [<-|[<-|[<-|[<-|[]]]]]; reflexivity. }
  split; [exact flatten_from_list_table|].
  split.
  { intros sigma ds Hcanon Hinj.
    assert (Hres : resolved_fields (map (rename_keys sigma) ds) =
                   resolved_fields ds).
    { unfold resolved_fields.
      pose proof (f_equal columns (@DataFrame_rename_keys sigma ds Hinj)) as Hk.
      simpl in Hk. rewrite Hk, map_map. apply map_ext_in. exact Hcanon. }
    assert (Htab : canonical_table (map (rename_keys sigma) ds) =
                   canonical_table ds).
    { rewrite <- !select_canonical_table, Hres.
      rewrite (@DataFrame_rename_keys sigma ds Hinj). reflexivity. }
    split; [exact Htab|].
    rewrite !flatten_from_list_table. unfold missing_fields.
    rewrite Hres, Htab. reflexivity. }
  split.
  { intros ds Hcanon. unfold rename, DataFrame. cbn [columns rows]. f_equal.
    transitivity (map (fun c : string => c) (all_keys ds)); [|apply map_id].
    apply map_ext_in.
    intros c Hc. rewrite rename_label_present by exact Hc. apply Hcanon, Hc. }
  split; reflexivity.
Qed.

(** C5. On a list of records the flattener raises MissingRequiredFields
    exactly when one of book, chapter, verse, text is not among the field
    names seen after alias resolution; the exception carries the required
    names that are missing and the names seen, [main] raises the same and
    writes nothing; a collection in which no field resolves to verse is
    refused. *)
Theorem missing_required_fields :
  forall ds : list pydict,
    (forall c,
       In c (missing_fields ds) <->
       In c required /\ ~ In c (resolved_fields ds)) /\
    (missing_fields ds <> [] ->
     flatten_from_list (list_shaped ds) =
       Raise (MissingRequiredFields (missing_fields ds) (resolved_fields ds)) /\
     forall w,
       input_json w = Some (JList (list_shaped ds)) ->
       main w =
       (Raise (MissingRequiredFields (missing_fields ds) (resolved_fields ds)),
        w)) /\
    (missing_fields ds = [] ->
     exists df, flatten_from_list (list_shaped ds) = Ok df) /\
    ((exists m s,
        flatten_from_list (list_shaped ds) = Raise (MissingRequiredFields m s))
     <-> exists c, In c required /\ ~ In c (resolved_fields ds)) /\
    ((forall d k, In d ds -> In k (map fst d) -> canonical k <> "verse") ->
     exists m s,
       flatten_from_list (list_shaped ds) = Raise (MissingRequiredFields m s) /\
       In "verse" m).
Proof.
  intros ds.
  assert (Hraise : missing_fields ds <> [] ->
    flatten_from_list (list_shaped ds) =
    Raise (MissingRequiredFields (missing_fields ds) (resolved_fields ds))).
  { intros Hne. rewrite flatten_from_list_list_shaped.
    destruct (missing_fields ds); [contradiction | reflexivity]. }
  split; [apply missing_fields_spec|].
  split.
  { intros Hne. split; [exact (Hraise Hne)|].
    intros w Hw. rewrite (main_finish w Hw). unfold finish. simpl.
    rewrite (Hraise Hne). reflexivity. }
  split.
  { intros He. rewrite flatten_from_list_list_shaped, He. eauto. }
  split.
  { split.
    - intros (m & s & E). rewrite flatten_from_list_list_shaped in E.
      destruct (missing_fields ds) as [|c cs] eqn:Em; [discriminate|].
      exists c. apply missing_fields_spec. rewrite Em. left. reflexivity.
    - intros (c & Hc). apply missing_fields_spec in Hc.
      exists (missing_fields ds), (resolved_fields ds). apply Hraise.
      intros E. rewrite E in Hc. contradiction. }
  intros Hno.
  assert (Hv : In "verse" (missing_fields ds)).
  { apply missing_fields_spec. split; [simpl; tauto|].
    unfold resolved_fields. intros H. apply in_map_iff in H.
    destruct H as (k & Hk & Hin). apply In_all_keys in Hin.
    destruct Hin as (d & Hd & Hkd). exact (Hno d k Hd Hkd Hk). }
  exists (missing_fields ds), (resolved_fields ds). split; [|exact Hv].
  apply Hraise. intros E. rewrite E in Hv. contradiction.
Qed.

(** C10. The empty list is refused with MissingRequiredFields, all four
    fields missing and no name seen, and nothing is written; the list path
    never gives a table without rows, out of the flattener or out of
    [main]. *)
Theorem empty_list_rejected :
  flatten_from_list [] =
    Raise (MissingRequiredFields ["book"; "chapter"; "verse"; "text"] []) /\
  (forall w,
     input_json w = Some (JList []) ->
     main w =
     (Raise (MissingRequiredFields ["book"; "chapter"; "verse"; "text"] []),
      w)) /\
  (forall l df, flatten_from_list l = Ok df -> rows df <> []) /\
  (forall w w' l,
     input_json w = Some (JList l) -> main w = (Ok tt, w') ->
     exists out, output_csv w' = Some out /\ rows out <> []).
Proof.
  split; [reflexivity|].
  split; [intros w Hw; rewrite (main_finish w Hw); reflexivity|].
  split; [intros l df E; apply (flatten_from_list_nonempty l E)|].
  intros w w' l Hw E. apply main_ok in E.
  destruct E as (data & df & out & Hw' & Hf & Hn & ->).
  rewrite Hw in Hw'. injection Hw' as <-. simpl in Hf.
  exists out. split; [reflexivity|].
  apply flatten_from_list_nonempty in Hf. destruct Hf as [_ Hrows].
  apply normalize_length in Hn.
  simpl. intros Hnil. apply Hrows.
  rewrite Hnil in Hn. destruct (rows df); [reflexivity|discriminate].
Qed.

End Claims.

Section NullsAndBounds.
Context {rt : Runtime}.

(** The rows of a successful run, each with the record it comes from. *)
Lemma normalize_rows (df out : frame) :
  rectangular df -> normalize df = Ok out ->
  exists pb pc pv conv body,
    positions "book" (columns df) = [pb] /\
    positions "chapter" (columns df) = [pc] /\
    positions "verse" (columns df) = [pv] /\
    out = {| columns := "id" :: columns df; rows := with_ids body |} /\
    converted_rows pc pv (rows df) = Some conv /\
    Permutation body conv /\
    StronglySorted verse_order (map (row_key pb pc pv) body) /\
    Forall2
      (fun src r =>
         exists c v,
           Int64_value (exact_column pc (rows df))
             (to_numeric_Int64 (nth pc src None)) = Some c /\
           Int64_value (exact_column pv (rows df))
             (to_numeric_Int64 (nth pv src None)) = Some v /\
           nth pc r None = Int64_cell c /\ nth pv r None = Int64_cell v /\
           List.length r = List.length src /\
           forall q, q <> pc -> q <> pv -> nth q r None = nth q src None)
      (rows df) conv.
Proof.
  intros Hrect E. apply (normalize_converted Hrect) in E.
  destruct E as (pb & pc & pv & conv & body & Hpb & Hpc & Hpv & Hconv &
                 Hperm & Hsort & ->).
  exists pb, pc, pv, conv, body. repeat split; try assumption.
  - apply StronglySorted_map. exact Hsort.
  - assert (Hne : pc <> pv).
    { eapply positions_distinct; [| exact Hpc | exact Hpv]; discriminate. }
    apply (converted_rows_cells Hne
             (@rectangular_bounds df _ _ _ _ Hrect Hpc Hpv) Hconv).
Qed.


(** C8, as amended. On the list path a chapter or verse that is not a number
    is never what makes the normaliser raise: the cast of a column is
    refused only for a cell that holds a number, and a column whose cells
    are not numbers or integers up to 2^53 in magnitude always converts.
    Whenever the normaliser returns, every record is kept, with the missing
    marker where its chapter or verse is not a number and its other cells
    as they were; a record without a chapter comes after every record of the
    same book that has one, and a record without a verse comes after every
    record of the same book and chapter that has one.  The text not-a-number
    is not a number for the reference reading; the largest int64 is written
    as a chapter when it stands alone, and refused when it stands beside a
    chapter that is not a number, since the column is then held in
    binary64. *)
Theorem null_tolerance_list_path :
  (forall l df out,
     flatten_from_list l = Ok df -> normalize df = Ok out ->
     exists pb pc pv conv body,
       positions "book" (columns df) = [pb] /\
       positions "chapter" (columns df) = [pc] /\
       positions "verse" (columns df) = [pv] /\
       rows out = with_ids body /\
       Permutation body conv /\
       Forall2
         (fun src r =>
            (to_numeric_Int64 (nth pc src None) = CNA ->
             nth pc r None = None) /\
            (to_numeric_Int64 (nth pv src None) = CNA ->
             nth pv r None = None) /\
            List.length r = List.length src /\
            forall q, q <> pc -> q <> pv -> nth q r None = nth q src None)
         (rows df) conv /\
       null_last_in_book k_chapter (map (row_key pb pc pv) body) /\
       null_verse_last_in_chapter (map (row_key pb pc pv) body)) /\
  (forall col readings e,
     to_Int64 col readings = Raise e ->
     exists c,
       In c readings /\ c <> CNA /\
       Int64_value (forallb is_int readings) c = None) /\
  (forall col readings,
     Forall plain_reading readings ->
     to_Int64 col readings = Ok (map int_value readings)) /\
  (forall df pb pc pv,
     positions "book" (columns df) = [pb] ->
     positions "chapter" (columns df) = [pc] ->
     positions "verse" (columns df) = [pv] ->
     mem "id" (columns df) = false ->
     Forall (fun r => book_is_text (nth pb r None)) (rows df) ->
     Forall (fun r => plain_reading (to_numeric_Int64 (nth pc r None)) /\
                      plain_reading (to_numeric_Int64 (nth pv r None)))
       (rows df) ->
     exists out, normalize df = Ok out) /\
  to_numeric_Int64 (Runtime := cpython) (Some (JStr "not-a-number")) = CNA /\
  main (rt := cpython) (start (JList (list_shaped null_chapter_example))) =
  (Ok tt,
   written (start (JList (list_shaped null_chapter_example)))
     null_chapter_table) /\
  main (rt := cpython) (start (JList (list_shaped largest_chapter_example))) =
  (Ok tt,
   written (start (JList (list_shaped largest_chapter_example)))
     {| columns := ["id"; "book"; "chapter"; "verse"; "text"];
        rows := [Some (JInt 0) :: verse_row "A" (2 ^ 63 - 1) 1 "a"] |}) /\
  main (rt := cpython) (start (JList (list_shaped refused_chapter_example))) =
  (Raise (PandasError (UnsafeCast "chapter")),
   start (JList (list_shaped refused_chapter_example))).
Proof.
  split.
  { intros l df out Hf Hn.
    assert (Hrect : rectangular df).
    { apply flatten_from_list_ok in Hf. destruct Hf as (ds & _ & _ & ->).
      apply select_rectangular. }
    destruct (normalize_rows Hrect Hn)
      as (pb & pc & pv & conv & body & Hpb & Hpc & Hpv & -> & Hconv & Hperm &
          Hsort & Hcells).
    exists pb, pc, pv, conv, body. repeat split; try assumption.
    - eapply Forall2_impl; [|exact Hcells].
      intros src r (c & v & Hc & Hv & Hnc & Hnv & Hlen & Hother).
      repeat split; try assumption.
      + intros E. rewrite E in Hc. injection Hc as <-. exact Hnc.
      + intros E. rewrite E in Hv. injection Hv as <-. exact Hnv.
    - apply sorted_null_last_in_book, Hsort.
    - apply sorted_null_verse_last_in_chapter, Hsort. }
  split.
  { intros col readings e E. apply to_Int64_raise in E.
    apply column_Int64_none, E. }
  split.
  { intros col readings H. apply to_Int64_ok, column_Int64_plain, H. }
  split.
  { intros df pb pc pv Hpb Hpc Hpv Hid Hb Hplain.
    destruct (@converted_rows_plain rt pc pv (rows df) Hplain)
      as (conv & Hconv).
    exact (@normalize_returns rt df pb pc pv conv Hpb Hpc Hpv Hid Hconv Hb). }
  split; [reflexivity|]. split; [reflexivity|].
  split; vm_compute; reflexivity.
Qed.


End NullsAndBounds.

(** ** The claims at concrete inputs *)

Lemma nested_flatten_completeness_witness :
  exists df,
    flatten_from_nested (rt := cpython) genesis_example = Ok df /\
    List.length (rows df) = 2%nat.
Proof.
  destruct (nested_flatten_completeness (rt := cpython))
    as (_ & Hrows & Htotal & _).
  destruct (Htotal genesis_example) as (df & E).
  - simpl. discriminate.
  - simpl. repeat constructor; simpl; discriminate.
  - exists df. split; [exact E|].
    apply Hrows in E. destruct E as [_ F].
    apply Forall2_length in F. rewrite <- F. reflexivity.
Defined.

Lemma nested_label_coercion_witness :
  (exists rs,
     flatten_from_nested (rt := cpython) typed_text_example =
     Ok {| columns := ["book"; "chapter"; "verse"; "text"]; rows := rs |} /\
     List.length rs = 4%nat) /\
  exists label,
    flatten_from_nested (rt := cpython) bad_label_example =
    Raise (CoercionFailure label) /\
    cpython_int label = None.
Proof.
  destruct (nested_label_coercion (rt := cpython)) as (_ & Hgood & Hbad & _).
  split.
  - destruct (Hgood typed_text_example) as (rs & E & F).
    + simpl. discriminate.
    + intros l Hl. simpl in Hl.
      destruct Hl as [<-|[<-|[<-|[<-|[]]]]]; split; discriminate.
    + exists rs. split; [exact E|].
      apply Forall2_length in F.
      transitivity (List.length (leaves typed_text_example));
        [symmetry; exact F | reflexivity].
  - destruct (Hbad bad_label_example
                {| l_book := "Genesis"; l_chapter := "one"; l_verse := "1";
                   l_text := JStr "a" |})
      as (label & E & Hn & _).
    + simpl. left. reflexivity.
    + left. reflexivity.
    + exists label. split; [exact E | exact Hn].
Defined.

Lemma empty_nested_rejected_witness :
  flatten_from_nested (rt := cpython) no_verses_example =
  Raise EmptyFlattenResult.
Proof.
  destruct (empty_nested_rejected (rt := cpython)) as (_ & _ & H & _).
  apply H. intros b v Hin. simpl in Hin.
  destruct Hin as [E|[E|[]]]; injection E as <- <-; [exact I|].
  intros c x Hc. simpl in Hc. destruct Hc as [E|[]].
  injection E as <- <-. reflexivity.
Defined.

Lemma normalizer_order_and_ids_witness :
  map (fun r => nth 0 r None) (rows sort_example_table) = id_cells 3 /\
  exists body,
    map (@tl cell) (rows sort_example_table) = body /\
    StronglySorted
      (fun r1 r2 => verse_order (row_key 0 1 2 r1) (row_key 0 1 2 r2)) body.
Proof.
  destruct (normalizer_order_and_ids (rt := cpython)) as (H & _).
  destruct (H (verse_table [verse_row "B" 2 1 "x"; verse_row "A" 1 5 "y";
                            verse_row "A" 1 1 "z"])
              sort_example_table)
    as (pb & pc & pv & conv & body & Hpb & Hpc & Hpv & _ & _ & Hsort & _ &
        Hids & Hbody).
  - repeat constructor.
  - reflexivity.
  - injection Hpb as <-. injection Hpc as <-. injection Hpv as <-.
    split; [exact Hids|]. exists body. split; [exact Hbody | exact Hsort].
Defined.

Lemma shape_dispatch_witness :
  main (rt := cpython) (start (JStr "Genesis")) =
  (Raise (UnsupportedShape "str"), start (JStr "Genesis")) /\
  main (rt := cpython) (start (JFloat one_and_a_half)) =
  (Raise (UnsupportedShape "float"), start (JFloat one_and_a_half)) /\
  main (rt := cpython) (start (JList [])) =
  finish (start (JList [])) (flatten_from_list []).
Proof.
  destruct (shape_dispatch (rt := cpython)) as (H & _).
  split; [|split].
  - exact (H (start (JStr "Genesis")) (JStr "Genesis") eq_refl).
  - exact (H (start (JFloat one_and_a_half)) (JFloat one_and_a_half) eq_refl).
  - exact (H (start (JList [])) (JList []) eq_refl).
Defined.

Lemma alias_equivalence_witness :
  flatten_from_list (list_shaped [rename_keys to_alias john_3_16]) =
  flatten_from_list (list_shaped [john_3_16]).
Proof.
  destruct alias_equivalence as (_ & _ & _ & _ & H & _).
  apply (H to_alias [john_3_16]).
  - intros k Hk. change (In k ["book"; "chapter"; "verse"; "text"]) in Hk.
    simpl in Hk. destruct Hk as [<-|[<-|[<-|[<-|[]]]]]; reflexivity.
  - intros k k' Hk Hk' E.
    change (In k ["book"; "chapter"; "verse"; "text"]) in Hk.
    change (In k' ["book"; "chapter"; "verse"; "text"]) in Hk'.
    simpl in Hk, Hk'.
    destruct Hk as [<-|[<-|[<-|[<-|[]]]]];
      destruct Hk' as [<-|[<-|[<-|[<-|[]]]]];
      try reflexivity; vm_compute in E; discriminate E.
Defined.

Lemma missing_required_fields_witness :
  main (rt := cpython) (start (JList (list_shaped [no_verse_field]))) =
  (Raise (MissingRequiredFields ["verse"] ["book"; "chapter"; "text"]),
   start (JList (list_shaped [no_verse_field]))).
Proof.
  destruct (missing_required_fields (rt := cpython) [no_verse_field])
    as (_ & H & _).
  destruct H as [_ Hmain].
  - vm_compute. discriminate.
  - apply (Hmain (start (JList (list_shaped [no_verse_field])))). reflexivity.
Defined.

Lemma empty_list_rejected_witness :
  exists df,
    flatten_from_list (list_shaped [john_3_16]) = Ok df /\ rows df <> [].
Proof.
  destruct (empty_list_rejected (rt := cpython)) as (_ & _ & H & _).
  exists (verse_table [record_row john_3_16]).
  split; [reflexivity|].
  apply (H (list_shaped [john_3_16])). reflexivity.
Defined.

Lemma null_tolerance_list_path_witness :
  exists body,
    rows null_chapter_table = with_ids body /\ List.length body = 2%nat /\
    null_last_in_book k_chapter (map (row_key 0 1 2) body).
Proof.
  destruct (null_tolerance_list_path (rt := cpython)) as (H & _).
  destruct (H (list_shaped null_chapter_example)
              (verse_table (map record_row null_chapter_example))
              null_chapter_table eq_refl eq_refl)
    as (pb & pc & pv & conv & body & Hpb & Hpc & Hpv & Hrows & Hperm & Hcells &
        Hnull & _).
  injection Hpb as <-. injection Hpc as <-. injection Hpv as <-.
  exists body. split; [exact Hrows|]. split; [|exact Hnull].
  rewrite (Permutation_length Hperm).
  apply Forall2_length in Hcells.
  transitivity (List.length (map record_row null_chapter_example));
    [symmetry; exact Hcells | reflexivity].
Defined.


(** *** Where the specification asks for more than the code gives *)

(** C8, as stated, fails: a record whose verse is not a number comes before
    a record of the same book with a verse, when its chapter is smaller. *)
Lemma null_verse_not_last_in_book :
  main (rt := cpython) (start (JList (list_shaped null_verse_example))) =
  (Ok tt, written (start (JList (list_shaped null_verse_example)))
            null_verse_table) /\
  ~ null_last_in_book k_verse (map (row_key 1 2 3) (rows null_verse_table)).
Proof.
  split; [reflexivity|]. intros H.
  assert (Hlt : (1 < 0)%nat).
  { apply (H 0%nat 1%nat _ _ eq_refl eq_refl); try reflexivity.
    simpl. discriminate. }
  lia.
Qed.

(** * Further properties *)


(** ** The list path, end to end *)

Lemma filter_two (A : Type) (P : A -> bool) (l : list A) (a b : A) :
  In a l -> In b l -> a <> b -> P a = true -> P b = true ->
  (2 <= List.length (filter P l))%nat.
Proof.
  intros Ha Hb Hne Pa Pb.
  assert (H1 : forall x l', In x l' -> P x = true ->
                            (1 <= List.length (filter P l'))%nat).
  { intros x l' Hx Px. assert (Hin : In x (filter P l'))
      by (apply filter_In; auto).
    destruct (filter P l'); [contradiction | simpl; lia]. }
  induction l as [|x l IH]; [contradiction|]. simpl.
  destruct Ha as [->|Ha], Hb as [->|Hb].
  - congruence.
  - rewrite Pa. simpl. specialize (H1 b l Hb Pb). lia.
  - rewrite Pb. simpl. specialize (H1 a l Ha Pa). lia.
  - specialize (IH Ha Hb). destruct (P x); simpl; lia.
Qed.

Section ListPath.
Context {rt : Runtime}.

(** X1. Every record gives one row: the list flattener returns as many rows
    as the list has elements, and the table [main] writes has one row per
    element of a list root and one row per quadruple of a dict root. *)
Theorem one_row_per_record :
  (forall l df,
     flatten_from_list l = Ok df -> List.length (rows df) = List.length l) /\
  (forall w w' l,
     input_json w = Some (JList l) -> main w = (Ok tt, w') ->
     exists out,
       output_csv w' = Some out /\ List.length (rows out) = List.length l) /\
  (forall w w' d,
     input_json w = Some (JDict d) -> main w = (Ok tt, w') ->
     exists out,
       output_csv w' = Some out /\
       List.length (rows out) = List.length (leaves d)).
Proof.
  assert (Hlist : forall l df,
            flatten_from_list l = Ok df ->
            List.length (rows df) = List.length l).
  { intros l df E. apply flatten_from_list_ok in E.
    destruct E as (ds & -> & _ & ->). unfold select, list_shaped, DataFrame.
    simpl. rewrite !length_map. reflexivity. }
  split; [exact Hlist|]. split.
  - intros w w' l Hw E. apply main_ok in E.
    destruct E as (data & df & out & Hw' & Hf & Hn & ->).
    rewrite Hw in Hw'. injection Hw' as <-. simpl in Hf.
    exists out. split; [reflexivity|].
    apply normalize_length in Hn. rewrite Hn. apply Hlist, Hf.
  - intros w w' d Hw E. apply main_ok in E.
    destruct E as (data & df & out & Hw' & Hf & Hn & ->).
    rewrite Hw in Hw'. injection Hw' as <-. simpl in Hf.
    exists out. split; [reflexivity|].
    apply normalize_length in Hn. rewrite Hn.
    apply flatten_from_nested_ok in Hf. destruct Hf as [_ F].
    symmetry. apply (Forall2_length F).
Qed.


(** X3. When two different fields of the input resolve to the same one of
    book, chapter, verse, [main] writes no table: it raises and leaves the
    output as it was; for chapter, with no required field missing, what it
    raises is the duplicate label. *)
Theorem duplicate_resolution_rejected (ds : list pydict) (c k1 k2 : string)
    (w : world) :
  In c ["book"; "chapter"; "verse"] ->
  In k1 (all_keys ds) -> In k2 (all_keys ds) -> k1 <> k2 ->
  canonical k1 = c -> canonical k2 = c ->
  input_json w = Some (JList (list_shaped ds)) ->
  exists e,
    main w = (Raise e, w) /\
    (c = "chapter" -> missing_fields ds = [] ->
     e = PandasError (DuplicateLabel "chapter")).
Proof.
  intros Hc H1 H2 Hne E1 E2 Hw.
  assert (Htwo : (2 <= List.length (fields_for c ds))%nat).
  { unfold fields_for. apply (filter_two _ _ H1 H2 Hne);
      apply String.eqb_eq; congruence. }
  assert (Hreq : In c required) by (simpl in *; tauto).
  pose proof (canonical_table_count ds Hreq) as Hcount.
  rewrite (main_finish w Hw). unfold finish. simpl.
  rewrite flatten_from_list_table.
  destruct (missing_fields ds) as [|m ms] eqn:Em; simpl.
  2:{ eexists. split; [reflexivity|]. intros _ H. discriminate. }
  destruct (normalize (canonical_table ds)) as [out|e] eqn:En.
  - exfalso. apply normalize_ok in En.
    destruct En as (pb & pc & pv & cs & vs & body & Hpb & Hpc & Hpv & _).
    simpl in Hc. destruct Hc as [<-|[<-|[<-|[]]]].
    + rewrite Hpb in Hcount. simpl in Hcount. lia.
    + rewrite Hpc in Hcount. simpl in Hcount. lia.
    + rewrite Hpv in Hcount. simpl in Hcount. lia.
  - exists e. split; [reflexivity|]. intros -> _.
    unfold normalize, coerce_column, the_column in En.
    destruct (positions "chapter" (columns (canonical_table ds)))
      as [|p [|q l]]; simpl in Hcount; try lia.
    simpl in En. congruence.
Qed.

(** X4. Every table [main] writes has the header id, book, chapter, verse
    followed by one or more text columns, and every row has one cell per
    header column. *)
Theorem written_table_header (w w' : world) :
  main w = (Ok tt, w') ->
  exists out n,
    output_csv w' = Some out /\
    columns out = ["id"; "book"; "chapter"; "verse"] ++ repeat "text" (S n) /\
    Forall (fun r => List.length r = List.length (columns out)) (rows out).
Proof.
  intros E. apply main_ok in E.
  destruct E as (data & df & out & Hw & Hf & Hn & ->).
  pose proof (detect_and_flatten_rectangular _ Hf) as Hrect.
  assert (Hcols : exists n, columns df =
                            ["book"; "chapter"; "verse"] ++ repeat "text" (S n)).
  { destruct data; simpl in Hf; try discriminate.
    - apply flatten_from_list_ok in Hf. destruct Hf as (ds & _ & Hm & ->).
      rewrite select_canonical_table in *.
      apply normalize_ok in Hn.
      destruct Hn as (pb & pc & pv & cs & vs & body & Hpb & Hpc & Hpv & _).
      pose proof (@canonical_table_count ds "book") as Cb.
      pose proof (@canonical_table_count ds "chapter") as Cc.
      pose proof (@canonical_table_count ds "verse") as Cv.
      rewrite Hpb in Cb. rewrite Hpc in Cc. rewrite Hpv in Cv.
      simpl in Cb, Cc, Cv.
      assert (Ht : fields_for "text" ds <> [])
        by (apply (proj1 (missing_fields_nil ds) Hm); simpl; tauto).
      unfold canonical_table. cbn [columns required flat_map].
      rewrite !fields_for_labels, <- Cb, <- Cc, <- Cv by (simpl; tauto).
      destruct (fields_for "text" ds) as [|k ks]; [contradiction|].
      exists (List.length ks). simpl. rewrite app_nil_r. reflexivity.
    - apply flatten_from_nested_ok in Hf. destruct Hf as [Hc _].
      exists 0%nat. rewrite Hc. reflexivity. }
  destruct Hcols as (n & Hcols).
  apply normalize_ok in Hn.
  destruct Hn as (pb & pc & pv & cs & vs & body & _ & _ & _ & _ & _ & Hperm &
                  _ & _ & ->).
  exists {| columns := "id" :: columns df; rows := with_ids body |}, n.
  split; [reflexivity|]. split; [simpl; rewrite Hcols; reflexivity|].
  simpl. apply Forall_forall. intros row Hrow.
  apply in_with_ids in Hrow. destruct Hrow as (i & r & -> & Hr).
  apply (Permutation_in _ Hperm) in Hr. apply assign_twice_In in Hr.
  destruct Hr as (src & c & v & Hsrc & ->). simpl. f_equal.
  rewrite !length_set_nth.
  unfold rectangular in Hrect. rewrite Forall_forall in Hrect. auto.
Qed.

(** X5. The normaliser changes only the chapter and the verse cell of a
    row: every row of the table it returns is an input row with an id put in
    front and every other cell, book and text among them, as it was. *)
Theorem normalize_keeps_other_cells (df out : frame) :
  normalize df = Ok out ->
  exists pc pv,
    positions "chapter" (columns df) = [pc] /\
    positions "verse" (columns df) = [pv] /\
    forall row, In row (rows out) ->
      exists src, In src (rows df) /\
        List.length row = S (List.length src) /\
        forall q, q <> pc -> q <> pv -> nth (S q) row None = nth q src None.
Proof.
  intros E. apply normalize_ok in E.
  destruct E as (pb & pc & pv & cs & vs & body & _ & Hpc & Hpv & _ & _ &
                 Hperm & _ & _ & ->).
  exists pc, pv. split; [exact Hpc|]. split; [exact Hpv|].
  intros row Hrow. simpl in Hrow. apply in_with_ids in Hrow.
  destruct Hrow as (i & r & -> & Hr).
  apply (Permutation_in _ Hperm) in Hr. apply assign_twice_In in Hr.
  destruct Hr as (src & c & v & Hsrc & ->). exists src. split; [exact Hsrc|].
  split; [simpl; rewrite !length_set_nth; reflexivity|].
  intros q H1 H2. simpl. rewrite !nth_set_nth_other by congruence.
  reflexivity.
Qed.

End ListPath.

Lemma new_labels_ext (s1 s2 l : list string) :
  (forall x, In x l -> mem x s1 = mem x s2) ->
  new_labels s1 l = new_labels s2 l.
Proof.
  revert s1 s2. induction l as [|k l IH]; intros s1 s2 H; simpl;
    [reflexivity|].
  rewrite <- (H k (or_introl eq_refl)).
  destruct (mem k s1).
  - apply IH. intros x Hx. apply H. right. exact Hx.
  - f_equal. apply IH. intros x Hx. unfold mem. simpl.
    f_equal. apply (H x). right. exact Hx.
Qed.

Lemma new_labels_filter (P : string -> bool) (seen l : list string) :
  new_labels seen (filter P l) = filter P (new_labels seen l).
Proof.
  revert seen. induction l as [|k l IH]; intros seen; simpl; [reflexivity|].
  destruct (P k) eqn:Pk; simpl.
  - destruct (mem k seen); simpl; [apply IH|]. rewrite Pk, IH. reflexivity.
  - destruct (mem k seen); simpl; [apply IH|]. rewrite Pk, <- IH.
    apply new_labels_ext. intros x Hx. apply filter_In in Hx.
    destruct Hx as [_ Px]. unfold mem. simpl.
    destruct (String.eqb x k) eqn:E; [|reflexivity].
    apply String.eqb_eq in E. congruence.
Qed.

Lemma map_fst_filter_recognised (d : pydict) :
  map fst (filter recognised d) =
  filter (fun k => mem (canonical k) required) (map fst d).
Proof.
  induction d as [|[k v] d IHd]; [reflexivity|].
  cbn [map fst filter].
  change (recognised (k, v)) with (mem (canonical k) required).
  destruct (mem (canonical k) required); cbn [map fst]; rewrite IHd;
    reflexivity.
Qed.

Lemma keys_filter_recognised (ds : list pydict) :
  all_keys (map (filter recognised) ds) =
  filter (fun k => mem (canonical k) required) (all_keys ds).
Proof.
  unfold all_keys. rewrite <- new_labels_filter. f_equal.
  induction ds as [|d ds IH]; [reflexivity|].
  cbn [map flat_map]. rewrite filter_app, IH, map_fst_filter_recognised.
  reflexivity.
Qed.

Lemma filter_filter_implied (A : Type) (P Q : A -> bool) (l : list A) :
  (forall x, Q x = true -> P x = true) ->
  filter Q (filter P l) = filter Q l.
Proof.
  intros H. induction l as [|x l IH]; simpl; [reflexivity|].
  destruct (P x) eqn:Px; simpl.
  - rewrite IH. reflexivity.
  - destruct (Q x) eqn:Qx; [|exact IH].
    rewrite (H x Qx) in Px. discriminate.
Qed.

Lemma fields_for_recognised (c : string) (ds : list pydict) :
  In c required ->
  fields_for c (map (filter recognised) ds) = fields_for c ds.
Proof.
  intros Hc. unfold fields_for. rewrite keys_filter_recognised.
  apply filter_filter_implied. intros k E. apply String.eqb_eq in E.
  rewrite <- E. apply mem_In. exact Hc.
Qed.

Lemma get_filter_recognised (k : string) (d : pydict) :
  mem (canonical k) required = true -> get k (filter recognised d) = get k d.
Proof.
  intros Hk. induction d as [|[k' v] d IH]; [reflexivity|].
  cbn [filter get].
  change (recognised (k', v)) with (mem (canonical k') required).
  destruct (mem (canonical k') required) eqn:Hk'; cbn [get].
  - rewrite IH. reflexivity.
  - destruct (String.eqb k k') eqn:E; [|exact IH].
    apply String.eqb_eq in E. congruence.
Qed.

Lemma canonical_table_recognised (ds : list pydict) :
  canonical_table (map (filter recognised) ds) = canonical_table ds.
Proof.
  unfold canonical_table. cbn [required flat_map].
  rewrite !fields_for_recognised by (simpl; tauto). f_equal.
  rewrite map_map. apply map_ext. intros d.
  assert (H : forall c, In c required ->
            map (fun k => stored k (map (filter recognised) ds)
                            (filter recognised d)) (fields_for c ds) =
            map (fun k => stored k ds d) (fields_for c ds)).
  { intros c Hc. apply map_ext_in. intros k Hk.
    assert (Hk' : mem (canonical k) required = true).
    { apply fields_for_canonical in Hk. destruct Hk as [_ ->].
      apply mem_In. exact Hc. }
    unfold stored. rewrite (@get_filter_recognised k d Hk'). f_equal.
    rewrite map_map. apply map_ext. intros d'.
    apply get_filter_recognised, Hk'. }
  rewrite !H by (simpl; tauto). reflexivity.
Qed.

Lemma missing_fields_fields_for (ds ds' : list pydict) :
  (forall c, In c required -> fields_for c ds' = fields_for c ds) ->
  missing_fields ds' = missing_fields ds.
Proof.
  intros H. unfold missing_fields. apply filter_ext_in. intros c Hc.
  f_equal.
  assert (E : forall xs, mem c (resolved_fields xs) = true <->
                         fields_for c xs <> []).
  { intros xs. rewrite mem_In. unfold resolved_fields. rewrite in_map_iff.
    split.
    - intros (k & Hk & Hin) Hf.
      assert (Hkf : In k (fields_for c xs))
        by (apply fields_for_canonical; auto).
      rewrite Hf in Hkf. contradiction.
    - intros Hf. destruct (fields_for c xs) as [|k ks] eqn:Ef;
        [contradiction|].
      assert (Hk : In k (fields_for c xs)) by (rewrite Ef; left; reflexivity).
      apply fields_for_canonical in Hk. exists k. tauto. }
  pose proof (E ds) as E1. pose proof (E ds') as E2.
  rewrite (H c Hc) in E2.
  destruct (mem c (resolved_fields ds)), (mem c (resolved_fields ds'));
    try reflexivity.
  - exfalso. assert (true = true) as T by reflexivity.
    apply E1 in T. apply E2 in T. discriminate.
  - exfalso. assert (true = true) as T by reflexivity.
    apply E2 in T. apply E1 in T. discriminate.
Qed.


Section ListPathMore.
Context {rt : Runtime}.

(** X6. A field whose name resolves to none of the four required names
    takes no part: removing all such fields from every record leaves the set
    of missing fields and, when none is missing, the table of the flattener
    and the whole result of [main] as they were. *)
Theorem unrecognised_fields_ignored (ds : list pydict) :
  missing_fields (map (filter recognised) ds) = missing_fields ds /\
  (missing_fields ds = [] ->
   flatten_from_list (list_shaped (map (filter recognised) ds)) =
   flatten_from_list (list_shaped ds) /\
   forall w w',
     input_json w = Some (JList (list_shaped ds)) ->
     input_json w' = Some (JList (list_shaped (map (filter recognised) ds))) ->
     fst (main w') = fst (main w) /\
     (fst (main w) = Ok tt ->
      output_csv (snd (main w')) = output_csv (snd (main w)))).
Proof.
  assert (Hm : missing_fields (map (filter recognised) ds) = missing_fields ds).
  { apply missing_fields_fields_for. intros c Hc.
    apply fields_for_recognised, Hc. }
  split; [exact Hm|]. intros Hnil.
  assert (Hf : flatten_from_list (list_shaped (map (filter recognised) ds)) =
               flatten_from_list (list_shaped ds)).
  { rewrite !flatten_from_list_table, Hm, Hnil, canonical_table_recognised.
    reflexivity. }
  split; [exact Hf|]. intros w w' Hw Hw'.
  rewrite (main_finish w Hw), (main_finish w' Hw'). unfold finish. simpl.
  rewrite Hf.
  destruct (df <- flatten_from_list (list_shaped ds) ;; normalize df);
    simpl; split; try reflexivity. intros E. discriminate.
Qed.


(** X8. The list path is not lenient about a number that is no whole int64:
    when the Int64 cast refuses the chapter column, which it does as soon as
    one record's chapter is a float that is not a whole number within int64
    (1.5, an infinity), [main] raises the cast error for chapter and writes
    nothing; the same for the verse column once the chapter column has
    converted. *)
Theorem unsafe_cast_aborts (ds : list pydict) (kb kc kv kt : string)
    (w : world) :
  fields_for "book" ds = [kb] -> fields_for "chapter" ds = [kc] ->
  fields_for "verse" ds = [kv] -> fields_for "text" ds = [kt] ->
  input_json w = Some (JList (list_shaped ds)) ->
  let chapters := map (fun d => to_numeric_Int64 (stored kc ds d)) ds in
  let verses := map (fun d => to_numeric_Int64 (stored kv ds d)) ds in
  (column_Int64 chapters = None -> ~ In COutside chapters ->
   main w = (Raise (PandasError (UnsafeCast "chapter")), w)) /\
  (column_Int64 chapters <> None ->
   column_Int64 verses = None -> ~ In COutside verses ->
   main w = (Raise (PandasError (UnsafeCast "verse")), w)) /\
  (forall readings f,
     In (CFloat f) readings -> whole_int64 f = None ->
     column_Int64 readings = None).
Proof.
  intros Hb Hc Hv Ht Hw chapters verses.
  pose proof (flatten_from_list_unique ds Hb Hc Hv Ht) as Hf.
  set (rs := map (fun d => [stored kb ds d; stored kc ds d; stored kv ds d;
                            stored kt ds d]) ds) in *.
  assert (Hrc : map (fun r => to_numeric_Int64 (nth 1 r None)) rs = chapters).
  { unfold chapters, rs. rewrite map_map. reflexivity. }
  assert (Hrv : map (fun r => to_numeric_Int64 (nth 2 r None)) rs = verses).
  { unfold verses, rs. rewrite map_map. reflexivity. }
  assert (Hno : forall l, ~ In COutside l -> existsb is_outside l = false).
  { intros l H. destruct (existsb is_outside l) eqn:E; [|reflexivity].
    apply existsb_outside in E. contradiction. }
  rewrite (main_finish w Hw). unfold finish. simpl. rewrite Hf. simpl.
  split; [|split].
  - intros Hbad Hout. unfold normalize, coerce_column. simpl.
    rewrite Hrc, to_Int64_column, Hbad, (Hno _ Hout). reflexivity.
  - intros Hgood Hbad Hout. unfold normalize, coerce_column. simpl.
    rewrite Hrc, to_Int64_column.
    destruct (column_Int64 chapters) as [cs|] eqn:Hcs; [|congruence].
    simpl.
    assert (Hlen : List.length cs = List.length rs).
    { apply column_Int64_length in Hcs. rewrite <- Hrc in Hcs.
      rewrite length_map in Hcs. exact Hcs. }
    pose proof (@readings_assign rt 1%nat 2%nat cs rs
                  ltac:(discriminate) Hlen) as Hr.
    unfold readings in Hr. rewrite Hr, Hrv, to_Int64_column, Hbad,
      (Hno _ Hout). reflexivity.
  - intros readings f Hin Hf'.
    apply (@column_Int64_refused readings (CFloat f) Hin).
    intros exact. exact Hf'.
Qed.

End ListPathMore.

(** ** The sort is stable *)

Section Stability.
Variable A : Type.

Lemma key_eqb_eq (a b : sort_key) : key_eqb a b = true <-> a = b.
Proof.
  unfold key_eqb. split.
  - destruct (key_compare a b) eqn:E; try discriminate. intros _.
    apply cmp_eq in E. exact E.
  - intros ->. rewrite cmp_refl. reflexivity.
Qed.

Lemma insert_sorted_filter (k : sort_key) (x : sort_key * A)
    (l : list (sort_key * A)) :
  filter (fun y => key_eqb k (fst y)) (insert_sorted x l) =
  filter (fun y => key_eqb k (fst y)) (x :: l).
Proof.
  induction l as [|y l IH]; [reflexivity|].
  cbn [insert_sorted]. destruct (key_leb (fst x) (fst y)) eqn:E;
    [reflexivity|].
  cbn [filter] in *. rewrite IH.
  destruct (key_eqb k (fst x)) eqn:Ex; [|reflexivity].
  destruct (key_eqb k (fst y)) eqn:Ey; [|reflexivity].
  apply key_eqb_eq in Ex, Ey. exfalso.
  unfold key_leb in E. rewrite <- Ex, <- Ey, cmp_refl in E. discriminate.
Qed.

Lemma stable_sort_filter (k : sort_key) (l : list (sort_key * A)) :
  filter (fun y => key_eqb k (fst y)) (stable_sort l) =
  filter (fun y => key_eqb k (fst y)) l.
Proof.
  induction l as [|x l IH]; [reflexivity|].
  cbn [stable_sort]. rewrite insert_sorted_filter. cbn [filter].
  rewrite IH. reflexivity.
Qed.

Lemma stable_sort_sorted_id (l : list (sort_key * A)) :
  StronglySorted (@key_le A) l -> stable_sort l = l.
Proof.
  induction 1 as [|x l Hl IH Hx]; [reflexivity|].
  cbn [stable_sort]. rewrite IH. destruct l as [|y l]; [reflexivity|].
  cbn [insert_sorted]. inversion Hx as [|? ? Hxy _]; subst.
  unfold key_le in Hxy. rewrite Hxy. reflexivity.
Qed.

End Stability.

Lemma filter_map_snd (f : list cell -> sort_key) (k : sort_key)
    (s : list (sort_key * list cell)) :
  Forall (fun kr => fst kr = f (snd kr)) s ->
  filter (fun r => key_eqb k (f r)) (map snd s) =
  map snd (filter (fun kr => key_eqb k (fst kr)) s).
Proof.
  induction 1 as [|[k' r] s Hk _ IH]; [reflexivity|].
  simpl in *. subst k'. rewrite IH.
  destruct (key_eqb k (f r)); reflexivity.
Qed.

Lemma keyed_rows_keys (pb pc pv : nat) (rs : list (list cell)) :
  Forall (fun kr => fst kr = row_key pb pc pv (snd kr))
    (keyed_rows pb pc pv rs).
Proof.
  unfold keyed_rows. apply Forall_map. apply Forall_forall.
  intros r _. reflexivity.
Qed.

Lemma keyed_rows_rows (pb pc pv : nat) (rs : list (list cell)) :
  map snd (keyed_rows pb pc pv rs) = rs.
Proof.
  unfold keyed_rows. rewrite map_map. simpl. apply map_id.
Qed.

Lemma stable_sort_rows_filter (pb pc pv : nat) (rs : list (list cell))
    (k : sort_key) :
  filter (fun r => key_eqb k (row_key pb pc pv r))
    (map snd (stable_sort (keyed_rows pb pc pv rs))) =
  filter (fun r => key_eqb k (row_key pb pc pv r)) rs.
Proof.
  rewrite (@filter_map_snd (row_key pb pc pv) k).
  - rewrite stable_sort_filter.
    rewrite <- (@filter_map_snd (row_key pb pc pv) k)
      by apply keyed_rows_keys.
    rewrite keyed_rows_rows. reflexivity.
  - apply (Permutation_Forall
             (Permutation_sym (stable_sort_perm (keyed_rows pb pc pv rs)))).
    apply keyed_rows_keys.
Qed.

Lemma stable_sort_rows_sorted (pb pc pv : nat) (rs : list (list cell)) :
  StronglySorted
    (fun r1 r2 => verse_order (row_key pb pc pv r1) (row_key pb pc pv r2)) rs ->
  map snd (stable_sort (keyed_rows pb pc pv rs)) = rs.
Proof.
  intros Hs. rewrite stable_sort_sorted_id; [apply keyed_rows_rows|].
  unfold keyed_rows.
  induction Hs as [|r rs' Hrs IH Hr]; simpl; constructor; [exact IH|].
  apply Forall_map. rewrite Forall_forall in *. intros r' Hr'.
  unfold key_le. simpl. apply key_leb_verse_order. apply Hr, Hr'.
Qed.

Section SortedTable.
Context {rt : Runtime}.

(** What [sort_values] returns. *)
Lemma sort_values_ok (df out : frame) :
  sort_values df = Ok out ->
  exists pb pc pv,
    positions "book" (columns df) = [pb] /\
    positions "chapter" (columns df) = [pc] /\
    positions "verse" (columns df) = [pv] /\
    out = {| columns := columns df;
             rows := map snd (stable_sort (keyed_rows pb pc pv (rows df))) |}.
Proof.
  unfold sort_values. intros H3.
  apply bind_ok_inv in H3. destruct H3 as (pb & Hpb & H3).
  apply bind_ok_inv in H3. destruct H3 as (pc & Hpc & H3).
  apply bind_ok_inv in H3. destruct H3 as (pv & Hpv & H3).
  apply bind_ok_inv in H3. destruct H3 as (krs & Hkrs & H3).
  apply the_column_ok in Hpb, Hpc, Hpv. injection H3 as <-.
  assert (Ek : krs = keyed_rows pb pc pv (rows df)).
  { unfold keyed_rows. eapply map_result_map; [|exact Hkrs].
    intros a b H. apply keyed_ok in H. tauto. }
  exists pb, pc, pv. rewrite Ek. auto.
Qed.

(** The table of a successful run, explicitly. *)
Lemma normalize_sorted_rows (df out : frame) :
  rectangular df -> normalize df = Ok out ->
  exists pb pc pv conv,
    positions "book" (columns df) = [pb] /\
    positions "chapter" (columns df) = [pc] /\
    positions "verse" (columns df) = [pv] /\
    converted_rows pc pv (rows df) = Some conv /\
    out = {| columns := "id" :: columns df;
             rows := with_ids
                       (map snd (stable_sort (keyed_rows pb pc pv conv))) |}.
Proof.
  intros Hrect E. pose proof E as E'. apply normalize_ok in E'.
  destruct E' as (pb & pc & pv & cs & vs & body & Hpb & Hpc & Hpv & Hcs & Hvs &
                  _ & _ & Hbook & _).
  assert (Hid : mem "id" (columns df) = false).
  { unfold normalize in E.
    apply bind_ok_inv in E. destruct E as (df1 & H1 & E).
    apply bind_ok_inv in E. destruct E as (df2 & H2 & E).
    apply bind_ok_inv in E. destruct E as (df3 & H3 & E).
    apply coerce_column_ok in H1. destruct H1 as (? & ? & _ & _ & ->).
    apply coerce_column_ok in H2. destruct H2 as (? & ? & _ & _ & ->).
    apply sort_values_ok in H3. destruct H3 as (? & ? & ? & _ & _ & _ & ->).
    unfold insert_id in E. simpl in E.
    destruct (mem "id" (columns df)); [discriminate | reflexivity]. }
  rewrite (normalize_total df Hpb Hpc Hpv Hid Hcs Hvs Hbook) in E.
  injection E as <-.
  exists pb, pc, pv, (assign pv vs (assign pc cs (rows df))).
  repeat split; try assumption.
  unfold converted_rows. rewrite Hcs, Hvs. f_equal. symmetry.
  apply column_Int64_length in Hcs, Hvs. unfold readings in Hcs, Hvs.
  rewrite length_map in Hcs, Hvs.
  apply assign_twice; try assumption.
  eapply rectangular_bounds; eassumption.
Qed.

(** X9. The sort is stable: [sort_values] leaves the rows with the same
    book, chapter and verse in the order they had; so among the rows of the
    table the normaliser returns, those with the same key are in the order
    of the input. *)
Theorem sort_is_stable :
  (forall df out,
     sort_values df = Ok out ->
     exists pb pc pv,
       positions "book" (columns df) = [pb] /\
       positions "chapter" (columns df) = [pc] /\
       positions "verse" (columns df) = [pv] /\
       columns out = columns df /\
       forall k,
         filter (fun r => key_eqb k (row_key pb pc pv r)) (rows out) =
         filter (fun r => key_eqb k (row_key pb pc pv r)) (rows df)) /\
  (forall df out,
     rectangular df -> normalize df = Ok out ->
     exists pb pc pv conv,
       positions "book" (columns df) = [pb] /\
       positions "chapter" (columns df) = [pc] /\
       positions "verse" (columns df) = [pv] /\
       converted_rows pc pv (rows df) = Some conv /\
       forall k,
         filter (fun r => key_eqb k (row_key pb pc pv r))
           (map (@tl cell) (rows out)) =
         filter (fun r => key_eqb k (row_key pb pc pv r)) conv).
Proof.
  split.
  - intros df out E. apply sort_values_ok in E.
    destruct E as (pb & pc & pv & Hpb & Hpc & Hpv & ->).
    exists pb, pc, pv. repeat split; try assumption.
    intros k. cbn [rows]. apply stable_sort_rows_filter.
  - intros df out Hrect E. apply (normalize_sorted_rows Hrect) in E.
    destruct E as (pb & pc & pv & conv & Hpb & Hpc & Hpv & Hconv & ->).
    exists pb, pc, pv, conv. repeat split; try assumption.
    intros k. cbn [rows]. rewrite with_ids_body.
    apply stable_sort_rows_filter.
Qed.

(** X10. Rows that are already in order stay where they are: [sort_values]
    returns sorted rows as they are, and when the converted input rows are
    sorted by book, chapter and verse the table is those rows in the input
    order, numbered from 0. *)
Theorem sorted_input_keeps_order :
  (forall df out,
     sort_values df = Ok out ->
     exists pb pc pv,
       positions "book" (columns df) = [pb] /\
       positions "chapter" (columns df) = [pc] /\
       positions "verse" (columns df) = [pv] /\
       (StronglySorted
          (fun r1 r2 => verse_order (row_key pb pc pv r1) (row_key pb pc pv r2))
          (rows df) ->
        out = df)) /\
  (forall df out,
     rectangular df -> normalize df = Ok out ->
     exists pb pc pv conv,
       positions "book" (columns df) = [pb] /\
       positions "chapter" (columns df) = [pc] /\
       positions "verse" (columns df) = [pv] /\
       converted_rows pc pv (rows df) = Some conv /\
       (StronglySorted
          (fun r1 r2 => verse_order (row_key pb pc pv r1) (row_key pb pc pv r2))
          conv ->
        rows out = with_ids conv)).
Proof.
  split.
  - intros df out E. apply sort_values_ok in E.
    destruct E as (pb & pc & pv & Hpb & Hpc & Hpv & ->).
    exists pb, pc, pv. repeat split; try assumption.
    intros Hs. rewrite (stable_sort_rows_sorted Hs). destruct df; reflexivity.
  - intros df out Hrect E. apply (normalize_sorted_rows Hrect) in E.
    destruct E as (pb & pc & pv & conv & Hpb & Hpc & Hpv & Hconv & ->).
    exists pb, pc, pv, conv. repeat split; try assumption.
    intros Hs. cbn [rows]. rewrite (stable_sort_rows_sorted Hs). reflexivity.
Qed.

End SortedTable.

(** ** Which stage raises what, and the nested path end to end *)

Lemma map_result_raise_first (A B : Type) (f : A -> result B) (l : list A)
    (e : exn) :
  map_result f l = Raise e <->
  exists l1 a l2,
    l = l1 ++ a :: l2 /\ (forall x, In x l1 -> exists b, f x = Ok b) /\
    f a = Raise e.
Proof.
  split.
  - induction l as [|x l IH]; simpl; intros E; [discriminate|].
    destruct (f x) as [y|e'] eqn:Ex; simpl in E.
    + destruct (map_result f l) as [ys|e'] eqn:El; simpl in E;
        [discriminate|].
      injection E as ->. destruct (IH eq_refl) as (l1 & a & l2 & -> & H1 & Ha).
      exists (x :: l1), a, l2. split; [reflexivity|]. split; [|exact Ha].
      intros x' [<-|Hx']; eauto.
    + injection E as ->. exists [], x, l. split; [reflexivity|].
      split; [intros x' []|exact Ex].
  - intros (l1 & a & l2 & -> & H1 & Ha).
    induction l1 as [|x l1 IH]; simpl.
    + rewrite Ha. reflexivity.
    + destruct (H1 x (or_introl eq_refl)) as (b & ->). simpl.
      rewrite IH by (intros x' Hx'; apply H1; right; exact Hx').
      reflexivity.
Qed.

Lemma Forall2_in_r (A B : Type) (P : A -> B -> Prop) (l : list A)
    (l' : list B) (b : B) :
  Forall2 P l l' -> In b l' -> exists a, In a l /\ P a b.
Proof.
  induction 1 as [|x y l l' Hxy _ IH]; simpl; intros Hb; [contradiction|].
  destruct Hb as [<-|Hb]; [eauto|].
  destruct (IH Hb) as (a & Ha & Hp). eauto.
Qed.

Section Stages.
Context {rt : Runtime}.

Lemma leaf_record_bad_label (l : leaf) (label : string) :
  leaf_record l = Raise (CoercionFailure label) <-> bad_label l label.
Proof.
  unfold leaf_record, int_label, bad_label.
  destruct (py_int (l_chapter l)) as [c|] eqn:Ec; simpl.
  - destruct (py_int (l_verse l)) as [v|] eqn:Ev; simpl; split.
    + discriminate.
    + intros [[H _]|(_ & H & _)]; discriminate.
    + intros E. injection E as <-. right. repeat split; congruence.
    + intros [[H _]|(_ & _ & ->)]; [discriminate | reflexivity].
  - split.
    + intros E. injection E as <-. left. auto.
    + intros [[_ ->]|(H & _)]; [reflexivity | contradiction].
Qed.

(** X11. Each kind of failure comes from one stage only: InputNotFound
    exactly when there is no input; MissingRequiredFields only from a list
    root, with the missing and seen names of that list; EmptyFlattenResult
    and CoercionFailure only from a dict root, the first when the walk
    reaches nothing, the second on a label [int] refuses; an error of pandas
    only after a flattener succeeded. *)
Theorem error_provenance (w w' : world) (e : exn) :
  main w = (Raise e, w') ->
  match e with
  | InputNotFound => input_json w = None
  | UnsupportedShape ty =>
      exists data, input_json w = Some data /\ ty = type_name data
  | MissingRequiredFields m s =>
      exists ds,
        input_json w = Some (JList (list_shaped ds)) /\
        m = missing_fields ds /\ s = resolved_fields ds
  | EmptyFlattenResult =>
      exists d, input_json w = Some (JDict d) /\ leaves d = []
  | CoercionFailure label =>
      exists d, input_json w = Some (JDict d) /\ py_int label = None
  | PandasError _ =>
      exists data df,
        input_json w = Some data /\ detect_and_flatten data = Ok df
  | OutsideModel _ => exists data, input_json w = Some data
  end.
Proof.
  unfold main. destruct (input_json w) as [data|] eqn:Hw.
  2:{ intros E. injection E as <- _. reflexivity. }
  destruct (detect_and_flatten data) as [df|e'] eqn:Hf; simpl.
  - destruct (normalize df) as [out|e'] eqn:Hn; [discriminate|].
    intros E. injection E as -> _. apply normalize_raise in Hn.
    destruct Hn as [(pe & ->)|(why & ->)]; eauto.
  - intros E. injection E as -> _.
    destruct data; simpl in Hf;
      try (injection Hf as <-; eexists; split; reflexivity).
    + apply flatten_from_list_raise in Hf.
      destruct Hf as [->|(ds & -> & _ & ->)]; eauto.
    + pose proof Hf as Hf'. apply flatten_from_nested_raise in Hf'.
      destruct Hf' as [->|(label & ->)].
      * exists items. split; [reflexivity|].
        apply flatten_from_nested_empty. exact Hf.
      * exists items. split; [reflexivity|].
        rewrite flatten_from_nested_leaves in Hf.
        apply bind_raise_inv in Hf. destruct Hf as [Hf|(rs & _ & Hf)].
        -- apply map_result_raise_inv in Hf. destruct Hf as (l & _ & Hl).
           apply leaf_record_raise in Hl.
           destruct Hl as (label' & Hl & Hn & _). congruence.
        -- destruct (is_empty rs); discriminate.
Qed.

(** X12. The label a CoercionFailure reports is the first one, in the order
    of the walk and chapter before verse, that [int] refuses: every
    quadruple before it parsed, and nothing after it is looked at. *)
Theorem first_bad_label_reported (d : pydict) (label : string) :
  flatten_from_nested d = Raise (CoercionFailure label) <->
  exists l1 l l2,
    leaves d = l1 ++ l :: l2 /\ Forall labels_parse l1 /\ bad_label l label.
Proof.
  rewrite flatten_from_nested_leaves. split.
  - intros E. apply bind_raise_inv in E. destruct E as [E|(rs & _ & E)].
    + apply map_result_raise_first in E.
      destruct E as (l1 & l & l2 & Hl & H1 & Hbad).
      exists l1, l, l2. split; [exact Hl|]. split.
      * apply Forall_forall. intros x Hx. destruct (H1 x Hx) as (b & Hb).
        apply leaf_record_ok in Hb. destruct Hb as (c & v & Hc & Hv & _).
        unfold labels_parse. rewrite Hc, Hv. split; discriminate.
      * apply leaf_record_bad_label. exact Hbad.
    + destruct (is_empty rs); discriminate.
  - intros (l1 & l & l2 & Hl & H1 & Hbad).
    assert (E : map_result leaf_record (leaves d) =
                Raise (CoercionFailure label)).
    { apply map_result_raise_first. exists l1, l, l2.
      split; [exact Hl|]. split; [|apply leaf_record_bad_label, Hbad].
      intros x Hx. rewrite Forall_forall in H1.
      apply leaf_record_parse. apply H1, Hx. }
    rewrite E. reflexivity.
Qed.

(** X13. A nested input that reaches a quadruple, with every label parsed
    by [int] and every parsed number kept by the conversion, is always
    written: the table has the five columns and exactly the rows of the
    quadruples, with their integers and no missing marker, in the order of
    the sort. *)
Theorem nested_end_to_end (d : pydict) (w : world) :
  leaves d <> [] -> Forall labels_parse (leaves d) ->
  (forall l z,
     In l (leaves d) ->
     py_int (l_chapter l) = Some z \/ py_int (l_verse l) = Some z ->
     to_numeric_Int64 (Some (JInt z)) = CInt z) ->
  input_json w = Some (JDict d) ->
  exists body flat,
    main w =
    (Ok tt,
     written w {| columns := ["id"; "book"; "chapter"; "verse"; "text"];
                  rows := with_ids body |}) /\
    Forall2 (fun l r => leaf_row l = Some r) (leaves d) flat /\
    Permutation body flat /\
    StronglySorted
      (fun r1 r2 => verse_order (row_key 0 1 2 r1) (row_key 0 1 2 r2)) body.
Proof.
  intros Hne Hparse Hconv Hw.
  destruct (flatten_from_nested_total d Hne Hparse) as (df & Hf).
  pose proof Hf as Hok. apply flatten_from_nested_ok in Hok.
  destruct Hok as [Hcols Hrows].
  destruct df as [cols flat]. simpl in Hcols, Hrows. subst cols.
  assert (Hform : forall r, In r flat ->
            exists b c v t,
              r = verse_row b c v t /\
              to_numeric_Int64 (Some (JInt c)) = CInt c /\
              to_numeric_Int64 (Some (JInt v)) = CInt v).
  { intros r Hr. pose proof Hr as Hl. eapply Forall2_in_r in Hl; [|exact Hrows].
    destruct Hl as (l & Hl & c & v & Hc & Hv & ->).
    exists (l_book l), c, v, (py_str (l_text l)). split; [reflexivity|].
    split; apply (Hconv l); auto. }
  set (cs := map int_value (readings 1 flat)).
  set (vs := map int_value (readings 2 flat)).
  assert (Hcs : column_Int64 (readings 1 flat) = Some cs).
  { apply column_Int64_ints. apply forallb_forall. intros x Hx.
    unfold readings in Hx. apply in_map_iff in Hx.
    destruct Hx as (r & <- & Hr).
    destruct (Hform r Hr) as (b & c & v & t & -> & Hc & Hv).
    simpl. unfold cell in *. rewrite Hc. reflexivity. }
  assert (Hvs : column_Int64 (readings 2 flat) = Some vs).
  { apply column_Int64_ints. apply forallb_forall. intros x Hx.
    unfold readings in Hx. apply in_map_iff in Hx.
    destruct Hx as (r & <- & Hr).
    destruct (Hform r Hr) as (b & c & v & t & -> & Hc & Hv).
    simpl. unfold cell in *. rewrite Hv. reflexivity. }
  assert (Hid : assign 2 vs (assign 1 cs flat) = flat).
  { unfold cs, vs. clear -Hform.
    induction flat as [|r flat IH]; [reflexivity|].
    unfold readings. cbn [map]. rewrite !assign_cons.
    fold (readings 1 flat). fold (readings 2 flat).
    rewrite IH by (intros r' Hr'; apply Hform; right; exact Hr').
    f_equal.
    destruct (Hform r (or_introl eq_refl)) as (b & c & v & t & -> & Hc & Hv).
    simpl. unfold cell in *. rewrite Hc, Hv. reflexivity. }
  set (df := {| columns := ["book"; "chapter"; "verse"; "text"];
                rows := flat |}) in *.
  pose proof (@normalize_total rt df 0%nat 1%nat 2%nat cs vs
                eq_refl eq_refl eq_refl eq_refl Hcs Hvs) as Hn.
  assert (Hbook : Forall (fun r => book_is_text (nth 0 r None)) (rows df)).
  { unfold df. simpl. apply Forall_forall. intros r Hr.
    destruct (Hform r Hr) as (b & c & v & t & -> & _). exact I. }
  specialize (Hn Hbook). pose proof Hn as Hn'.
  apply normalize_ok in Hn'.
  destruct Hn' as (pb & pc & pv & cs' & vs' & body & Hpb & Hpc & Hpv & Hcs' &
                   Hvs' & Hperm & Hsort & _ & Hout).
  injection Hpb as <-. injection Hpc as <-. injection Hpv as <-.
  simpl in Hcs', Hvs'. rewrite Hcs in Hcs'. rewrite Hvs in Hvs'.
  injection Hcs' as <-. injection Hvs' as <-.
  exists body, flat. split; [|split; [|split]].
  - rewrite (main_finish w Hw). unfold finish. simpl. rewrite Hf. simpl.
    rewrite Hn, Hout. reflexivity.
  - clear -Hrows. induction Hrows as [|l r ls rs (c & v & Hc & Hv & ->) _ IH];
      constructor; [|exact IH].
    unfold leaf_row. rewrite Hc, Hv. reflexivity.
  - simpl in Hperm. rewrite Hid in Hperm. exact Hperm.
  - exact Hsort.
Qed.

End Stages.

(** ** The further properties at concrete inputs *)

Lemma one_row_per_record_witness :
  exists out,
    output_csv
      (written (start (JList (list_shaped sort_example))) sort_example_table) =
    Some out /\
    List.length (rows out) = 3%nat.
Proof.
  destruct (one_row_per_record (rt := cpython)) as (_ & H & _).
  apply (H (start (JList (list_shaped sort_example))) _
           (list_shaped sort_example)); reflexivity.
Defined.


Lemma duplicate_resolution_rejected_witness :
  main (rt := cpython) (start (JList (list_shaped two_chapters_example))) =
  (Raise (PandasError (DuplicateLabel "chapter")),
   start (JList (list_shaped two_chapters_example))).
Proof.
  destruct (@duplicate_resolution_rejected cpython two_chapters_example
              "chapter" "Chapter" "chapterNumber"
              (start (JList (list_shaped two_chapters_example))))
    as (e & E & He).
  - simpl. right. left. reflexivity.
  - vm_compute. right. left. reflexivity.
  - vm_compute. right. right. left. reflexivity.
  - discriminate.
  - reflexivity.
  - reflexivity.
  - reflexivity.
  - rewrite E. rewrite (He eq_refl eq_refl). reflexivity.
Defined.

Lemma written_table_header_witness :
  exists out n,
    output_csv
      (written (start (JList (list_shaped sort_example))) sort_example_table) =
    Some out /\
    columns out = ["id"; "book"; "chapter"; "verse"] ++ repeat "text" (S n).
Proof.
  destruct (@written_table_header cpython
              (start (JList (list_shaped sort_example)))
              (written (start (JList (list_shaped sort_example)))
                 sort_example_table) eq_refl)
    as (out & n & Hout & Hcols & _).
  exists out, n. split; [exact Hout | exact Hcols].
Defined.

Lemma normalize_keeps_other_cells_witness :
  Forall
    (fun row =>
       exists src,
         In src [verse_row "B" 2 1 "x"; verse_row "A" 1 5 "y";
                 verse_row "A" 1 1 "z"] /\
         nth 1 row None = nth 0 src None /\ nth 4 row None = nth 3 src None)
    (rows sort_example_table).
Proof.
  destruct (@normalize_keeps_other_cells cpython
              (verse_table [verse_row "B" 2 1 "x"; verse_row "A" 1 5 "y";
                            verse_row "A" 1 1 "z"])
              sort_example_table eq_refl)
    as (pc & pv & Hpc & Hpv & H).
  injection Hpc as <-. injection Hpv as <-.
  apply Forall_forall. intros row Hrow.
  destruct (H row Hrow) as (src & Hsrc & _ & Hcells).
  exists src. split; [exact Hsrc|]. split; apply Hcells; discriminate.
Defined.

Lemma unrecognised_fields_ignored_witness :
  flatten_from_list (list_shaped (map (filter recognised) annotated_example)) =
  flatten_from_list (list_shaped annotated_example).
Proof.
  destruct (@unrecognised_fields_ignored cpython annotated_example)
    as (_ & H).
  destruct H as [E _]; [reflexivity | exact E].
Defined.


Lemma unsafe_cast_aborts_witness :
  main (rt := cpython)
    (start (JList (list_shaped fractional_chapter_example))) =
  (Raise (PandasError (UnsafeCast "chapter")),
   start (JList (list_shaped fractional_chapter_example))).
Proof.
  destruct (@unsafe_cast_aborts cpython fractional_chapter_example
              "book" "chapter" "verse" "text"
              (start (JList (list_shaped fractional_chapter_example)))
              eq_refl eq_refl eq_refl eq_refl eq_refl)
    as (H & _).
  apply H.
  - vm_compute. reflexivity.
  - intros Hin. vm_compute in Hin. destruct Hin as [Hin|[]]. discriminate Hin.
Defined.

Lemma sort_is_stable_witness :
  filter
    (fun r =>
       key_eqb {| k_book := Some "A"; k_chapter := Some 1; k_verse := Some 1 |}
         (row_key 0 1 2 r))
    (map (@tl cell) (rows repeated_verse_table)) =
  [verse_row "A" 1 1 "first"; verse_row "A" 1 1 "second"].
Proof.
  destruct (sort_is_stable (rt := cpython)) as (_ & Hn).
  destruct (Hn (verse_table repeated_verse_example) repeated_verse_table)
    as (pb & pc & pv & conv & Hpb & Hpc & Hpv & Hconv & H).
  - repeat constructor.
  - reflexivity.
  - injection Hpb as <-. injection Hpc as <-. injection Hpv as <-.
    vm_compute in Hconv. injection Hconv as <-.
    rewrite H. reflexivity.
Defined.

Lemma sorted_input_keeps_order_witness :
  rows sort_example_table = with_ids sorted_rows_example.
Proof.
  destruct (sorted_input_keeps_order (rt := cpython)) as (_ & Hn).
  destruct (Hn (verse_table sorted_rows_example) sort_example_table)
    as (pb & pc & pv & conv & Hpb & Hpc & Hpv & Hconv & H).
  - repeat constructor.
  - reflexivity.
  - injection Hpb as <-. injection Hpc as <-. injection Hpv as <-.
    vm_compute in Hconv. injection Hconv as <-.
    rewrite H; [reflexivity|].
    repeat constructor; apply key_leb_verse_order; reflexivity.
Defined.

Lemma error_provenance_witness :
  exists d,
    input_json (start (JDict no_verses_example)) = Some (JDict d) /\
    leaves d = [].
Proof.
  exact (@error_provenance cpython (start (JDict no_verses_example))
           (start (JDict no_verses_example)) EmptyFlattenResult eq_refl).
Defined.

Lemma first_bad_label_reported_witness :
  flatten_from_nested (rt := cpython) bad_label_example =
  Raise (CoercionFailure "one").
Proof.
  apply (proj2 (@first_bad_label_reported cpython bad_label_example "one")).
  exists [], {| l_book := "Genesis"; l_chapter := "one"; l_verse := "1";
                l_text := JStr "a" |}, [].
  split; [reflexivity|]. split; [constructor|]. left. split; reflexivity.
Defined.

Lemma nested_end_to_end_witness :
  exists body,
    main (rt := cpython) (start (JDict genesis_example)) =
    (Ok tt,
     written (start (JDict genesis_example))
       {| columns := ["id"; "book"; "chapter"; "verse"; "text"];
          rows := with_ids body |}) /\
    List.length body = 2%nat.
Proof.
  destruct (@nested_end_to_end cpython genesis_example
              (start (JDict genesis_example)))
    as (body & flat & E & Hflat & Hperm & _).
  - simpl. discriminate.
  - simpl. repeat constructor; simpl; discriminate.
  - intros l z Hl Hz. simpl in Hl.
    destruct Hl as [<-|[<-|[]]]; simpl in Hz;
      destruct Hz as [Hz|Hz]; injection Hz as <-; reflexivity.
  - reflexivity.
  - exists body. split; [exact E|].
    rewrite (Permutation_length Hperm), <- (Forall2_length Hflat).
    reflexivity.
Defined.

(** ** Nested inputs put end to end *)

Lemma leaves_app (d1 d2 : pydict) : leaves (d1 ++ d2) = leaves d1 ++ leaves d2.
Proof. unfold leaves. apply flat_map_app. Qed.

Section NestedAdditive.
Context {rt : Runtime}.

Lemma flatten_from_nested_records (d : pydict) (df : frame) :
  flatten_from_nested d = Ok df <->
  exists rs,
    map_result leaf_record (leaves d) = Ok rs /\ rs <> [] /\
    df = {| columns := required; rows := map record_row rs |}.
Proof.
  rewrite flatten_from_nested_leaves. split.
  - intros E. apply bind_ok_inv in E. destruct E as (rs & Hrs & E).
    exists rs. split; [exact Hrs|].
    destruct rs as [|r rs]; simpl in E; [discriminate|].
    split; [discriminate|]. injection E as <-.
    apply DataFrame_records.
    apply map_result_ok_inv in Hrs. clear -Hrs.
    induction Hrs as [|l x ls xs Hl _ IH]; constructor; [|exact IH].
    apply leaf_record_ok in Hl. destruct Hl as (c & v & _ & _ & ->).
    unfold is_verse_record. eauto.
  - intros (rs & Hrs & Hne & ->). rewrite Hrs. simpl.
    destruct rs as [|r rs]; [contradiction|]. simpl. f_equal.
    apply DataFrame_records.
    apply map_result_ok_inv in Hrs. clear -Hrs.
    induction Hrs as [|l x ls xs Hl _ IH]; constructor; [|exact IH].
    apply leaf_record_ok in Hl. destruct Hl as (c & v & _ & _ & ->).
    unfold is_verse_record. eauto.
Qed.

(** X14. Nested inputs compose: the table of two inputs put end to end is
    the rows of the first followed by the rows of the second; a part that
    reaches no quadruple (metadata, an empty book) changes nothing on either
    side; and a CoercionFailure of the first part is the failure of the
    whole. *)
Theorem nested_flatten_additive :
  (forall d1 d2 df1 df2,
     flatten_from_nested d1 = Ok df1 -> flatten_from_nested d2 = Ok df2 ->
     flatten_from_nested (d1 ++ d2) =
     Ok {| columns := ["book"; "chapter"; "verse"; "text"];
           rows := rows df1 ++ rows df2 |}) /\
  (forall d1 d2,
     leaves d1 = [] ->
     flatten_from_nested (d1 ++ d2) = flatten_from_nested d2 /\
     flatten_from_nested (d2 ++ d1) = flatten_from_nested d2) /\
  (forall d1 d2 label,
     flatten_from_nested d1 = Raise (CoercionFailure label) ->
     flatten_from_nested (d1 ++ d2) = Raise (CoercionFailure label)).
Proof.
  split; [|split].
  - intros d1 d2 df1 df2 H1 H2.
    apply flatten_from_nested_records in H1, H2.
    destruct H1 as (rs1 & E1 & N1 & ->). destruct H2 as (rs2 & E2 & N2 & ->).
    apply flatten_from_nested_records. exists (rs1 ++ rs2).
    split; [|split].
    + rewrite leaves_app, map_result_app, E1, E2. reflexivity.
    + destruct rs1; [contradiction | discriminate].
    + simpl. rewrite map_app. reflexivity.
  - intros d1 d2 Hl. rewrite !flatten_from_nested_leaves, !leaves_app, Hl.
    rewrite app_nil_r. split; reflexivity.
  - intros d1 d2 label E. rewrite flatten_from_nested_leaves in *.
    rewrite leaves_app, map_result_app.
    destruct (map_result leaf_record (leaves d1)) as [rs|e]; simpl in *.
    + destruct (is_empty rs); discriminate.
    + exact E.
Qed.

End NestedAdditive.

Lemma nested_flatten_additive_witness :
  flatten_from_nested (rt := cpython) (genesis_example ++ exodus_example) =
  Ok two_books_table.
Proof.
  destruct (nested_flatten_additive (rt := cpython)) as (H & _).
  exact (H genesis_example exodus_example _ _ eq_refl eq_refl).
Defined.
